(** * lambroll: reconstruction, normalization, update validation, diff and
      version listing of a Lambda function definition

    A shallow embedding of [lambroll.go], [diff.go] and the versions listing,
    with the properties of the specification stated over it.

    Conventions of the embedding:
    - a Go pointer [*T] is an [option T] ([None] is [nil]);
    - a Go slice is a [slice T = option (list T)]: [None] is the nil slice,
      [Some []] the empty non-nil slice (the two marshal differently);
    - a Go map used as a dictionary is a [gmap];
    - a string-typed enumeration of the service SDK is a [string];
    - an [error] is its message; a nil-pointer dereference is [Panic]. *)

From stdpp Require Import strings gmap list.
From Stdlib Require Import QArith_base.

(** ** Outcomes of fallible code *)

Definition error := string.

Inductive Res (A : Type) : Type :=
| Ok (a : A)
| Err (e : error)
| Panic.
Arguments Ok {A} a.
Arguments Err {A} e.
Arguments Panic {A}.

Definition res_bind {A B} (r : Res A) (k : A -> Res B) : Res B :=
  match r with
  | Ok a => k a
  | Err e => Err e
  | Panic => Panic
  end.

(** [*p] on a pointer. *)
Definition deref {A} (p : option A) : Res A :=
  match p with
  | Some a => Ok a
  | None => Panic
  end.

Definition slice (A : Type) : Type := option (list A).

(** [len(s)] *)
Definition len {A} (s : slice A) : nat :=
  match s with
  | Some l => length l
  | None => 0
  end.

(** [append(s, x)]: appending to the nil slice allocates. *)
Definition append {A} (s : slice A) (x : A) : slice A :=
  match s with
  | Some l => Some (l ++ [x])
  | None => Some [x]
  end.

(** [aws.ToString]: the empty string for nil. *)
Definition aws_ToString (p : option string) : string :=
  match p with
  | Some s => s
  | None => ""
  end.

(** [fmt.Errorf("msg: %w", err)] and [errors.Wrap(err, "msg")]. *)
Definition wrap (msg : string) (e : error) : error := msg +:+ ": " +:+ e.

(** ** Constants of [lambroll.go] *)

Definition versionLatest : string := "$LATEST".
Definition packageTypeImage : string := "Image".

(** ** The service SDK's types (package [types]) *)

Module types.

(** Enumeration values of the SDK. *)
Definition ArchitectureX8664 : string := "x86_64".
Definition LogFormatText : string := "Text".
Definition LogFormatJson : string := "JSON".
Definition ApplicationLogLevelInfo : string := "INFO".
Definition SystemLogLevelInfo : string := "INFO".
Definition TracingModePassThrough : string := "PassThrough".
Definition SnapStartApplyOnNone : string := "None".
Definition PackageTypeImage : string := "Image".
Definition PackageTypeZip : string := "Zip".

Record FunctionCode := {
  ImageUri : option string;
  S3Bucket : option string;
  S3Key : option string;
  S3ObjectVersion : option string;
  ZipFile : slice Byte.byte
}.

Record EphemeralStorage := { Size : option Z }.

Record LoggingConfig := {
  ApplicationLogLevel : string;
  LogFormat : string;
  LogGroup : option string;
  SystemLogLevel : string
}.

Record DeadLetterConfig := { TargetArn : option string }.

Record FileSystemConfig := {
  fs_Arn : option string;
  LocalMountPath : option string
}.

Record SnapStart := { ApplyOn : string }.

Record SnapStartResponse := {
  ssr_ApplyOn : string;
  OptimizationStatus : string
}.

Record Environment := { Variables : option (gmap string string) }.

Record EnvironmentResponse := {
  er_Error : option (string * string);
  er_Variables : option (gmap string string)
}.

Record ImageConfig := {
  Command : slice string;
  EntryPoint : slice string;
  WorkingDirectory : option string
}.

Record ImageConfigResponse := {
  icr_Error : option (string * string);
  icr_ImageConfig : option ImageConfig
}.

Record Layer := {
  Arn : option string;
  CodeSize : Z;
  SigningJobArn : option string;
  SigningProfileVersionArn : option string
}.

Record TracingConfig := { Mode : string }.

Record TracingConfigResponse := { tcr_Mode : string }.

Record VpcConfig := {
  Ipv6AllowedForDualStack : option bool;
  SecurityGroupIds : slice string;
  SubnetIds : slice string
}.

Record VpcConfigResponse := {
  vr_Ipv6AllowedForDualStack : option bool;
  vr_SecurityGroupIds : slice string;
  vr_SubnetIds : slice string;
  VpcId : option string
}.

(** The fields of the remote configuration that the sources read. *)
Record FunctionConfiguration := {
  c_Architectures : slice string;
  c_CodeSha256 : option string;
  c_DeadLetterConfig : option DeadLetterConfig;
  c_Description : option string;
  c_Environment : option EnvironmentResponse;
  c_EphemeralStorage : option EphemeralStorage;
  c_FileSystemConfigs : slice FileSystemConfig;
  c_FunctionName : option string;
  c_Handler : option string;
  c_ImageConfigResponse : option ImageConfigResponse;
  c_KMSKeyArn : option string;
  c_LastModified : option string;
  c_Layers : slice Layer;
  c_LoggingConfig : option LoggingConfig;
  c_MemorySize : option Z;
  c_PackageType : string;
  c_Role : option string;
  c_Runtime : string;
  c_SnapStart : option SnapStartResponse;
  c_Timeout : option Z;
  c_TracingConfig : option TracingConfigResponse;
  c_Version : option string;
  c_VpcConfig : option VpcConfigResponse
}.

Record FunctionCodeLocation := {
  cl_ImageUri : option string;
  Location : option string;
  RepositoryType : option string;
  ResolvedImageUri : option string
}.

End types.

(** ** [Function] and [Tags] *)

(** [type Tags map[string]string] *)
Definition Tags : Type := option (gmap string string).

(** [type Function lambda.CreateFunctionInput]: the fields the sources read
    or write. *)
Record Function := {
  Architectures : slice string;
  Code : option types.FunctionCode;
  DeadLetterConfig : option types.DeadLetterConfig;
  Description : option string;
  Environment : option types.Environment;
  EphemeralStorage : option types.EphemeralStorage;
  FileSystemConfigs : slice types.FileSystemConfig;
  FunctionName : option string;
  Handler : option string;
  ImageConfig : option types.ImageConfig;
  KMSKeyArn : option string;
  Layers : slice string;
  LoggingConfig : option types.LoggingConfig;
  MemorySize : option Z;
  PackageType : string;
  Role : option string;
  Runtime : string;
  SnapStart : option types.SnapStart;
  Tags_ : Tags;
  Timeout : option Z;
  TracingConfig : option types.TracingConfig;
  VpcConfig : option types.VpcConfig
}.

(** Assignments [fn.F = v], one per field that the sources assign. *)
Definition set_Architectures (v : slice string) (fn : Function) : Function :=
  let 'Build_Function _ co dl de en ep fs na ha ic km la lo me pt ro ru sn ta ti tr vp := fn in
  Build_Function v co dl de en ep fs na ha ic km la lo me pt ro ru sn ta ti tr vp.

Definition set_Code (v : option types.FunctionCode) (fn : Function) : Function :=
  let 'Build_Function ar _ dl de en ep fs na ha ic km la lo me pt ro ru sn ta ti tr vp := fn in
  Build_Function ar v dl de en ep fs na ha ic km la lo me pt ro ru sn ta ti tr vp.

Definition set_Description (v : option string) (fn : Function) : Function :=
  let 'Build_Function ar co dl _ en ep fs na ha ic km la lo me pt ro ru sn ta ti tr vp := fn in
  Build_Function ar co dl v en ep fs na ha ic km la lo me pt ro ru sn ta ti tr vp.

Definition set_Environment (v : option types.Environment) (fn : Function) : Function :=
  let 'Build_Function ar co dl de _ ep fs na ha ic km la lo me pt ro ru sn ta ti tr vp := fn in
  Build_Function ar co dl de v ep fs na ha ic km la lo me pt ro ru sn ta ti tr vp.

Definition set_EphemeralStorage (v : option types.EphemeralStorage) (fn : Function) : Function :=
  let 'Build_Function ar co dl de en _ fs na ha ic km la lo me pt ro ru sn ta ti tr vp := fn in
  Build_Function ar co dl de en v fs na ha ic km la lo me pt ro ru sn ta ti tr vp.

Definition set_ImageConfig (v : option types.ImageConfig) (fn : Function) : Function :=
  let 'Build_Function ar co dl de en ep fs na ha _ km la lo me pt ro ru sn ta ti tr vp := fn in
  Build_Function ar co dl de en ep fs na ha v km la lo me pt ro ru sn ta ti tr vp.

Definition set_Layers (v : slice string) (fn : Function) : Function :=
  let 'Build_Function ar co dl de en ep fs na ha ic km _ lo me pt ro ru sn ta ti tr vp := fn in
  Build_Function ar co dl de en ep fs na ha ic km v lo me pt ro ru sn ta ti tr vp.

Definition set_LoggingConfig (v : option types.LoggingConfig) (fn : Function) : Function :=
  let 'Build_Function ar co dl de en ep fs na ha ic km la _ me pt ro ru sn ta ti tr vp := fn in
  Build_Function ar co dl de en ep fs na ha ic km la v me pt ro ru sn ta ti tr vp.

Definition set_MemorySize (v : option Z) (fn : Function) : Function :=
  let 'Build_Function ar co dl de en ep fs na ha ic km la lo _ pt ro ru sn ta ti tr vp := fn in
  Build_Function ar co dl de en ep fs na ha ic km la lo v pt ro ru sn ta ti tr vp.

Definition set_PackageType (v : string) (fn : Function) : Function :=
  let 'Build_Function ar co dl de en ep fs na ha ic km la lo me _ ro ru sn ta ti tr vp := fn in
  Build_Function ar co dl de en ep fs na ha ic km la lo me v ro ru sn ta ti tr vp.

Definition set_SnapStart (v : option types.SnapStart) (fn : Function) : Function :=
  let 'Build_Function ar co dl de en ep fs na ha ic km la lo me pt ro ru _ ta ti tr vp := fn in
  Build_Function ar co dl de en ep fs na ha ic km la lo me pt ro ru v ta ti tr vp.

Definition set_Tags (v : Tags) (fn : Function) : Function :=
  let 'Build_Function ar co dl de en ep fs na ha ic km la lo me pt ro ru sn _ ti tr vp := fn in
  Build_Function ar co dl de en ep fs na ha ic km la lo me pt ro ru sn v ti tr vp.

Definition set_Timeout (v : option Z) (fn : Function) : Function :=
  let 'Build_Function ar co dl de en ep fs na ha ic km la lo me pt ro ru sn ta _ tr vp := fn in
  Build_Function ar co dl de en ep fs na ha ic km la lo me pt ro ru sn ta v tr vp.

Definition set_TracingConfig (v : option types.TracingConfig) (fn : Function) : Function :=
  let 'Build_Function ar co dl de en ep fs na ha ic km la lo me pt ro ru sn ta ti _ vp := fn in
  Build_Function ar co dl de en ep fs na ha ic km la lo me pt ro ru sn ta ti v vp.

Definition set_VpcConfig (v : option types.VpcConfig) (fn : Function) : Function :=
  let 'Build_Function ar co dl de en ep fs na ha ic km la lo me pt ro ru sn ta ti tr _ := fn in
  Build_Function ar co dl de en ep fs na ha ic km la lo me pt ro ru sn ta ti tr v.

(** ** [newSnapStart] *)

Definition newSnapStart (s : option types.SnapStartResponse) : option types.SnapStart :=
  match s with
  | None => None
  | Some s => Some {| types.ApplyOn := types.ssr_ApplyOn s |}
  end.

(** ** [newFunctionFrom] *)

(** [for _, layer := range c.Layers { fn.Layers = append(fn.Layers, *layer.Arn) }] *)
Fixpoint appendLayerArns (layers : list types.Layer) (acc : slice string) : Res (slice string) :=
  match layers with
  | [] => Ok acc
  | layer :: rest =>
      res_bind (deref (types.Arn layer)) (fun arn => appendLayerArns rest (append acc arn))
  end.

(** The test [code != nil && aws.ToString(code.RepositoryType) == "ECR"]. *)
Definition codeIsECR (code : option types.FunctionCodeLocation) : bool :=
  match code with
  | Some cl => String.eqb (aws_ToString (types.RepositoryType cl)) "ECR"
  | None => false
  end.

(** The result is the returned pointer: [Ok None] is the nil return. *)
Definition newFunctionFrom (c : option types.FunctionConfiguration)
    (code : option types.FunctionCodeLocation) (tags : Tags) : Res (option Function) :=
  match c with
  | None => Ok None
  | Some c =>
      let fn := {|
        Architectures := types.c_Architectures c;
        Code := None;
        DeadLetterConfig := types.c_DeadLetterConfig c;
        Description := types.c_Description c;
        Environment := None;
        EphemeralStorage := types.c_EphemeralStorage c;
        FileSystemConfigs := types.c_FileSystemConfigs c;
        FunctionName := types.c_FunctionName c;
        Handler := types.c_Handler c;
        ImageConfig := None;
        KMSKeyArn := types.c_KMSKeyArn c;
        Layers := None;
        LoggingConfig := types.c_LoggingConfig c;
        MemorySize := types.c_MemorySize c;
        PackageType := "";
        Role := types.c_Role c;
        Runtime := types.c_Runtime c;
        SnapStart := newSnapStart (types.c_SnapStart c);
        Tags_ := None;
        Timeout := types.c_Timeout c;
        TracingConfig := None;
        VpcConfig := None
      |} in
      let fn :=
        match types.c_Environment c with
        | Some e => set_Environment (Some {| types.Variables := types.er_Variables e |}) fn
        | None => fn
        end in
      let fn :=
        match types.c_ImageConfigResponse c with
        | Some i =>
            match types.icr_ImageConfig i with
            | Some ic =>
                set_ImageConfig (Some {|
                  types.Command := types.Command ic;
                  types.EntryPoint := types.EntryPoint ic;
                  types.WorkingDirectory := types.WorkingDirectory ic |}) fn
            | None => fn
            end
        | None => fn
        end in
      res_bind (appendLayerArns (default [] (types.c_Layers c)) (Layers fn)) (fun layers =>
      let fn := set_Layers layers fn in
      let fn :=
        match types.c_TracingConfig c with
        | Some t => set_TracingConfig (Some {| types.Mode := types.tcr_Mode t |}) fn
        | None => fn
        end in
      res_bind
        (match types.c_VpcConfig c with
         | Some v =>
             res_bind (deref (types.VpcId v)) (fun vpcId =>
             if negb (String.eqb vpcId "") then
               Ok (set_VpcConfig (Some {|
                     types.Ipv6AllowedForDualStack := types.vr_Ipv6AllowedForDualStack v;
                     types.SecurityGroupIds := types.vr_SecurityGroupIds v;
                     types.SubnetIds := types.vr_SubnetIds v |}) fn)
             else Ok fn)
         | None => Ok fn
         end) (fun fn =>
      res_bind
        (if codeIsECR code || String.eqb (PackageType fn) types.PackageTypeImage then
           (* log.Printf("[debug] Image URL=%s", *code.ImageUri) *)
           res_bind (deref code) (fun cl =>
           res_bind (deref (types.cl_ImageUri cl)) (fun _ =>
           let fn := set_PackageType types.PackageTypeImage fn in
           Ok (set_Code (Some {|
                 types.ImageUri := types.cl_ImageUri cl;
                 types.S3Bucket := None;
                 types.S3Key := None;
                 types.S3ObjectVersion := None;
                 types.ZipFile := None |}) fn)))
         else Ok fn) (fun fn =>
      Ok (Some (set_Tags tags fn)))))
  end.

(** ** [fillDefaultValues] *)

Definition set_LogFormat (v : string) (lc : types.LoggingConfig) : types.LoggingConfig :=
  {| types.ApplicationLogLevel := types.ApplicationLogLevel lc;
     types.LogFormat := v;
     types.LogGroup := types.LogGroup lc;
     types.SystemLogLevel := types.SystemLogLevel lc |}.

Definition set_LogGroup (v : option string) (lc : types.LoggingConfig) : types.LoggingConfig :=
  {| types.ApplicationLogLevel := types.ApplicationLogLevel lc;
     types.LogFormat := types.LogFormat lc;
     types.LogGroup := v;
     types.SystemLogLevel := types.SystemLogLevel lc |}.

Definition set_ApplicationLogLevel (v : string) (lc : types.LoggingConfig) : types.LoggingConfig :=
  {| types.ApplicationLogLevel := v;
     types.LogFormat := types.LogFormat lc;
     types.LogGroup := types.LogGroup lc;
     types.SystemLogLevel := types.SystemLogLevel lc |}.

Definition set_SystemLogLevel (v : string) (lc : types.LoggingConfig) : types.LoggingConfig :=
  {| types.ApplicationLogLevel := types.ApplicationLogLevel lc;
     types.LogFormat := types.LogFormat lc;
     types.LogGroup := types.LogGroup lc;
     types.SystemLogLevel := v |}.

(** The [if lc := fn.LoggingConfig; lc == nil { ... } else { ... }] statement.
    [resolveLogGroup] is a helper of the package that is not among the
    sources; it is a parameter, applied to the definition as it stands when
    the source calls it. In the [else] branch [lc] is the pointer held by
    [fn], so [fn] sees each assignment made through [lc]. *)
Definition fillLoggingConfig (resolveLogGroup : Function -> string) (fn : Function) : Function :=
  match LoggingConfig fn with
  | None =>
      set_LoggingConfig (Some {|
        types.ApplicationLogLevel := "";
        types.LogFormat := types.LogFormatText;
        types.LogGroup := Some (resolveLogGroup fn);
        types.SystemLogLevel := "" |}) fn
  | Some lc =>
      let lc :=
        if String.eqb (types.LogFormat lc) "" then set_LogFormat types.LogFormatText lc else lc in
      let lc :=
        match types.LogGroup lc with
        | None => set_LogGroup (Some (resolveLogGroup (set_LoggingConfig (Some lc) fn))) lc
        | Some _ => lc
        end in
      let lc :=
        if String.eqb (types.ApplicationLogLevel lc) ""
           && String.eqb (types.LogFormat lc) types.LogFormatJson
        then set_ApplicationLogLevel types.ApplicationLogLevelInfo lc else lc in
      let lc :=
        if String.eqb (types.SystemLogLevel lc) ""
           && String.eqb (types.LogFormat lc) types.LogFormatJson
        then set_SystemLogLevel types.SystemLogLevelInfo lc else lc in
      set_LoggingConfig (Some lc) fn
  end.

(** The body of [fillDefaultValues] after the nil test: the pointee before
    and after. *)
Definition fillDefaults (resolveLogGroup : Function -> string) (fn : Function) : Function :=
  let fn :=
    if Nat.eqb (len (Architectures fn)) 0
    then set_Architectures (Some [types.ArchitectureX8664]) fn else fn in
  let fn :=
    match Description fn with None => set_Description (Some "") fn | Some _ => fn end in
  let fn :=
    match MemorySize fn with None => set_MemorySize (Some 128%Z) fn | Some _ => fn end in
  let fn :=
    match Layers fn with None => set_Layers (Some []) fn | Some _ => fn end in
  let fn := fillLoggingConfig resolveLogGroup fn in
  let fn :=
    match TracingConfig fn with
    | None => set_TracingConfig (Some {| types.Mode := types.TracingModePassThrough |}) fn
    | Some _ => fn
    end in
  let fn :=
    match EphemeralStorage fn with
    | None => set_EphemeralStorage (Some {| types.Size := Some 512%Z |}) fn
    | Some _ => fn
    end in
  let fn :=
    match Timeout fn with None => set_Timeout (Some 3%Z) fn | Some _ => fn end in
  let fn :=
    match SnapStart fn with
    | None => set_SnapStart (Some {| types.ApplyOn := types.SnapStartApplyOnNone |}) fn
    | Some _ => fn
    end in
  fn.

(** [fillDefaultValues(fn *Function)]: the argument is a pointer; the result
    is what it points to when the call returns ([None] for nil, where the
    call returns at once). *)
Definition fillDefaultValues (resolveLogGroup : Function -> string)
    (fn : option Function) : option Function :=
  match fn with
  | None => None
  | Some fn => Some (fillDefaults resolveLogGroup fn)
  end.

(** ** [validateUpdateFunction] *)

Definition errCannotUpdateImageAndZip : error :=
  "cannot update function code between Image and Zip".

(** [code != nil && code.ImageUri != nil] on a [*types.FunctionCode]. *)
Definition codeHasImageUri (code : option types.FunctionCode) : bool :=
  match code with
  | Some c => bool_decide (types.ImageUri c ≠ None)
  | None => false
  end.

(** The same test on a [*types.FunctionCodeLocation]. *)
Definition locationHasImageUri (code : option types.FunctionCodeLocation) : bool :=
  match code with
  | Some c => bool_decide (types.cl_ImageUri c ≠ None)
  | None => false
  end.

(** [Ok tt] is the nil error. [newFn] is dereferenced once the current
    configuration is known to be present. *)
Definition validateUpdateFunction (currentConf : option types.FunctionConfiguration)
    (currentCode : option types.FunctionCodeLocation) (newFn : option Function) : Res unit :=
  match currentConf with
  | None => Ok tt
  | Some conf =>
      res_bind (deref newFn) (fun newFn =>
      let newCode := Code newFn in
      (* new=Image *)
      if (codeHasImageUri newCode || String.eqb (PackageType newFn) packageTypeImage)
         (* current=Zip *)
         && negb (locationHasImageUri currentCode)
      then Err errCannotUpdateImageAndZip
      (* current=Image *)
      else if (locationHasImageUri currentCode
               || String.eqb (types.c_PackageType conf) types.PackageTypeImage)
              (* new=Zip *)
              && negb (codeHasImageUri newCode)
      then Err errCannotUpdateImageAndZip
      else Ok tt)
  end.

(** ** Remote calls and observable effects *)

(** The operations of the function service that the tool can issue. *)
Inductive Call : Type :=
| GetFunction (name : string)
| ListAliases (name : string) (marker : option string)
| ListVersionsByFunction (name : string) (marker : option string)
| CreateFunction (name : string)
| UpdateFunctionConfiguration (name : string)
| UpdateFunctionCode (name : string)
| PublishVersion (name : string)
| CreateAlias (name : string)
| UpdateAlias (name : string)
| DeleteFunction (name : string).

(** A call that only fetches state. *)
Definition isRead (c : Call) : bool :=
  match c with
  | GetFunction _ | ListAliases _ _ | ListVersionsByFunction _ _ => true
  | _ => false
  end.

Inductive Event : Type :=
| Remote (c : Call)
| Stdout (s : string).

Definition remoteCalls (tr : list Event) : list Call :=
  omap (fun ev => match ev with Remote c => Some c | Stdout _ => None end) tr.

Definition printed (tr : list Event) : list string :=
  omap (fun ev => match ev with Stdout s => Some s | Remote _ => None end) tr.

(** A run: the events in the order they happen, and how the run ends. *)
Definition M (A : Type) : Type := list Event * Res A.

Definition ret {A} (a : A) : M A := ([], Ok a).

Definition bind {A B} (m : M A) (k : A -> M B) : M B :=
  match m with
  | (tr, Ok a) => let (tr', r) := k a in (tr ++ tr', r)
  | (tr, Err e) => (tr, Err e)
  | (tr, Panic) => (tr, Panic)
  end.

Definition lift {A} (r : Res A) : M A := ([], r).

Definition emit (ev : Event) : M unit := ([ev], Ok tt).

(** A remote call and the response the service gives to it. *)
Definition call {A} (c : Call) (response : Res A) : M A := ([Remote c], response).

(** [errors.Wrap] on the error of a result. *)
Definition wrapErr {A} (msg : string) (r : Res A) : Res A :=
  match r with
  | Err e => Err (wrap msg e)
  | _ => r
  end.

Notation "x <- m ;; k" := (bind m (fun x => k))
  (at level 100, m at next level, right associativity).
Notation "m ;;; k" := (bind m (fun _ => k))
  (at level 100, right associativity).

Definition nl : string := String (Ascii.ascii_of_nat 10) EmptyString.

(** [fmt.Print] and [fmt.Println] of one string. *)
Definition fmt_Print (s : string) : M unit := emit (Stdout s).
Definition fmt_Println (s : string) : M unit := emit (Stdout (s +:+ nl)).

(** ** Types of the versions listing *)

(** A [time.Time]: the instant and the zone offset it was written with. *)
Record time_Time := {
  unixNano : Z;
  zoneOffset : Z
}.

Record versionsOutput := {
  vo_Version : string;
  vo_Aliases : slice string;
  vo_LastModified : time_Time;
  vo_Runtime : string
}.

Definition versionsOutputs : Type := list versionsOutput.

Record AliasRoutingConfiguration := {
  AdditionalVersionWeights : option (gmap string Q)
}.

Record AliasConfiguration := {
  AliasArn : option string;
  a_Description : option string;
  FunctionVersion : option string;
  Name : option string;
  RevisionId : option string;
  RoutingConfig : option AliasRoutingConfiguration
}.

Record ListAliasesOutput := {
  la_Aliases : slice AliasConfiguration;
  la_NextMarker : option string
}.

Record ListVersionsByFunctionOutput := {
  lv_NextMarker : option string;
  lv_Versions : slice types.FunctionConfiguration
}.

(** ** Collaborators *)

(** Functions of the package and of its libraries that are not among the
    sources: each is a parameter of the operations that call it. *)
Record Collaborators := {
  JSON : Type;
  Query : Type;
  File : Type;
  resolveLogGroup : Function -> string;
  expandExcludeFile : string -> Res (list string);
  prepareZipfile : string -> list string -> Res File;
  (* sha256.New, io.Copy, h.Sum and base64 encoding: the error is io.Copy's *)
  sha256Base64 : File -> Res string;
  marshalAny : option Function -> JSON;
  gojq_Parse : string -> Res Query;
  jsondiff_Diff : string * JSON -> string * JSON -> list Query -> Res string;
  strings_ToLower : string -> string;
  color_RedString : string -> string;
  color_GreenString : string -> string;
  (* time.Parse(layout, value) *)
  time_Parse : string -> string -> Res time_Time;
  (* the JSON, TSV and Table methods of versionsOutputs *)
  vo_JSON : versionsOutputs -> string;
  vo_TSV : versionsOutputs -> string;
  vo_Table : versionsOutputs -> string
}.

(** [lambda.FunctionConfiguration] as [diff.go] has it. [diff.go] imports
    the SDK in which the package type of a configuration is a pointer, and
    [Diff] dereferences it; [newFunctionFrom] and [validateUpdateFunction],
    which [Diff] hands the configuration to, are those of [lambroll.go], in
    whose SDK the package type is a value. The configuration of a response
    is the package type as the pointer of the response, and the other fields
    as [lambroll.go] reads them; the package type of [fc_Configuration] is
    not read, [withPackageType] puts the one pointed to in its place. *)
Record lambda_FunctionConfiguration := {
  fc_PackageType : option string;
  fc_Configuration : types.FunctionConfiguration
}.

(** The configuration [c] with the package type [packageType]. *)
Definition withPackageType (packageType : string) (c : types.FunctionConfiguration)
    : types.FunctionConfiguration :=
  {| types.c_Architectures := types.c_Architectures c;
     types.c_CodeSha256 := types.c_CodeSha256 c;
     types.c_DeadLetterConfig := types.c_DeadLetterConfig c;
     types.c_Description := types.c_Description c;
     types.c_Environment := types.c_Environment c;
     types.c_EphemeralStorage := types.c_EphemeralStorage c;
     types.c_FileSystemConfigs := types.c_FileSystemConfigs c;
     types.c_FunctionName := types.c_FunctionName c;
     types.c_Handler := types.c_Handler c;
     types.c_ImageConfigResponse := types.c_ImageConfigResponse c;
     types.c_KMSKeyArn := types.c_KMSKeyArn c;
     types.c_LastModified := types.c_LastModified c;
     types.c_Layers := types.c_Layers c;
     types.c_LoggingConfig := types.c_LoggingConfig c;
     types.c_MemorySize := types.c_MemorySize c;
     types.c_PackageType := packageType;
     types.c_Role := types.c_Role c;
     types.c_Runtime := types.c_Runtime c;
     types.c_SnapStart := types.c_SnapStart c;
     types.c_Timeout := types.c_Timeout c;
     types.c_TracingConfig := types.c_TracingConfig c;
     types.c_Version := types.c_Version c;
     types.c_VpcConfig := types.c_VpcConfig c |}.

(** [lambda.GetFunctionOutput] *)
Record GetFunctionOutput := {
  gf_Code : option types.FunctionCodeLocation;
  gf_Configuration : option lambda_FunctionConfiguration;
  gf_Tags : Tags
}.

(** The application: its settings, the loader's answer for a path, and the
    service as the client sees it. [GetFunction] is answered once per run; a
    paginated listing is answered by the responses the service gives to the
    successive calls of the loop, in order. [loadFunctionV2] and
    [deleteVersions] are methods that are not among the sources. *)
Record App := {
  Region : string;
  AWSAccountID : string;
  loadFunction : string -> Res Function;
  loadFunctionV2 : string -> Res Function;
  deleteVersions : string -> Z -> M unit;
  lambda_GetFunction : string -> Res GetFunctionOutput;
  lambda_ListAliases : string -> list (Res ListAliasesOutput);
  lambda_ListVersionsByFunction : string -> list (Res ListVersionsByFunctionOutput)
}.

(** [functionArn]: the account is the caller's, which the application
    resolves apart from the function service. *)
Definition functionArn (app : App) (name : string) : string :=
  "arn:aws:lambda:" +:+ Region app +:+ ":" +:+ AWSAccountID app +:+ ":function:" +:+ name.

(** ** [diff.go] *)

Record DiffOption := {
  do_FunctionFilePath : option string;
  Src : option string;
  Excludes : list string;
  CodeSha256 : option bool;
  ExcludeFile : option string;
  Ignore : option string
}.

(** [strings.Split(s, "\n")] *)
Fixpoint splitLines (s : string) : list string :=
  match s with
  | EmptyString => [EmptyString]
  | String c rest =>
      if Ascii.eqb c (Ascii.ascii_of_nat 10) then EmptyString :: splitLines rest
      else
        match splitLines rest with
        | line :: lines => String c line :: lines
        | [] => [String c EmptyString]
        end
  end.

Definition coloredDiff (X : Collaborators) (src : string) : string :=
  foldl (fun b line =>
           if String.prefix "-" line then b +:+ color_RedString X line +:+ nl
           else if String.prefix "+" line then b +:+ color_GreenString X line +:+ nl
           else b +:+ line +:+ nl)
        EmptyString (splitLines src).

Definition errCodeSha256Unsupported : error :=
  "code-sha256 is only supported for Zip package type".

(** The five lines printed when the digests differ. *)
Definition codeSha256Lines (X : Collaborators) (app : App) (name src : string)
    (currentCodeSha256 newCodeSha256 : string) : list string :=
  let prefix := "CodeSha256: " in
  [ color_RedString X ("--- " +:+ functionArn app name) +:+ nl;
    color_GreenString X ("+++ " +:+ "--src=" +:+ src) +:+ nl;
    "@@ @@" +:+ nl;
    color_RedString X ("-" +:+ prefix +:+ currentCodeSha256) +:+ nl;
    color_GreenString X ("+" +:+ prefix +:+ newCodeSha256) +:+ nl ].

(** The [if aws.BoolValue(opt.CodeSha256) { ... }] block. *)
Definition diffCodeSha256 (X : Collaborators) (app : App) (opt : DiffOption)
    (excludes : list string) (name packageType currentCodeSha256 : string) : M unit :=
  if default false (CodeSha256 opt) then
    if negb (String.eqb (strings_ToLower X packageType) "zip") then
      lift (Err errCodeSha256Unsupported)
    else
      src <- lift (deref (Src opt)) ;;
      zipfile <- lift (prepareZipfile X src excludes) ;;
      newCodeSha256 <- lift (sha256Base64 X zipfile) ;;
      if negb (String.eqb currentCodeSha256 newCodeSha256) then
        foldr (fun line k => emit (Stdout line) ;;; k) (ret tt)
              (codeSha256Lines X app name src currentCodeSha256 newCodeSha256)
      else ret tt
  else ret tt.

(** What the statements of [Diff] before the update validation leave in
    its variables. *)
Record DiffVars := {
  dv_Excludes : list string;
  dv_path : string;
  dv_newFunc : Function;
  dv_name : string;
  dv_latest : option types.FunctionConfiguration;
  dv_code : option types.FunctionCodeLocation;
  dv_currentCodeSha256 : string;
  dv_packageType : string
}.

(** [Diff] up to and including the printing of the structural diff. The
    [else] branch after the fetch dereferences the configuration's code
    digest and then its package type: a response without configuration,
    without code digest or without package type panics there.
    [fillDefaultValues(latestFunc)] writes through the logging configuration
    pointer that [latestFunc] shares with [latest]; the later uses of
    [latest] read its package type only. *)
Definition diffDefinitions (X : Collaborators) (app : App) (opt : DiffOption) : M DiffVars :=
  excludeFile <- lift (deref (ExcludeFile opt)) ;;
  excludes <- lift (wrapErr "failed to parse exclude-file" (expandExcludeFile X excludeFile)) ;;
  let optExcludes := Excludes opt ++ excludes in
  path <- lift (deref (do_FunctionFilePath opt)) ;;
  newFunc <- lift (wrapErr "failed to load function" (loadFunction app path)) ;;
  let newFunc := fillDefaults (resolveLogGroup X) newFunc in
  name <- lift (deref (FunctionName newFunc)) ;;
  res <- call (GetFunction name)
           (wrapErr ("failed to GetFunction " +:+ name) (lambda_GetFunction app name)) ;;
  let code := gf_Code res in
  let tags := gf_Tags res in
  conf <- lift (deref (gf_Configuration res)) ;;
  currentCodeSha256 <- lift (deref (types.c_CodeSha256 (fc_Configuration conf))) ;;
  packageType <- lift (deref (fc_PackageType conf)) ;;
  let latest := Some (withPackageType packageType (fc_Configuration conf)) in
  latestFunc <- lift (newFunctionFrom latest code tags) ;;
  let latestFunc := fillDefaultValues (resolveLogGroup X) latestFunc in
  opts <- lift (let ignore := aws_ToString (Ignore opt) in
                if negb (String.eqb ignore "") then
                  res_bind (wrapErr ("failed to parse ignore query: " +:+ ignore)
                              (gojq_Parse X ignore))
                           (fun p => Ok [p])
                else Ok []) ;;
  let from := marshalAny X latestFunc in
  let to := marshalAny X (Some newFunc) in
  diff <- lift (wrapErr "failed to make diff"
                  (jsondiff_Diff X (functionArn app name, from) (path, to) opts)) ;;
  fmt_Print (coloredDiff X diff) ;;;
  ret {| dv_Excludes := optExcludes;
         dv_path := path;
         dv_newFunc := newFunc;
         dv_name := name;
         dv_latest := latest;
         dv_code := code;
         dv_currentCodeSha256 := currentCodeSha256;
         dv_packageType := packageType |}.

(** [func (app *App) Diff(opt DiffOption) error]: the structural diff, the
    update validation, the code digest comparison. *)
Definition Diff (X : Collaborators) (app : App) (opt : DiffOption) : M unit :=
  vars <- diffDefinitions X app opt ;;
  lift (validateUpdateFunction (dv_latest vars) (dv_code vars) (Some (dv_newFunc vars))) ;;;
  diffCodeSha256 X app opt (dv_Excludes vars) (dv_name vars) (dv_packageType vars)
    (dv_currentCodeSha256 vars).

(** ** The versions listing *)

Record VersionsOption := {
  vo_FunctionFilePath : option string;
  Output : option string;
  Delete : option bool;
  KeepVersions : option Z
}.

(** [aliases[v] = append(aliases[v], name)]: a missing key reads as the nil
    slice. *)
Definition appendAlias (v name : string) (aliases : gmap string (list string))
    : gmap string (list string) :=
  <[v := default [] (aliases !! v) ++ [name]]> aliases.

(** [for v := range weights { aliases[v] = append(aliases[v], name) }] over
    the keys in the order [keys]. *)
Definition appendWeighted (name : string) (keys : list string)
    (aliases : gmap string (list string)) : gmap string (list string) :=
  foldl (fun acc v => appendAlias v name acc) aliases keys.

(** The order in which [range] visits the keys of a map is not specified;
    the model visits them in the order of [map_to_list]. The result does not
    depend on the order (lemma [appendWeighted_Permutation]). *)
Definition rangeKeys (weights : gmap string Q) : list string :=
  (map_to_list weights).*1.

(** The body of [for _, alias := range res.Aliases]. *)
Definition addAlias (alias : AliasConfiguration) (aliases : gmap string (list string))
    : Res (gmap string (list string)) :=
  res_bind (deref (FunctionVersion alias)) (fun version =>
  res_bind (deref (Name alias)) (fun name =>
  let aliases := appendAlias version name aliases in
  match RoutingConfig alias with
  | None => Ok aliases
  | Some rc =>
      match AdditionalVersionWeights rc with
      | None => Ok aliases
      | Some weights => Ok (appendWeighted name (rangeKeys weights) aliases)
      end
  end)).

Fixpoint addAliases (l : list AliasConfiguration) (aliases : gmap string (list string))
    : Res (gmap string (list string)) :=
  match l with
  | [] => Ok aliases
  | alias :: rest => res_bind (addAlias alias aliases) (addAliases rest)
  end.

(** A run of a listing is an [option (M A)]: [None] when a loop asks for a
    page and the service's responses have ended, so that the run never
    returns. [waitFor request rest] is the run that sends [request] and goes
    on as [rest]. *)
Definition waitFor {A} (request : Event) (rest : option (M A)) : option (M A) :=
  match rest with
  | Some (tr, r) => Some (request :: tr, r)
  | None => None
  end.

(** Sequencing of such runs. *)
Definition andThen {A B} (m : option (M A)) (k : A -> option (M B)) : option (M B) :=
  match m with
  | None => None
  | Some (tr, Ok a) =>
      match k a with
      | Some (tr', r) => Some (tr ++ tr', r)
      | None => None
      end
  | Some (tr, Err e) => Some (tr, Err e)
  | Some (tr, Panic) => Some (tr, Panic)
  end.

(** The alias loop for the function [name], over the responses [resps] of
    the service to its successive calls; [nextAliasMarker] is the marker
    sent with the next call. *)
Fixpoint listAliasesLoop (name : string) (resps : list (Res ListAliasesOutput))
    (nextAliasMarker : option string) (aliases : gmap string (list string))
    : option (M (gmap string (list string))) :=
  match resps with
  | [] => None
  | resp :: rest =>
      let request := Remote (ListAliases name nextAliasMarker) in
      match resp with
      | Ok res =>
          match addAliases (default [] (la_Aliases res)) aliases with
          | Ok aliases =>
              match la_NextMarker res with
              | None => Some ([request], Ok aliases)
              | Some marker =>
                  waitFor request (listAliasesLoop name rest (Some marker) aliases)
              end
          | Err e => Some ([request], Err e)
          | Panic => Some ([request], Panic)
          end
      | Err e => Some ([request], Err (wrap "failed to list aliases" e))
      | Panic => Some ([request], Panic)
      end
  end.

(** The version loop: [versions = append(versions, res.Versions...)]. *)
Fixpoint listVersionsLoop (name : string) (resps : list (Res ListVersionsByFunctionOutput))
    (nextMarker : option string) (versions : list types.FunctionConfiguration)
    : option (M (list types.FunctionConfiguration)) :=
  match resps with
  | [] => None
  | resp :: rest =>
      let request := Remote (ListVersionsByFunction name nextMarker) in
      match resp with
      | Ok res =>
          let versions := versions ++ default [] (lv_Versions res) in
          match lv_NextMarker res with
          | None => Some ([request], Ok versions)
          | Some marker =>
              waitFor request (listVersionsLoop name rest (Some marker) versions)
          end
      | Err e => Some ([request], Err (wrap "failed to list versions" e))
      | Panic => Some ([request], Panic)
      end
  end.

Definition lastModifiedLayout : string := "2006-01-02T15:04:05.999-0700".

(** [for _, v := range versions { ... vo = append(vo, ...) }] *)
Fixpoint buildOutputs (X : Collaborators) (aliases : gmap string (list string))
    (versions : list types.FunctionConfiguration) (vo : versionsOutputs)
    : Res versionsOutputs :=
  match versions with
  | [] => Ok vo
  | v :: rest =>
      if String.eqb (aws_ToString (types.c_Version v)) versionLatest then
        buildOutputs X aliases rest vo
      else
        res_bind (deref (types.c_LastModified v)) (fun lastModified =>
        res_bind (wrapErr "failed to parse last modified"
                    (time_Parse X lastModifiedLayout lastModified)) (fun lm =>
        res_bind (deref (types.c_Version v)) (fun version =>
        buildOutputs X aliases rest
          (vo ++ [{| vo_Version := version;
                     vo_Aliases := aliases !! version;
                     vo_LastModified := lm;
                     vo_Runtime := types.c_Runtime v |}]))))
  end.

(** The records [vo] that [Versions] computes for the function [name]:
    the two loops, then the records. *)
Definition listVersions (X : Collaborators) (app : App) (name : string)
    : option (M versionsOutputs) :=
  andThen (listAliasesLoop name (lambda_ListAliases app name) None ∅) (fun aliases =>
  andThen (listVersionsLoop name (lambda_ListVersionsByFunction app name) None [])
    (fun versions =>
  Some (lift (buildOutputs X aliases versions [])))).

(** [switch *opt.Output { ... }] *)
Definition printOutputs (X : Collaborators) (output : string) (vo : versionsOutputs) : M unit :=
  if String.eqb output "json" then fmt_Println (vo_JSON X vo)
  else if String.eqb output "tsv" then fmt_Print (vo_TSV X vo)
  else if String.eqb output "table" then fmt_Print (vo_Table X vo)
  else ret tt.

(** [func (app *App) Versions(opt VersionsOption) error] *)
Definition Versions (X : Collaborators) (app : App) (opt : VersionsOption) : option (M unit) :=
  andThen (Some (lift (deref (vo_FunctionFilePath opt)))) (fun path =>
  andThen (Some (lift (wrapErr "failed to load function" (loadFunctionV2 app path))))
    (fun newFunc =>
  andThen (Some (lift (deref (FunctionName newFunc)))) (fun name =>
  andThen (Some (lift (deref (Delete opt)))) (fun delete =>
  if delete : bool then
    Some (keep <- lift (deref (KeepVersions opt)) ;; deleteVersions app name keep)
  else
    andThen (listVersions X app name) (fun vo =>
    Some (output <- lift (deref (Output opt)) ;; printOutputs X output vo)))))).

(** ** Notions of the specification *)

(** The backing type of a function's code. *)
Inductive BackingType : Type := Archive | Image.

(** The desired backing type, by the test that [validateUpdateFunction]
    labels [new=Image]. *)
Definition desiredBacking (fn : Function) : BackingType :=
  if codeHasImageUri (Code fn) || String.eqb (PackageType fn) packageTypeImage
  then Image else Archive.

(** The current backing type, by the test labelled [current=Image]. *)
Definition currentBacking (conf : types.FunctionConfiguration)
    (code : option types.FunctionCodeLocation) : BackingType :=
  if locationHasImageUri code || String.eqb (types.c_PackageType conf) types.PackageTypeImage
  then Image else Archive.

(** The architecture list after defaulting. *)
Definition defaultArchitectures (ar : slice string) : slice string :=
  if Nat.eqb (len ar) 0 then Some [types.ArchitectureX8664] else ar.

(** The definition once architectures, description, memory and layers have
    their defaults: what [resolveLogGroup] is applied to. *)
Definition withLeadingDefaults (fn : Function) : Function :=
  set_Layers (Some (default [] (Layers fn)))
    (set_MemorySize (Some (default 128%Z (MemorySize fn)))
      (set_Description (Some (default "" (Description fn)))
        (set_Architectures (defaultArchitectures (Architectures fn)) fn))).

(** The statements of [fillDefaultValues] before the logging
    configuration. *)
Definition fillLeading (fn : Function) : Function :=
  let fn :=
    if Nat.eqb (len (Architectures fn)) 0
    then set_Architectures (Some [types.ArchitectureX8664]) fn else fn in
  let fn :=
    match Description fn with None => set_Description (Some "") fn | Some _ => fn end in
  let fn :=
    match MemorySize fn with None => set_MemorySize (Some 128%Z) fn | Some _ => fn end in
  match Layers fn with None => set_Layers (Some []) fn | Some _ => fn end.

(** The statements after it. *)
Definition fillTrailing (fn : Function) : Function :=
  let fn :=
    match TracingConfig fn with
    | None => set_TracingConfig (Some {| types.Mode := types.TracingModePassThrough |}) fn
    | Some _ => fn
    end in
  let fn :=
    match EphemeralStorage fn with
    | None => set_EphemeralStorage (Some {| types.Size := Some 512%Z |}) fn
    | Some _ => fn
    end in
  let fn :=
    match Timeout fn with None => set_Timeout (Some 3%Z) fn | Some _ => fn end in
  match SnapStart fn with
  | None => set_SnapStart (Some {| types.ApplyOn := types.SnapStartApplyOnNone |}) fn
  | Some _ => fn
  end.

(** The logging configuration after defaulting, field by field. *)
Definition defaultLoggingConfig (resolveLogGroup : Function -> string) (fn : Function)
    : types.LoggingConfig :=
  let fn4 := withLeadingDefaults fn in
  match LoggingConfig fn with
  | None =>
      {| types.ApplicationLogLevel := "";
         types.LogFormat := types.LogFormatText;
         types.LogGroup := Some (resolveLogGroup fn4);
         types.SystemLogLevel := "" |}
  | Some lc =>
      let format :=
        if String.eqb (types.LogFormat lc) "" then types.LogFormatText else types.LogFormat lc in
      {| types.ApplicationLogLevel :=
           if String.eqb (types.ApplicationLogLevel lc) ""
              && String.eqb format types.LogFormatJson
           then types.ApplicationLogLevelInfo else types.ApplicationLogLevel lc;
         types.LogFormat := format;
         types.LogGroup :=
           Some (default (resolveLogGroup
                            (set_LoggingConfig (Some (set_LogFormat format lc)) fn4))
                         (types.LogGroup lc));
         types.SystemLogLevel :=
           if String.eqb (types.SystemLogLevel lc) ""
              && String.eqb format types.LogFormatJson
           then types.SystemLogLevelInfo else types.SystemLogLevel lc |}
  end.

(** ** Sample inputs *)

Definition emptyConfiguration : types.FunctionConfiguration :=
  {| types.c_Architectures := None;
     types.c_CodeSha256 := None;
     types.c_DeadLetterConfig := None;
     types.c_Description := None;
     types.c_Environment := None;
     types.c_EphemeralStorage := None;
     types.c_FileSystemConfigs := None;
     types.c_FunctionName := None;
     types.c_Handler := None;
     types.c_ImageConfigResponse := None;
     types.c_KMSKeyArn := None;
     types.c_LastModified := None;
     types.c_Layers := None;
     types.c_LoggingConfig := None;
     types.c_MemorySize := None;
     types.c_PackageType := "";
     types.c_Role := None;
     types.c_Runtime := "";
     types.c_SnapStart := None;
     types.c_Timeout := None;
     types.c_TracingConfig := None;
     types.c_Version := None;
     types.c_VpcConfig := None |}.

(** A remote configuration named [name] with package type [packageType]
    and code digest [sha]. *)
Definition remoteConfiguration (name packageType sha : string) : types.FunctionConfiguration :=
  {| types.c_Architectures := None;
     types.c_CodeSha256 := Some sha;
     types.c_DeadLetterConfig := None;
     types.c_Description := None;
     types.c_Environment := None;
     types.c_EphemeralStorage := None;
     types.c_FileSystemConfigs := None;
     types.c_FunctionName := Some name;
     types.c_Handler := None;
     types.c_ImageConfigResponse := None;
     types.c_KMSKeyArn := None;
     types.c_LastModified := None;
     types.c_Layers := None;
     types.c_LoggingConfig := None;
     types.c_MemorySize := None;
     types.c_PackageType := packageType;
     types.c_Role := None;
     types.c_Runtime := "";
     types.c_SnapStart := None;
     types.c_Timeout := None;
     types.c_TracingConfig := None;
     types.c_Version := None;
     types.c_VpcConfig := None |}.

Definition sampleImageUri : string :=
  "123456789012.dkr.ecr.us-east-1.amazonaws.com/hello:latest".

(** A code location with an image URI and the given repository type. *)
Definition imageLocation (repositoryType : option string) : types.FunctionCodeLocation :=
  {| types.cl_ImageUri := Some sampleImageUri;
     types.Location := None;
     types.RepositoryType := repositoryType;
     types.ResolvedImageUri := None |}.

(** The code location of an archive in the service's storage. *)
Definition archiveLocation : types.FunctionCodeLocation :=
  {| types.cl_ImageUri := None;
     types.Location := Some "https://awslambda-us-east-1-tasks.s3.amazonaws.com/snapshots/hello";
     types.RepositoryType := Some "S3";
     types.ResolvedImageUri := None |}.

(** A definition named [name] with the given code and package type, and
    nothing else. *)
Definition definitionOf (name : string) (code : option types.FunctionCode)
    (packageType : string) : Function :=
  {| Architectures := None;
     Code := code;
     DeadLetterConfig := None;
     Description := None;
     Environment := None;
     EphemeralStorage := None;
     FileSystemConfigs := None;
     FunctionName := Some name;
     Handler := None;
     ImageConfig := None;
     KMSKeyArn := None;
     Layers := None;
     LoggingConfig := None;
     MemorySize := None;
     PackageType := packageType;
     Role := None;
     Runtime := "";
     SnapStart := None;
     Tags_ := None;
     Timeout := None;
     TracingConfig := None;
     VpcConfig := None |}.

Definition imageCode : types.FunctionCode :=
  {| types.ImageUri := Some sampleImageUri;
     types.S3Bucket := None;
     types.S3Key := None;
     types.S3ObjectVersion := None;
     types.ZipFile := None |}.

(** Every remote call of a run satisfies [P]. *)
Definition callsSatisfy {A} (P : Call -> Prop) (m : M A) : Prop :=
  Forall P (remoteCalls m.1).

(** The call is a fetch of a function. *)
Definition isGetFunction (c : Call) : Prop := exists name, c = GetFunction name.

(** Lower-casing of the ASCII letters, for the sample collaborators. *)
Definition lowerAscii (c : Ascii.ascii) : Ascii.ascii :=
  let n := Ascii.nat_of_ascii c in
  if Nat.leb 65 n && Nat.leb n 90 then Ascii.ascii_of_nat (n + 32) else c.

Fixpoint asciiToLower (s : string) : string :=
  match s with
  | EmptyString => EmptyString
  | String c rest => String (lowerAscii c) (asciiToLower rest)
  end.

(** Collaborators for the sample runs: nothing excluded, the archive of a
    source directory stands for its content, no colors, an empty structural
    diff. *)
Definition sampleCollaborators : Collaborators :=
  {| JSON := string;
     Query := string;
     File := string;
     resolveLogGroup := fun fn => "/aws/lambda/" +:+ aws_ToString (FunctionName fn);
     expandExcludeFile := fun _ => Ok [];
     prepareZipfile := fun src _ => Ok src;
     sha256Base64 := fun zipfile => Ok ("sha256-of-" +:+ zipfile);
     marshalAny := fun _ => "{}";
     gojq_Parse := fun q => Ok q;
     jsondiff_Diff := fun _ _ _ => Ok "";
     strings_ToLower := asciiToLower;
     color_RedString := fun s => s;
     color_GreenString := fun s => s;
     time_Parse := fun _ value =>
       if String.eqb value "" then Err "cannot parse"
       else Ok {| unixNano := Z.of_nat (String.length value); zoneOffset := 0 |};
     vo_JSON := fun vo => String.concat "," (map vo_Version vo);
     vo_TSV := fun vo => String.concat nl (map vo_Version vo);
     vo_Table := fun vo => String.concat " | " (map vo_Version vo) |}.

(** An application whose loader yields [fn], whose service answers
    [GetFunction] with [out] and the two listings with [aliasPages] and
    [versionPages]. *)
Definition sampleApp (fn : Function) (out : GetFunctionOutput)
    (aliasPages : list (Res ListAliasesOutput))
    (versionPages : list (Res ListVersionsByFunctionOutput)) : App :=
  {| Region := "us-east-1";
     AWSAccountID := "123456789012";
     loadFunction := fun _ => Ok fn;
     loadFunctionV2 := fun _ => Ok fn;
     deleteVersions := fun _ _ => ret tt;
     lambda_GetFunction := fun _ => Ok out;
     lambda_ListAliases := fun _ => aliasPages;
     lambda_ListVersionsByFunction := fun _ => versionPages |}.

Definition sampleDiffOption (codeSha256 : bool) : DiffOption :=
  {| do_FunctionFilePath := Some "function.json";
     Src := Some "src";
     Excludes := [];
     CodeSha256 := Some codeSha256;
     ExcludeFile := Some ".lambdaignore";
     Ignore := None |}.

(** The configuration of a response: the remote configuration named
    [name] with the package type [packageType] and the code digest [sha]. *)
Definition fetchedConfiguration (name packageType sha : string)
    : lambda_FunctionConfiguration :=
  {| fc_PackageType := Some packageType;
     fc_Configuration := remoteConfiguration name packageType sha |}.

(** The service's answer for an archive-backed function with digest [sha]. *)
Definition archiveOutput (sha : string) : GetFunctionOutput :=
  {| gf_Code := Some archiveLocation;
     gf_Configuration := Some (fetchedConfiguration "hello" "Zip" sha);
     gf_Tags := None |}.

(** The answer for an image-backed function. *)
Definition imageOutput : GetFunctionOutput :=
  {| gf_Code := Some (imageLocation (Some "ECR"));
     gf_Configuration := Some (fetchedConfiguration "hello" "Image" "digest");
     gf_Tags := None |}.

(** An answer whose configuration has a code digest and no package type. *)
Definition untypedOutput : GetFunctionOutput :=
  {| gf_Code := Some archiveLocation;
     gf_Configuration :=
       Some {| fc_PackageType := None;
               fc_Configuration := remoteConfiguration "hello" "" "digest" |};
     gf_Tags := None |}.

(** The aliases of the pages that the alias loop reads: up to and including
    the first page without a continuation marker. *)
Fixpoint aliasesRead (resps : list (Res ListAliasesOutput)) : list AliasConfiguration :=
  match resps with
  | Ok res :: rest =>
      default [] (la_Aliases res)
      ++ (if la_NextMarker res is Some _ then aliasesRead rest else [])
  | _ => []
  end.

(** The versions of the pages that the version loop reads. *)
Fixpoint versionsRead (resps : list (Res ListVersionsByFunctionOutput))
    : list types.FunctionConfiguration :=
  match resps with
  | Ok res :: rest =>
      default [] (lv_Versions res)
      ++ (if lv_NextMarker res is Some _ then versionsRead rest else [])
  | _ => []
  end.

(** The alias has [v] as its primary version or as a weighted secondary
    version. *)
Definition refersTo (alias : AliasConfiguration) (v : string) : Prop :=
  FunctionVersion alias = Some v
  \/ exists rc weights,
       RoutingConfig alias = Some rc
       /\ AdditionalVersionWeights rc = Some weights
       /\ is_Some (weights !! v).

(** The version identifier of a listed configuration, as the listing reads
    it. *)
Definition versionOf (c : types.FunctionConfiguration) : string :=
  aws_ToString (types.c_Version c).

(** A version other than the mutable head. *)
Definition isPublished (v : string) : bool := negb (String.eqb v versionLatest).

(** The alias names recorded for a version. *)
Definition namesOf (aliases : gmap string (list string)) (v : string) : list string :=
  default [] (aliases !! v).

(** The service's natural order of versions, from the specification:
    ascending, lexicographic on the identifiers padded with zeros to the
    same width. *)
Fixpoint zeros (n : nat) : string :=
  match n with
  | O => EmptyString
  | S n => String (Ascii.ascii_of_nat 48) (zeros n)
  end.

Definition padTo (n : nat) (s : string) : string := zeros (n - String.length s) +:+ s.

Definition versionLeb (a b : string) : bool :=
  let n := Nat.max (String.length a) (String.length b) in
  String.leb (padTo n a) (padTo n b).

Fixpoint sortedVersions (l : list string) : bool :=
  match l with
  | a :: rest =>
      match rest with
      | b :: _ => versionLeb a b && sortedVersions rest
      | [] => true
      end
  | [] => true
  end.

(** A listed version with the given identifier and timestamp. *)
Definition listedVersion (version lastModified : string) : types.FunctionConfiguration :=
  {| types.c_Architectures := None;
     types.c_CodeSha256 := None;
     types.c_DeadLetterConfig := None;
     types.c_Description := None;
     types.c_Environment := None;
     types.c_EphemeralStorage := None;
     types.c_FileSystemConfigs := None;
     types.c_FunctionName := Some "hello";
     types.c_Handler := None;
     types.c_ImageConfigResponse := None;
     types.c_KMSKeyArn := None;
     types.c_LastModified := Some lastModified;
     types.c_Layers := None;
     types.c_LoggingConfig := None;
     types.c_MemorySize := None;
     types.c_PackageType := "Zip";
     types.c_Role := None;
     types.c_Runtime := "provided.al2";
     types.c_SnapStart := None;
     types.c_Timeout := None;
     types.c_TracingConfig := None;
     types.c_Version := Some version;
     types.c_VpcConfig := None |}.

(** An alias [name] with primary version [version] and the given weights. *)
Definition aliasOf (name version : string) (weights : option (gmap string Q))
    : AliasConfiguration :=
  {| AliasArn := None;
     a_Description := None;
     FunctionVersion := Some version;
     Name := Some name;
     RevisionId := None;
     RoutingConfig :=
       match weights with
       | Some w => Some {| AdditionalVersionWeights := Some w |}
       | None => None
       end |}.

Definition versionsPage (marker : option string) (versions : list types.FunctionConfiguration)
    : Res ListVersionsByFunctionOutput :=
  Ok {| lv_NextMarker := marker; lv_Versions := Some versions |}.

Definition aliasesPage (marker : option string) (aliases : list AliasConfiguration)
    : Res ListAliasesOutput :=
  Ok {| la_Aliases := Some aliases; la_NextMarker := marker |}.

(** Two pages of versions, as the service lists them. *)
Definition pagesAscending : list (Res ListVersionsByFunctionOutput) :=
  [ versionsPage (Some "m1")
      [ listedVersion "$LATEST" "2024-01-05T10:00:00.000+0000";
        listedVersion "1" "2024-01-01T10:00:00.000+0000";
        listedVersion "2" "2024-01-02T10:00:00.000+0000" ];
    versionsPage None
      [ listedVersion "3" "2024-01-03T10:00:00.000+0000";
        listedVersion "10" "2024-01-04T10:00:00.000+0000" ] ].

(** A page that lists version 2 before version 1. *)
Definition pagesDescending : list (Res ListVersionsByFunctionOutput) :=
  [ versionsPage None
      [ listedVersion "2" "2024-01-02T10:00:00.000+0000";
        listedVersion "1" "2024-01-01T10:00:00.000+0000" ] ].

(** The alias [current] on version 3, shifting traffic to versions 1 and 2;
    the alias [stable] on version 1, on a second page. *)
Definition pagesAliases : list (Res ListAliasesOutput) :=
  [ aliasesPage (Some "m1")
      [ aliasOf "current" "3" (Some (<["1" := (1 # 10)%Q]> (<["2" := (2 # 10)%Q]> ∅))) ];
    aliasesPage None [ aliasOf "stable" "1" None ] ].

Definition sampleVersionsApp (aliasPages : list (Res ListAliasesOutput))
    (versionPages : list (Res ListVersionsByFunctionOutput)) : App :=
  sampleApp (definitionOf "hello" None "Zip") (archiveOutput "digest") aliasPages versionPages.

(** A listed version that gets a record is well formed: the identifier is
    present and the timestamp is present and parses. *)
Definition wellFormedVersion (X : Collaborators) (c : types.FunctionConfiguration) : Prop :=
  isPublished (versionOf c) = true ->
  is_Some (types.c_Version c)
  /\ exists lastModified lm,
       types.c_LastModified c = Some lastModified
       /\ time_Parse X lastModifiedLayout lastModified = Ok lm.

Definition sampleVersionsOption (output : string) : VersionsOption :=
  {| vo_FunctionFilePath := Some "function.json";
     Output := Some output;
     Delete := Some false;
     KeepVersions := None |}.


(** ** Normalized definitions *)

(** [p != nil] *)
Definition present {A} (p : option A) : bool :=
  match p with
  | Some _ => true
  | None => false
  end.

(** A logging configuration that [fillDefaultValues] has nothing to add to. *)
Definition loggingNormalized (lc : types.LoggingConfig) : bool :=
  negb (String.eqb (types.LogFormat lc) "")
  && present (types.LogGroup lc)
  && negb (String.eqb (types.ApplicationLogLevel lc) ""
           && String.eqb (types.LogFormat lc) types.LogFormatJson)
  && negb (String.eqb (types.SystemLogLevel lc) ""
           && String.eqb (types.LogFormat lc) types.LogFormatJson).

(** A definition in which every field that [fillDefaultValues] tests is
    present. *)
Definition isNormalized (fn : Function) : bool :=
  negb (Nat.eqb (len (Architectures fn)) 0)
  && present (Description fn)
  && present (MemorySize fn)
  && present (Layers fn)
  && match LoggingConfig fn with
     | Some lc => loggingNormalized lc
     | None => false
     end
  && present (TracingConfig fn)
  && present (EphemeralStorage fn)
  && present (Timeout fn)
  && present (SnapStart fn).

(** The sample definition with an explicit log group. *)
Definition definitionWithLogGroup (group : string) : Function :=
  set_LoggingConfig
    (Some {| types.ApplicationLogLevel := "";
             types.LogFormat := "";
             types.LogGroup := Some group;
             types.SystemLogLevel := "" |})
    (definitionOf "hello" None "Zip").


(** ** The reconstruction in closed form *)

(** The remote VPC configuration has no VPC id to dereference. *)
Definition vpcIdMissing (c : types.FunctionConfiguration) : bool :=
  match types.c_VpcConfig c with
  | Some v => negb (present (types.VpcId v))
  | None => false
  end.

(** The code location is in the image registry and has no image URI to
    dereference. *)
Definition imageUriMissing (code : option types.FunctionCodeLocation) : bool :=
  codeIsECR code && negb (locationHasImageUri code).

(** The definition that [newFunctionFrom] builds from a configuration whose
    layers have the ARNs [arns], when no dereference fails. *)
Definition reconstruction (c : types.FunctionConfiguration)
    (code : option types.FunctionCodeLocation) (tags : Tags) (arns : list string) : Function :=
  {| Architectures := types.c_Architectures c;
     Code :=
       if codeIsECR code
       then Some {| types.ImageUri := code ≫= types.cl_ImageUri;
                    types.S3Bucket := None;
                    types.S3Key := None;
                    types.S3ObjectVersion := None;
                    types.ZipFile := None |}
       else None;
     DeadLetterConfig := types.c_DeadLetterConfig c;
     Description := types.c_Description c;
     Environment :=
       (fun e => {| types.Variables := types.er_Variables e |}) <$> types.c_Environment c;
     EphemeralStorage := types.c_EphemeralStorage c;
     FileSystemConfigs := types.c_FileSystemConfigs c;
     FunctionName := types.c_FunctionName c;
     Handler := types.c_Handler c;
     ImageConfig :=
       (fun ic => {| types.Command := types.Command ic;
                     types.EntryPoint := types.EntryPoint ic;
                     types.WorkingDirectory := types.WorkingDirectory ic |})
       <$> (types.c_ImageConfigResponse c ≫= types.icr_ImageConfig);
     KMSKeyArn := types.c_KMSKeyArn c;
     Layers := if arns is [] then None else Some arns;
     LoggingConfig := types.c_LoggingConfig c;
     MemorySize := types.c_MemorySize c;
     PackageType := if codeIsECR code then types.PackageTypeImage else "";
     Role := types.c_Role c;
     Runtime := types.c_Runtime c;
     SnapStart := (fun s => {| types.ApplyOn := types.ssr_ApplyOn s |}) <$> types.c_SnapStart c;
     Tags_ := tags;
     Timeout := types.c_Timeout c;
     TracingConfig :=
       (fun t => {| types.Mode := types.tcr_Mode t |}) <$> types.c_TracingConfig c;
     VpcConfig :=
       types.c_VpcConfig c ≫= fun v =>
         if String.eqb (aws_ToString (types.VpcId v)) "" then None
         else Some {| types.Ipv6AllowedForDualStack := types.vr_Ipv6AllowedForDualStack v;
                      types.SecurityGroupIds := types.vr_SecurityGroupIds v;
                      types.SubnetIds := types.vr_SubnetIds v |} |}.

(** A remote configuration with two layers, in a VPC or not according to
    [vpcId]. *)
Definition layeredConfiguration (vpcId : option string) : types.FunctionConfiguration :=
  {| types.c_Architectures := Some ["arm64"];
     types.c_CodeSha256 := Some "digest";
     types.c_DeadLetterConfig := None;
     types.c_Description := Some "sample";
     types.c_Environment :=
       Some {| types.er_Error := None; types.er_Variables := Some {["KEY" := "value"]} |};
     types.c_EphemeralStorage := None;
     types.c_FileSystemConfigs := None;
     types.c_FunctionName := Some "hello";
     types.c_Handler := Some "index.handler";
     types.c_ImageConfigResponse := None;
     types.c_KMSKeyArn := None;
     types.c_LastModified := None;
     types.c_Layers :=
       Some [ {| types.Arn := Some "arn:aws:lambda:us-east-1:123456789012:layer:a:1";
                 types.CodeSize := 10;
                 types.SigningJobArn := None;
                 types.SigningProfileVersionArn := None |};
              {| types.Arn := Some "arn:aws:lambda:us-east-1:123456789012:layer:b:2";
                 types.CodeSize := 20;
                 types.SigningJobArn := None;
                 types.SigningProfileVersionArn := None |} ];
     types.c_LoggingConfig := None;
     types.c_MemorySize := Some 256%Z;
     types.c_PackageType := "Zip";
     types.c_Role := Some "arn:aws:iam::123456789012:role/hello";
     types.c_Runtime := "provided.al2";
     types.c_SnapStart :=
       Some {| types.ssr_ApplyOn := "None"; types.OptimizationStatus := "Off" |};
     types.c_Timeout := Some 30%Z;
     types.c_TracingConfig := Some {| types.tcr_Mode := "Active" |};
     types.c_Version := Some "$LATEST";
     types.c_VpcConfig :=
       Some {| types.vr_Ipv6AllowedForDualStack := Some false;
               types.vr_SecurityGroupIds := Some ["sg-1"];
               types.vr_SubnetIds := Some ["subnet-1"; "subnet-2"];
               types.VpcId := vpcId |} |}.


(** ** Sample collaborators and applications with failures *)

(** The sample collaborators with the given answers of the exclude-file
    reader, the ignore-query parser and the structural diff. *)
Definition collaboratorsWith (expand : string -> Res (list string))
    (parse : string -> Res string) (diff : Res string) : Collaborators :=
  {| JSON := string;
     Query := string;
     File := string;
     resolveLogGroup := fun fn => "/aws/lambda/" +:+ aws_ToString (FunctionName fn);
     expandExcludeFile := expand;
     prepareZipfile := fun src _ => Ok src;
     sha256Base64 := fun zipfile => Ok ("sha256-of-" +:+ zipfile);
     marshalAny := fun _ => "{}";
     gojq_Parse := parse;
     jsondiff_Diff := fun _ _ _ => diff;
     strings_ToLower := asciiToLower;
     color_RedString := fun s => "<red>" +:+ s +:+ "</red>";
     color_GreenString := fun s => "<green>" +:+ s +:+ "</green>";
     time_Parse := fun _ value =>
       if String.eqb value "" then Err "cannot parse"
       else Ok {| unixNano := Z.of_nat (String.length value); zoneOffset := 0 |};
     vo_JSON := fun vo => String.concat "," (map vo_Version vo);
     vo_TSV := fun vo => String.concat nl (map vo_Version vo);
     vo_Table := fun vo => String.concat " | " (map vo_Version vo) |}.

(** An application with the given answers of the loader and of
    [GetFunction]. *)
Definition appWith (load : Res Function) (fetch : Res GetFunctionOutput) : App :=
  {| Region := "us-east-1";
     AWSAccountID := "123456789012";
     loadFunction := fun _ => load;
     loadFunctionV2 := fun _ => load;
     deleteVersions := fun _ _ => ret tt;
     lambda_GetFunction := fun _ => fetch;
     lambda_ListAliases := fun _ => [];
     lambda_ListVersionsByFunction := fun _ => [] |}.

(** A definition without a name. *)
Definition namelessDefinition : Function :=
  {| Architectures := None;
     Code := None;
     DeadLetterConfig := None;
     Description := None;
     Environment := None;
     EphemeralStorage := None;
     FileSystemConfigs := None;
     FunctionName := None;
     Handler := None;
     ImageConfig := None;
     KMSKeyArn := None;
     Layers := None;
     LoggingConfig := None;
     MemorySize := None;
     PackageType := "";
     Role := None;
     Runtime := "";
     SnapStart := None;
     Tags_ := None;
     Timeout := None;
     TracingConfig := None;
     VpcConfig := None |}.


(** The coloring of one line of a diff by [coloredDiff]. *)
Definition colorLine (X : Collaborators) (line : string) : string :=
  if String.prefix "-" line then color_RedString X line
  else if String.prefix "+" line then color_GreenString X line
  else line.


(** ** Pagination and rendering of the versions listing *)

(** The continuation markers of the alias pages that the loop reads and
    follows. *)
Fixpoint aliasMarkers (resps : list (Res ListAliasesOutput)) : list (option string) :=
  match resps with
  | Ok res :: rest =>
      match la_NextMarker res with
      | Some marker => Some marker :: aliasMarkers rest
      | None => []
      end
  | _ => []
  end.

(** The same for the version pages. *)
Fixpoint versionMarkers (resps : list (Res ListVersionsByFunctionOutput))
    : list (option string) :=
  match resps with
  | Ok res :: rest =>
      match lv_NextMarker res with
      | Some marker => Some marker :: versionMarkers rest
      | None => []
      end
  | _ => []
  end.

(** What [Versions] prints for the records [vo] in the format [output], if
    anything. *)
Definition rendered (X : Collaborators) (output : string) (vo : versionsOutputs)
    : option string :=
  if String.eqb output "json" then Some (vo_JSON X vo +:+ nl)
  else if String.eqb output "tsv" then Some (vo_TSV X vo)
  else if String.eqb output "table" then Some (vo_Table X vo)
  else None.

(** Every run of the partial run [o] has its remote calls in [P]. *)
Definition runsSatisfy {A} (P : Call -> Prop) (o : option (M A)) : Prop :=
  forall tr r, o = Some (tr, r) -> Forall P (remoteCalls tr).

(** The record and the listed version it was built from. *)
Definition recordOf (X : Collaborators) (r : versionsOutput)
    (c : types.FunctionConfiguration) : Prop :=
  types.c_Version c = Some (vo_Version r)
  /\ vo_Runtime r = types.c_Runtime c
  /\ exists lastModified,
       types.c_LastModified c = Some lastModified
       /\ time_Parse X lastModifiedLayout lastModified = Ok (vo_LastModified r).

(** Alias pages whose second response is a failure. *)
Definition pagesAliasesFailing : list (Res ListAliasesOutput) :=
  [ aliasesPage (Some "m1") [ aliasOf "current" "3" None ];
    Err "TooManyRequestsException" ].

(** Version pages with a timestamp that does not parse. *)
Definition pagesBadTimestamp : list (Res ListVersionsByFunctionOutput) :=
  [ versionsPage None
      [ listedVersion "1" "2024-01-01T10:00:00.000+0000";
        listedVersion "2" "";
        listedVersion "3" "2024-01-03T10:00:00.000+0000" ] ].

(** The alias [current] on version 3 that also shifts traffic to version 3
    itself. *)
Definition pagesAliasTwice : list (Res ListAliasesOutput) :=
  [ aliasesPage None [ aliasOf "current" "3" (Some (<["3" := (1 # 10)%Q]> ∅)) ] ].

(** The lists stored in the alias map are never empty. *)
Definition noEmptyEntry (aliases : gmap string (list string)) : Prop :=
  forall v, aliases !! v <> Some [].

(** The weighted secondary versions of an alias. *)
Definition weightsOf (alias : AliasConfiguration) : gmap string Q :=
  match RoutingConfig alias with
  | Some rc => default ∅ (AdditionalVersionWeights rc)
  | None => ∅
  end.

(** What one alias adds to the names of the version [v]: its name once when
    [v] is its primary version, and once when [v] is one of its weighted
    versions. *)
Definition namesFor (alias : AliasConfiguration) (v : string) : list string :=
  match FunctionVersion alias, Name alias with
  | Some primary, Some name =>
      (if decide (primary = v) then [name] else [])
      ++ (if decide (is_Some (weightsOf alias !! v)) then [name] else [])
  | _, _ => []
  end.


(** ** Environment files *)

(** The environment of the process. *)
Definition Environ : Type := gmap string string.

(** What [exportEnvFile] calls: [os.Open], which gives the file or fails;
    [envparse.Parse] on the file, which gives the variables or fails; and
    whether [os.Setenv] accepts a key and a value. *)
Record EnvLibrary := {
  os_Open : string -> Res string;
  envparse_Parse : string -> Res (gmap string string);
  os_Setenv_accepts : string -> string -> bool
}.

(** [os.Setenv(key, value)] with its error discarded, as the caller does: a
    pair that is not accepted leaves the environment as it is. *)
Definition os_Setenv (L : EnvLibrary) (key value : string) (env : Environ) : Environ :=
  if os_Setenv_accepts L key value then <[key := value]> env else env.

(** [for key, value := range envs { os.Setenv(key, value) }], the variables
    visited in the order of [map_to_list]. *)
Definition setenvAll (L : EnvLibrary) (envs : gmap string string) (env : Environ) : Environ :=
  foldl (fun acc kv => os_Setenv L kv.1 kv.2 acc) env (map_to_list envs).

(** [func exportEnvFile(file string) error]: the environment after the
    call, and the outcome. *)
Definition exportEnvFile (L : EnvLibrary) (file : string) (env : Environ)
    : Environ * Res unit :=
  if String.eqb file "" then (env, Ok tt)
  else
    match os_Open L file with
    | Ok f =>
        match envparse_Parse L f with
        | Ok envs => (setenvAll L envs env, Ok tt)
        | Err e => (env, Err e)
        | Panic => (env, Panic)
        end
    | Err e => (env, Err e)
    | Panic => (env, Panic)
    end.

(** The loop at the start of [New]:
    [for _, envfile := range opt.Envfile { if err := exportEnvFile(envfile); err != nil { return nil, err } }]. *)
Fixpoint exportEnvFiles (L : EnvLibrary) (files : list string) (env : Environ)
    : Environ * Res unit :=
  match files with
  | [] => (env, Ok tt)
  | file :: rest =>
      match exportEnvFile L file env with
      | (env', Ok _) => exportEnvFiles L rest env'
      | (env', Err e) => (env', Err e)
      | (env', Panic) => (env', Panic)
      end
  end.

(** The value that the environment file [file] gives to the variable
    [key], if it has one that [os.Setenv] accepts. *)
Definition definedIn (L : EnvLibrary) (file key : string) : option string :=
  if String.eqb file "" then None
  else
    match os_Open L file with
    | Ok f =>
        match envparse_Parse L f with
        | Ok envs =>
            match envs !! key with
            | Some value => if os_Setenv_accepts L key value then Some value else None
            | None => None
            end
        | _ => None
        end
    | _ => None
    end.

(** The file can be exported: it is the empty path, or it opens and parses. *)
Definition exportable (L : EnvLibrary) (file : string) : Prop :=
  file = "" \/ exists f envs, os_Open L file = Ok f /\ envparse_Parse L f = Ok envs.

(** The file cannot be exported, with the error [e]. *)
Definition failsWith (L : EnvLibrary) (file : string) (e : error) : Prop :=
  file <> ""
  /\ (os_Open L file = Err e
      \/ exists f, os_Open L file = Ok f /\ envparse_Parse L f = Err e).

(** A file system with two environment files and one file that does not
    parse; [os.Setenv] refuses the empty key. *)
Definition sampleEnvLibrary : EnvLibrary :=
  {| os_Open := fun file =>
       if String.eqb file "base.env" then Ok "base"
       else if String.eqb file "local.env" then Ok "local"
       else if String.eqb file "broken.env" then Ok "broken"
       else Err "open: no such file or directory";
     envparse_Parse := fun f =>
       if String.eqb f "base" then
         Ok (<["STAGE" := "dev"]> (<["REGION" := "us-east-1"]> (<["" := "x"]> ∅)))
       else if String.eqb f "local" then Ok (<["STAGE" := "local"]> ∅)
       else Err "parse error";
     os_Setenv_accepts := fun key _ => negb (String.eqb key "") |}.

Definition sampleEnviron : Environ := <["HOME" := "/root"]> (<["STAGE" := "prod"]> ∅).


(** * Properties *)

(** ** Reconstruction and normalization *)

Lemma fillLoggingConfig_set (r : Function -> string) (fn : Function) :
  withLeadingDefaults fn = fn ->
  fillLoggingConfig r fn = set_LoggingConfig (Some (defaultLoggingConfig r fn)) fn.
Proof.
  intros Hfix. unfold fillLoggingConfig, defaultLoggingConfig. rewrite Hfix.
  destruct fn as [ar co dl de en ep fs na ha ic km la lo me pt ro ru sn ta ti tr vp].
  cbn. destruct lo as [[app fmt grp sys]|]; [|reflexivity].
  cbn.
  destruct (String.eqb fmt "") eqn:Hf; destruct grp as [g|];
    destruct (String.eqb app "") eqn:Ha; destruct (String.eqb sys "") eqn:Hs;
    destruct (String.eqb fmt types.LogFormatJson) eqn:Hj;
    cbn; rewrite ?Hf, ?Ha, ?Hs, ?Hj; cbn; rewrite ?Hf, ?Ha, ?Hs, ?Hj; cbn;
    reflexivity.
Qed.

Lemma fillDefaults_phases (r : Function -> string) (fn : Function) :
  fillDefaults r fn = fillTrailing (fillLoggingConfig r (fillLeading fn)).
Proof. reflexivity. Qed.

Lemma fillLeading_eq (fn : Function) : fillLeading fn = withLeadingDefaults fn.
Proof.
  destruct fn as [ar co dl de en ep fs na ha ic km la lo me pt ro ru sn ta ti tr vp].
  destruct ar as [[|a ar]|], de, me, la; reflexivity.
Qed.

Lemma withLeadingDefaults_idem (fn : Function) :
  withLeadingDefaults (withLeadingDefaults fn) = withLeadingDefaults fn.
Proof.
  destruct fn as [ar co dl de en ep fs na ha ic km la lo me pt ro ru sn ta ti tr vp].
  destruct ar as [[|a ar]|], de, me, la; reflexivity.
Qed.

Lemma defaultLoggingConfig_leading (r : Function -> string) (fn : Function) :
  defaultLoggingConfig r (withLeadingDefaults fn) = defaultLoggingConfig r fn.
Proof.
  unfold defaultLoggingConfig. rewrite withLeadingDefaults_idem.
  destruct fn as [ar co dl de en ep fs na ha ic km la lo me pt ro ru sn ta ti tr vp].
  reflexivity.
Qed.

Lemma fillTrailing_eq (fn : Function) :
  fillTrailing fn =
  set_SnapStart (Some (default {| types.ApplyOn := types.SnapStartApplyOnNone |} (SnapStart fn)))
    (set_Timeout (Some (default 3%Z (Timeout fn)))
      (set_EphemeralStorage
         (Some (default {| types.Size := Some 512%Z |} (EphemeralStorage fn)))
         (set_TracingConfig
            (Some (default {| types.Mode := types.TracingModePassThrough |}
                           (TracingConfig fn))) fn))).
Proof.
  destruct fn as [ar co dl de en ep fs na ha ic km la lo me pt ro ru sn ta ti tr vp].
  destruct tr, ep, ti, sn; reflexivity.
Qed.

(** The normalized definition, field by field. *)
Lemma fillDefaults_fields (r : Function -> string) (fn : Function) :
  fillDefaults r fn =
  {| Architectures := defaultArchitectures (Architectures fn);
     Code := Code fn;
     DeadLetterConfig := DeadLetterConfig fn;
     Description := Some (default "" (Description fn));
     Environment := Environment fn;
     EphemeralStorage :=
       Some (default {| types.Size := Some 512%Z |} (EphemeralStorage fn));
     FileSystemConfigs := FileSystemConfigs fn;
     FunctionName := FunctionName fn;
     Handler := Handler fn;
     ImageConfig := ImageConfig fn;
     KMSKeyArn := KMSKeyArn fn;
     Layers := Some (default [] (Layers fn));
     LoggingConfig := Some (defaultLoggingConfig r fn);
     MemorySize := Some (default 128%Z (MemorySize fn));
     PackageType := PackageType fn;
     Role := Role fn;
     Runtime := Runtime fn;
     SnapStart :=
       Some (default {| types.ApplyOn := types.SnapStartApplyOnNone |} (SnapStart fn));
     Tags_ := Tags_ fn;
     Timeout := Some (default 3%Z (Timeout fn));
     TracingConfig :=
       Some (default {| types.Mode := types.TracingModePassThrough |} (TracingConfig fn));
     VpcConfig := VpcConfig fn |}.
Proof.
  rewrite fillDefaults_phases, fillLeading_eq, fillTrailing_eq.
  rewrite fillLoggingConfig_set by apply withLeadingDefaults_idem.
  rewrite defaultLoggingConfig_leading.
  destruct fn as [ar co dl de en ep fs na ha ic km la lo me pt ro ru sn ta ti tr vp].
  reflexivity.
Qed.

Lemma defaultArchitectures_idem (ar : slice string) :
  defaultArchitectures (defaultArchitectures ar) = defaultArchitectures ar.
Proof. destruct ar as [[|a ar]|]; reflexivity. Qed.

Lemma fillDefaults_idem (r : Function -> string) (fn : Function) :
  fillDefaults r (fillDefaults r fn) = fillDefaults r fn.
Proof.
  rewrite (fillDefaults_fields r (fillDefaults r fn)).
  rewrite !(fillDefaults_fields r fn).
  destruct fn as [ar co dl de en ep fs na ha ic km la lo me pt ro ru sn ta ti tr vp].
  cbn -[defaultLoggingConfig defaultArchitectures].
  rewrite defaultArchitectures_idem.
  f_equal. f_equal.
  unfold defaultLoggingConfig at 1.
  cbn -[defaultLoggingConfig defaultArchitectures withLeadingDefaults].
  unfold defaultLoggingConfig.
  cbn -[withLeadingDefaults].
  destruct lo as [[app fmt grp sys]|]; [|reflexivity].
  unfold types.LogFormatText, types.LogFormatJson, types.ApplicationLogLevelInfo,
    types.SystemLogLevelInfo.
  cbn -[withLeadingDefaults String.eqb].
  destruct (String.eqb fmt "") eqn:Hf;
    destruct (String.eqb app "") eqn:Ha; destruct (String.eqb sys "") eqn:Hs;
    destruct (String.eqb fmt "JSON") eqn:Hj;
    cbn -[withLeadingDefaults]; rewrite ?Hf, ?Ha, ?Hs, ?Hj;
    cbn -[withLeadingDefaults]; rewrite ?Hf, ?Ha, ?Hs, ?Hj; reflexivity.
Qed.

(** C2. Normalization is idempotent: filling the defaults of a definition
    whose defaults are already filled changes nothing, for every definition
    and for the nil pointer. *)
Theorem fillDefaultValues_idempotent (r : Function -> string) (fn : option Function) :
  fillDefaultValues r (fillDefaultValues r fn) = fillDefaultValues r fn.
Proof.
  destruct fn as [fn|]; [|reflexivity].
  cbn. f_equal. apply fillDefaults_idem.
Qed.

(** C4. Normalization fills the documented default of each absent optional
    field and leaves every present field as it is: an empty architecture
    list becomes the single default architecture; an absent description the
    empty string; absent memory 128; a nil layer list the empty list; an
    absent logging configuration gets the text format and the computed log
    group, with no log levels; in a present logging configuration an empty
    format becomes text, an absent log group the computed one, and an empty
    application or system log level becomes info only when the format is
    JSON; an absent tracing configuration becomes pass-through; absent
    ephemeral storage 512; an absent timeout 3; an absent snapshot-start
    policy the policy None; all other fields are untouched. *)
Theorem fillDefaults_documented_defaults (r : Function -> string) (fn : Function) :
  let fn' := fillDefaults r fn in
  Architectures fn' =
    (if Nat.eqb (len (Architectures fn)) 0
     then Some [types.ArchitectureX8664] else Architectures fn)
  /\ Description fn' = Some (default "" (Description fn))
  /\ MemorySize fn' = Some (default 128%Z (MemorySize fn))
  /\ Layers fn' = Some (default [] (Layers fn))
  /\ match LoggingConfig fn, LoggingConfig fn' with
     | None, Some lc' =>
         types.LogFormat lc' = types.LogFormatText
         /\ types.LogGroup lc' = Some (r (withLeadingDefaults fn))
         /\ types.ApplicationLogLevel lc' = ""
         /\ types.SystemLogLevel lc' = ""
     | Some lc, Some lc' =>
         types.LogFormat lc' =
           (if String.eqb (types.LogFormat lc) ""
            then types.LogFormatText else types.LogFormat lc)
         /\ types.LogGroup lc' =
              Some (default
                      (r (set_LoggingConfig
                            (Some (set_LogFormat (types.LogFormat lc') lc))
                            (withLeadingDefaults fn)))
                      (types.LogGroup lc))
         /\ types.ApplicationLogLevel lc' =
              (if String.eqb (types.ApplicationLogLevel lc) ""
                  && String.eqb (types.LogFormat lc') types.LogFormatJson
               then types.ApplicationLogLevelInfo else types.ApplicationLogLevel lc)
         /\ types.SystemLogLevel lc' =
              (if String.eqb (types.SystemLogLevel lc) ""
                  && String.eqb (types.LogFormat lc') types.LogFormatJson
               then types.SystemLogLevelInfo else types.SystemLogLevel lc)
     | _, None => False
     end
  /\ TracingConfig fn' =
       Some (default {| types.Mode := types.TracingModePassThrough |} (TracingConfig fn))
  /\ EphemeralStorage fn' =
       Some (default {| types.Size := Some 512%Z |} (EphemeralStorage fn))
  /\ Timeout fn' = Some (default 3%Z (Timeout fn))
  /\ SnapStart fn' =
       Some (default {| types.ApplyOn := types.SnapStartApplyOnNone |} (SnapStart fn))
  /\ Code fn' = Code fn
  /\ DeadLetterConfig fn' = DeadLetterConfig fn
  /\ Environment fn' = Environment fn
  /\ FileSystemConfigs fn' = FileSystemConfigs fn
  /\ FunctionName fn' = FunctionName fn
  /\ Handler fn' = Handler fn
  /\ ImageConfig fn' = ImageConfig fn
  /\ KMSKeyArn fn' = KMSKeyArn fn
  /\ PackageType fn' = PackageType fn
  /\ Role fn' = Role fn
  /\ Runtime fn' = Runtime fn
  /\ Tags_ fn' = Tags_ fn
  /\ VpcConfig fn' = VpcConfig fn.
Proof.
  cbv zeta. rewrite fillDefaults_fields.
  cbn -[defaultLoggingConfig withLeadingDefaults].
  repeat split.
  unfold defaultLoggingConfig.
  destruct (LoggingConfig fn) as [lc|]; cbn -[withLeadingDefaults]; repeat split.
Qed.

(** C10. The reconstruction and the normalization tolerate an absent input:
    for every code location and tag set [newFunctionFrom] returns nil for a
    nil configuration, and [fillDefaultValues] on a nil definition returns
    with nothing modified and no failure. *)
Theorem nil_input_tolerated (r : Function -> string)
    (code : option types.FunctionCodeLocation) (tags : Tags) :
  newFunctionFrom None code tags = Ok None
  /\ fillDefaultValues r None = None.
Proof. split; reflexivity. Qed.

(** Which code type a reconstruction gets is decided by the repository type
    of the code location alone. *)
Lemma newFunctionFrom_code_type (c : types.FunctionConfiguration)
    (code : option types.FunctionCodeLocation) (tags : Tags) (fn : Function) :
  newFunctionFrom (Some c) code tags = Ok (Some fn) ->
  if codeIsECR code
  then PackageType fn = types.PackageTypeImage
       /\ exists cl uri, code = Some cl /\ types.cl_ImageUri cl = Some uri
            /\ option_map types.ImageUri (Code fn) = Some (Some uri)
  else PackageType fn = "" /\ Code fn = None.
Proof.
  unfold newFunctionFrom.
  destruct (appendLayerArns _ _) as [layers| |]; cbn; try discriminate.
  destruct (types.c_Environment c), (types.c_ImageConfigResponse c) as [[? [?|]]|],
    (types.c_TracingConfig c), (types.c_VpcConfig c) as [[? ? ? [vpcId|]]|];
    cbn; try discriminate;
    try (destruct (String.eqb vpcId ""); cbn);
    (destruct (codeIsECR code) eqn:Hecr; cbn;
     [ destruct code as [[[uri|] ? ? ?]|]; cbn; try discriminate;
       intros [= <-]; cbn; eauto 10
     | intros [= <-]; cbn; auto ]).
Qed.

(** C3. Reconstruction of a definition from a remote configuration that
    declares the package type Image, with a code location that carries an
    image URI and no ECR repository type: the result is not marked Image and
    has no code reference. The declared package type of the configuration is
    never read: the test reads the package type of the definition under
    construction, which is still empty. *)
Theorem newFunctionFrom_ignores_declared_package_type :
  types.c_PackageType (remoteConfiguration "hello" "Image" "digest") = types.PackageTypeImage
  /\ exists fn,
       newFunctionFrom (Some (remoteConfiguration "hello" "Image" "digest"))
                       (Some (imageLocation None)) None = Ok (Some fn)
       /\ PackageType fn = ""
       /\ Code fn = None.
Proof. split; [reflexivity|]. eexists. repeat split. Qed.

(** ** Update validation *)

Lemma validateUpdateFunction_cases (conf : types.FunctionConfiguration)
    (code : option types.FunctionCodeLocation) (fn : Function) :
  validateUpdateFunction (Some conf) code (Some fn) =
  if (locationHasImageUri code && codeHasImageUri (Code fn))
     || (negb (locationHasImageUri code)
         && negb (String.eqb (types.c_PackageType conf) types.PackageTypeImage)
         && negb (codeHasImageUri (Code fn))
         && negb (String.eqb (PackageType fn) packageTypeImage))
  then Ok tt else Err errCannotUpdateImageAndZip.
Proof.
  unfold validateUpdateFunction. cbn.
  destruct (locationHasImageUri code), (codeHasImageUri (Code fn)),
    (String.eqb (types.c_PackageType conf) types.PackageTypeImage),
    (String.eqb (PackageType fn) packageTypeImage); reflexivity.
Qed.

(** ** Runs *)

Lemma callsSatisfy_bind {A B} (P : Call -> Prop) (m : M A) (k : A -> M B) :
  callsSatisfy P m -> (forall a, callsSatisfy P (k a)) -> callsSatisfy P (bind m k).
Proof.
  unfold callsSatisfy. destruct m as [tr [a| |]]; cbn; intros Hm Hk; auto.
  specialize (Hk a). destruct (k a) as [tr' r]. cbn in *.
  unfold remoteCalls in *. rewrite omap_app. apply Forall_app. auto.
Qed.

Lemma callsSatisfy_lift {A} (P : Call -> Prop) (r : Res A) : callsSatisfy P (lift r).
Proof. constructor. Qed.

Lemma callsSatisfy_ret {A} (P : Call -> Prop) (a : A) : callsSatisfy P (ret a).
Proof. constructor. Qed.

Lemma callsSatisfy_stdout (P : Call -> Prop) (s : string) : callsSatisfy P (emit (Stdout s)).
Proof. constructor. Qed.

Lemma callsSatisfy_call {A} (P : Call -> Prop) (c : Call) (r : Res A) :
  P c -> callsSatisfy P (call c r).
Proof. intros H. repeat constructor. exact H. Qed.

Lemma callsSatisfy_lines (P : Call -> Prop) (lines : list string) :
  callsSatisfy P (foldr (fun line k => emit (Stdout line) ;;; k) (ret tt) lines).
Proof.
  induction lines as [|line lines IH]; cbn [foldr].
  - apply callsSatisfy_ret.
  - apply callsSatisfy_bind; [apply callsSatisfy_stdout | intros _; exact IH].
Qed.

Create HintDb runs.
#[local] Hint Resolve callsSatisfy_lift callsSatisfy_ret callsSatisfy_stdout
  callsSatisfy_lines : runs.

Ltac run_steps :=
  repeat (apply callsSatisfy_bind; [auto with runs | intros ?]); auto with runs.

(** The only call of the structural diff is the fetch of the function. *)
Lemma diffDefinitions_calls (X : Collaborators) (app : App) (opt : DiffOption) :
  callsSatisfy isGetFunction (diffDefinitions X app opt).
Proof.
  unfold diffDefinitions, fmt_Print. run_steps.
  apply callsSatisfy_call. eexists; reflexivity.
Qed.

Lemma diffCodeSha256_calls (X : Collaborators) (app : App) (opt : DiffOption)
    (excludes : list string) (name packageType sha : string) :
  callsSatisfy isGetFunction (diffCodeSha256 X app opt excludes name packageType sha).
Proof.
  unfold diffCodeSha256.
  destruct (default false (CodeSha256 opt)); auto with runs.
  destruct (negb _); auto with runs.
  run_steps. destruct (negb _); auto with runs.
Qed.

Lemma Diff_calls (X : Collaborators) (app : App) (opt : DiffOption) :
  callsSatisfy isGetFunction (Diff X app opt).
Proof.
  unfold Diff. apply callsSatisfy_bind; [apply diffDefinitions_calls | intros vars].
  apply callsSatisfy_bind; [auto with runs | intros _]. apply diffCodeSha256_calls.
Qed.

Lemma isGetFunction_isRead (c : Call) : isGetFunction c -> isRead c = true.
Proof. intros [name ->]. reflexivity. Qed.

(** The end of [Diff] once the structural diff is printed. *)
Lemma Diff_after_definitions (X : Collaborators) (app : App) (opt : DiffOption)
    (tr : list Event) (vars : DiffVars) :
  diffDefinitions X app opt = (tr, Ok vars) ->
  Diff X app opt =
  match validateUpdateFunction (dv_latest vars) (dv_code vars) (Some (dv_newFunc vars)) with
  | Ok _ =>
      let (tr', r) :=
        diffCodeSha256 X app opt (dv_Excludes vars) (dv_name vars) (dv_packageType vars)
          (dv_currentCodeSha256 vars) in
      (tr ++ tr', r)
  | Err e => (tr, Err e)
  | Panic => (tr, Panic)
  end.
Proof.
  intros H. unfold Diff. rewrite H. cbn.
  destruct (validateUpdateFunction _ _ _) as [[]| |]; cbn;
    rewrite ?app_nil_r; try reflexivity.
  destruct (diffCodeSha256 _ _ _ _ _ _ _). reflexivity.
Qed.

(** C9. [Diff] never mutates remote state: on every input, every remote
    call of the run is a read, namely the fetch of the function
    (configuration, code location and tags); no create, update, publish,
    alias or delete call is issued, however the run ends. *)
Theorem Diff_never_mutates (X : Collaborators) (app : App) (opt : DiffOption) :
  Forall (fun c => isRead c = true /\ exists name, c = GetFunction name)
         (remoteCalls (Diff X app opt).1).
Proof.
  eapply Forall_impl; [apply Diff_calls|].
  intros c Hc. split; [apply isGetFunction_isRead|]; exact Hc.
Qed.

Lemma bind_Ok_inv {A B} (m : M A) (k : A -> M B) (tr : list Event) (b : B) :
  bind m k = (tr, Ok b) ->
  exists tr1 a tr2, m = (tr1, Ok a) /\ k a = (tr2, Ok b) /\ tr = tr1 ++ tr2.
Proof.
  destruct m as [tr1 [a| |]]; cbn; try discriminate.
  destruct (k a) as [tr2 r] eqn:Hk. intros [= <- ->]. eauto 10.
Qed.

Lemma wrapErr_Ok_inv {A} (msg : string) (r : Res A) (a : A) :
  wrapErr msg r = Ok a -> r = Ok a.
Proof. destruct r; cbn; congruence. Qed.

Lemma deref_Ok_inv {A} (p : option A) (a : A) : deref p = Ok a -> p = Some a.
Proof. destruct p; cbn; congruence. Qed.

(** What the variables of [Diff] hold once the structural diff is printed. *)
Lemma diffDefinitions_vars (X : Collaborators) (app : App) (opt : DiffOption)
    (tr : list Event) (vars : DiffVars) :
  diffDefinitions X app opt = (tr, Ok vars) ->
  exists path fn0 res conf,
    do_FunctionFilePath opt = Some path
    /\ loadFunction app path = Ok fn0
    /\ dv_newFunc vars = fillDefaults (resolveLogGroup X) fn0
    /\ FunctionName (dv_newFunc vars) = Some (dv_name vars)
    /\ lambda_GetFunction app (dv_name vars) = Ok res
    /\ gf_Configuration res = Some conf
    /\ fc_PackageType conf = Some (dv_packageType vars)
    /\ dv_latest vars = Some (withPackageType (dv_packageType vars) (fc_Configuration conf))
    /\ dv_code vars = gf_Code res
    /\ types.c_CodeSha256 (fc_Configuration conf) = Some (dv_currentCodeSha256 vars).
Proof.
  unfold diffDefinitions. intros H.
  repeat match type of H with
         | bind _ _ = _ =>
             apply bind_Ok_inv in H;
             let e := fresh "E" in destruct H as (? & ? & ? & e & H & ->)
         end.
  injection H as _ <-. cbn.
  repeat match goal with
         | E : lift _ = (_, Ok _) |- _ => injection E as _ E
         | E : call _ _ = (_, Ok _) |- _ => injection E as _ E
         | E : wrapErr _ _ = Ok _ |- _ => apply wrapErr_Ok_inv in E
         | E : deref _ = Ok _ |- _ => apply deref_Ok_inv in E
         end.
  eauto 20.
Qed.

(** C1. Update validation against a present current configuration fails
    with [errCannotUpdateImageAndZip] for every pair of differing backing
    types, and a [Diff] run that reaches the validation then ends with that
    error, its remote calls being reads only; validation returns no error
    when the current configuration is nil, when both sides are
    archive-backed, and when both sides carry an image URI; two
    image-backed sides are still rejected when one of them carries no image
    URI, being image-backed by its declared package type only. *)
Theorem validateUpdateFunction_backing_guard (conf : types.FunctionConfiguration)
    (code : option types.FunctionCodeLocation) (fn : Function) :
  (currentBacking conf code <> desiredBacking fn ->
   validateUpdateFunction (Some conf) code (Some fn) = Err errCannotUpdateImageAndZip
   /\ forall X app opt tr vars,
        diffDefinitions X app opt = (tr, Ok vars) ->
        dv_latest vars = Some conf -> dv_code vars = code -> dv_newFunc vars = fn ->
        Diff X app opt = (tr, Err errCannotUpdateImageAndZip)
        /\ Forall (fun c => isRead c = true) (remoteCalls tr))
  /\ (forall newFn, validateUpdateFunction None code newFn = Ok tt)
  /\ (currentBacking conf code = Archive -> desiredBacking fn = Archive ->
      validateUpdateFunction (Some conf) code (Some fn) = Ok tt)
  /\ (locationHasImageUri code = true -> codeHasImageUri (Code fn) = true ->
      validateUpdateFunction (Some conf) code (Some fn) = Ok tt)
  /\ (currentBacking conf code = Image -> desiredBacking fn = Image ->
      locationHasImageUri code = false \/ codeHasImageUri (Code fn) = false ->
      validateUpdateFunction (Some conf) code (Some fn) = Err errCannotUpdateImageAndZip).
Proof.
  unfold currentBacking, desiredBacking.
  split; [|split; [|split; [|split]]].
  - intros Hdiffer.
    assert (validateUpdateFunction (Some conf) code (Some fn)
            = Err errCannotUpdateImageAndZip) as Hfail.
    { rewrite validateUpdateFunction_cases. revert Hdiffer.
      destruct (locationHasImageUri code), (codeHasImageUri (Code fn)),
        (String.eqb (types.c_PackageType conf) types.PackageTypeImage),
        (String.eqb (PackageType fn) packageTypeImage); cbn; congruence. }
    split; [exact Hfail|].
    intros X app opt tr vars Hdefs Hlatest Hcode Hnew. split.
    + rewrite (Diff_after_definitions _ _ _ _ _ Hdefs), Hlatest, Hcode, Hnew, Hfail.
      reflexivity.
    + pose proof (diffDefinitions_calls X app opt) as Hcalls.
      unfold callsSatisfy in Hcalls. rewrite Hdefs in Hcalls.
      eapply Forall_impl; [exact Hcalls|]. apply isGetFunction_isRead.
  - reflexivity.
  - rewrite validateUpdateFunction_cases.
    destruct (locationHasImageUri code), (codeHasImageUri (Code fn)),
      (String.eqb (types.c_PackageType conf) types.PackageTypeImage),
      (String.eqb (PackageType fn) packageTypeImage); cbn; congruence.
  - intros Hcurrent Hdesired.
    rewrite validateUpdateFunction_cases, Hcurrent, Hdesired. reflexivity.
  - rewrite validateUpdateFunction_cases.
    destruct (locationHasImageUri code), (codeHasImageUri (Code fn)),
      (String.eqb (types.c_PackageType conf) types.PackageTypeImage),
      (String.eqb (PackageType fn) packageTypeImage); cbn;
      intros ? ? [?|?]; congruence.
Qed.

(** The desired definition declares the package type Image without an image
    URI, the current function is image-backed: both sides are image-backed,
    and the validation fails. *)
Lemma validateUpdateFunction_rejects_equal_backing :
  currentBacking (remoteConfiguration "hello" "Image" "digest")
                 (Some (imageLocation (Some "ECR")))
    = desiredBacking (definitionOf "hello" None "Image")
  /\ validateUpdateFunction (Some (remoteConfiguration "hello" "Image" "digest"))
                            (Some (imageLocation (Some "ECR")))
                            (Some (definitionOf "hello" None "Image"))
     = Err errCannotUpdateImageAndZip.
Proof. split; reflexivity. Qed.

Lemma validateUpdateFunction_backing_guard_witness :
  (* an image definition against an archive-backed function *)
  (validateUpdateFunction (Some (remoteConfiguration "hello" "Zip" "digest"))
     (Some archiveLocation)
     (Some (fillDefaults (resolveLogGroup sampleCollaborators)
              (definitionOf "hello" (Some imageCode) "Image")))
   = Err errCannotUpdateImageAndZip
   /\ (Diff sampleCollaborators
         (sampleApp (definitionOf "hello" (Some imageCode) "Image")
                    (archiveOutput "digest") [] [])
         (sampleDiffOption false)).2
      = Err errCannotUpdateImageAndZip)
  (* no current configuration *)
  /\ validateUpdateFunction None (Some archiveLocation) None = Ok tt
  (* archive against archive *)
  /\ validateUpdateFunction (Some (remoteConfiguration "hello" "Zip" "digest"))
       (Some archiveLocation) (Some (definitionOf "hello" None "Zip")) = Ok tt
  (* image against image *)
  /\ validateUpdateFunction (Some (remoteConfiguration "hello" "Image" "digest"))
       (Some (imageLocation (Some "ECR")))
       (Some (definitionOf "hello" (Some imageCode) "Image")) = Ok tt
  (* image against image, the current side by its declared package type only *)
  /\ validateUpdateFunction (Some (remoteConfiguration "hello" "Image" "digest"))
       (Some archiveLocation)
       (Some (definitionOf "hello" (Some imageCode) "Image"))
     = Err errCannotUpdateImageAndZip.
Proof.
  refine (conj (conj _ _) (conj _ (conj _ (conj _ _)))).
  - destruct (validateUpdateFunction_backing_guard
                (remoteConfiguration "hello" "Zip" "digest") (Some archiveLocation)
                (fillDefaults (resolveLogGroup sampleCollaborators)
                   (definitionOf "hello" (Some imageCode) "Image")))
      as [Hdiffer _].
    apply Hdiffer. vm_compute. discriminate.
  - destruct (validateUpdateFunction_backing_guard
                (remoteConfiguration "hello" "Zip" "digest") (Some archiveLocation)
                (fillDefaults (resolveLogGroup sampleCollaborators)
                   (definitionOf "hello" (Some imageCode) "Image")))
      as [Hdiffer _].
    destruct Hdiffer as [_ Hrun]; [vm_compute; discriminate|].
    edestruct (Hrun sampleCollaborators
                 (sampleApp (definitionOf "hello" (Some imageCode) "Image")
                            (archiveOutput "digest") [] [])
                 (sampleDiffOption false)) as [Hend _];
      [vm_compute; reflexivity | reflexivity ..|].
    rewrite Hend. reflexivity.
  - destruct (validateUpdateFunction_backing_guard emptyConfiguration
                (Some archiveLocation) (definitionOf "hello" None "Zip"))
      as (_ & Hnil & _ & _).
    apply Hnil.
  - destruct (validateUpdateFunction_backing_guard
                (remoteConfiguration "hello" "Zip" "digest") (Some archiveLocation)
                (definitionOf "hello" None "Zip"))
      as (_ & _ & Harchive & _).
    apply Harchive; reflexivity.
  - destruct (validateUpdateFunction_backing_guard
                (remoteConfiguration "hello" "Image" "digest")
                (Some (imageLocation (Some "ECR")))
                (definitionOf "hello" (Some imageCode) "Image"))
      as (_ & _ & _ & Himage & _).
    apply Himage; reflexivity.
  - destruct (validateUpdateFunction_backing_guard
                (remoteConfiguration "hello" "Image" "digest")
                (Some archiveLocation)
                (definitionOf "hello" (Some imageCode) "Image"))
      as (_ & _ & _ & _ & Hdeclared).
    apply Hdeclared; [reflexivity | reflexivity | left; reflexivity].
Defined.

(** ** The code digest comparison *)

(** C8. When the code digest comparison is requested and [Diff] reaches it
    (the structural diff is printed and the update validation passes), the
    package type and digest it uses are those that the configuration of the
    response points to; if the package type, lower-cased, is not [zip],
    [Diff] fails with the usage error and prints nothing more; otherwise,
    with the archive prepared and hashed, [Diff] succeeds and prints the
    five digest lines exactly when the archive's digest differs from the
    remote one. A run whose update validation fails ends with the error of
    the validation instead, whatever the remote package type. *)
Theorem Diff_code_sha256 (X : Collaborators) (app : App) (opt : DiffOption)
    (tr : list Event) (vars : DiffVars) :
  diffDefinitions X app opt = (tr, Ok vars) ->
  CodeSha256 opt = Some true ->
  (exists res conf,
     lambda_GetFunction app (dv_name vars) = Ok res
     /\ gf_Configuration res = Some conf
     /\ fc_PackageType conf = Some (dv_packageType vars)
     /\ types.c_CodeSha256 (fc_Configuration conf) = Some (dv_currentCodeSha256 vars)
     /\ dv_latest vars
        = Some (withPackageType (dv_packageType vars) (fc_Configuration conf)))
  /\ (validateUpdateFunction (dv_latest vars) (dv_code vars) (Some (dv_newFunc vars)) = Ok tt ->
      (strings_ToLower X (dv_packageType vars) <> "zip" ->
       Diff X app opt = (tr, Err errCodeSha256Unsupported))
      /\ (strings_ToLower X (dv_packageType vars) = "zip" ->
          forall src zipfile digest,
            Src opt = Some src ->
            prepareZipfile X src (dv_Excludes vars) = Ok zipfile ->
            sha256Base64 X zipfile = Ok digest ->
            Diff X app opt =
            (tr ++ (if String.eqb (dv_currentCodeSha256 vars) digest then []
                    else map Stdout
                           (codeSha256Lines X app (dv_name vars) src
                              (dv_currentCodeSha256 vars) digest)),
             Ok tt)))
  /\ (forall e,
        validateUpdateFunction (dv_latest vars) (dv_code vars) (Some (dv_newFunc vars))
        = Err e ->
        Diff X app opt = (tr, Err e)).
Proof.
  intros Hdefs Hreq. split; [|split].
  - destruct (diffDefinitions_vars _ _ _ _ _ Hdefs)
      as (path & fn0 & res & conf & _ & _ & _ & _ & Hres & Hconf & Hp & Hl & _ & Hs).
    eauto 10.
  - intros Hvalid. split.
    + intros Hne. rewrite (Diff_after_definitions _ _ _ _ _ Hdefs), Hvalid.
      unfold diffCodeSha256. rewrite Hreq. cbn.
      destruct (String.eqb_spec (strings_ToLower X (dv_packageType vars)) "zip")
        as [Heq|_]; [contradiction|].
      cbn. rewrite app_nil_r. reflexivity.
    + intros Hzip src zipfile digest Hsrc Hprep Hsha.
      rewrite (Diff_after_definitions _ _ _ _ _ Hdefs), Hvalid.
      unfold diffCodeSha256. rewrite Hreq, Hzip, Hsrc. cbn.
      rewrite Hprep. cbn. rewrite Hsha. cbn.
      destruct (String.eqb (dv_currentCodeSha256 vars) digest); reflexivity.
  - intros e Hinvalid.
    rewrite (Diff_after_definitions _ _ _ _ _ Hdefs), Hinvalid. reflexivity.
Qed.

(** The comparison is requested and the remote function is image-backed,
    but the desired definition is archive-backed: the run ends with the
    error of the update validation, not with the usage error. *)
Lemma Diff_code_sha256_behind_validation :
  CodeSha256 (sampleDiffOption true) = Some true
  /\ (gf_Configuration imageOutput ≫= fc_PackageType) = Some "Image"
  /\ strings_ToLower sampleCollaborators "Image" <> "zip"
  /\ Diff sampleCollaborators
       (sampleApp (definitionOf "hello" None "Zip") imageOutput [] [])
       (sampleDiffOption true)
     = ([Remote (GetFunction "hello"); Stdout nl], Err errCannotUpdateImageAndZip)
  /\ errCannotUpdateImageAndZip <> errCodeSha256Unsupported.
Proof.
  split; [reflexivity|]. split; [reflexivity|]. split; [vm_compute; discriminate|].
  split; [vm_compute; reflexivity | discriminate].
Qed.

Lemma Diff_code_sha256_witness :
  (* an image-backed function: the usage error *)
  (Diff sampleCollaborators
     (sampleApp (definitionOf "hello" (Some imageCode) "Image") imageOutput [] [])
     (sampleDiffOption true)).2 = Err errCodeSha256Unsupported
  (* an archive-backed function with another digest: the five lines *)
  /\ printed (Diff sampleCollaborators
                (sampleApp (definitionOf "hello" None "Zip") (archiveOutput "old") [] [])
                (sampleDiffOption true)).1
     = [ nl;
         "--- arn:aws:lambda:us-east-1:123456789012:function:hello" +:+ nl;
         "+++ --src=src" +:+ nl;
         "@@ @@" +:+ nl;
         "-CodeSha256: old" +:+ nl;
         "+CodeSha256: sha256-of-src" +:+ nl ]
  (* an archive-backed function with the same digest: no line *)
  /\ printed (Diff sampleCollaborators
                (sampleApp (definitionOf "hello" None "Zip")
                           (archiveOutput "sha256-of-src") [] [])
                (sampleDiffOption true)).1
     = [ nl ]
  (* an archive definition against an image-backed function: the validation *)
  /\ (Diff sampleCollaborators
        (sampleApp (definitionOf "hello" None "Zip") imageOutput [] [])
        (sampleDiffOption true)).2 = Err errCannotUpdateImageAndZip.
Proof.
  split; [|split; [|split]].
  - edestruct (Diff_code_sha256 sampleCollaborators
                 (sampleApp (definitionOf "hello" (Some imageCode) "Image") imageOutput [] [])
                 (sampleDiffOption true)) as (_ & Hreached & _);
      [vm_compute; reflexivity | reflexivity |].
    destruct (Hreached eq_refl) as [Herr _].
    rewrite Herr; [reflexivity | vm_compute; discriminate].
  - edestruct (Diff_code_sha256 sampleCollaborators
                 (sampleApp (definitionOf "hello" None "Zip") (archiveOutput "old") [] [])
                 (sampleDiffOption true)) as (_ & Hreached & _);
      [vm_compute; reflexivity | reflexivity |].
    destruct (Hreached eq_refl) as [_ Hzip].
    rewrite (Hzip eq_refl "src" "src" "sha256-of-src" eq_refl eq_refl eq_refl).
    reflexivity.
  - edestruct (Diff_code_sha256 sampleCollaborators
                 (sampleApp (definitionOf "hello" None "Zip")
                            (archiveOutput "sha256-of-src") [] [])
                 (sampleDiffOption true)) as (_ & Hreached & _);
      [vm_compute; reflexivity | reflexivity |].
    destruct (Hreached eq_refl) as [_ Hzip].
    rewrite (Hzip eq_refl "src" "src" "sha256-of-src" eq_refl eq_refl eq_refl).
    reflexivity.
  - edestruct (Diff_code_sha256 sampleCollaborators
                 (sampleApp (definitionOf "hello" None "Zip") imageOutput [] [])
                 (sampleDiffOption true)) as (_ & _ & Hinvalid);
      [vm_compute; reflexivity | reflexivity |].
    rewrite (Hinvalid errCannotUpdateImageAndZip eq_refl). reflexivity.
Defined.

(** ** The versions listing *)

Lemma namesOf_appendAlias (v n v' : string) (aliases : gmap string (list string)) :
  namesOf (appendAlias v n aliases) v' =
  if decide (v = v') then namesOf aliases v ++ [n] else namesOf aliases v'.
Proof.
  unfold namesOf, appendAlias. rewrite lookup_insert.
  destruct (decide (v = v')); reflexivity.
Qed.

Lemma appendAlias_comm (v1 v2 n : string) (aliases : gmap string (list string)) :
  appendAlias v1 n (appendAlias v2 n aliases) = appendAlias v2 n (appendAlias v1 n aliases).
Proof.
  destruct (decide (v1 = v2)) as [->|Hne]; [reflexivity|].
  unfold appendAlias.
  rewrite (lookup_insert_ne _ v2 v1) by congruence.
  rewrite (lookup_insert_ne _ v1 v2) by congruence.
  apply insert_insert_ne. congruence.
Qed.

(** The order in which the weighted versions are visited does not matter. *)
Lemma appendWeighted_Permutation (n : string) (keys1 keys2 : list string)
    (aliases : gmap string (list string)) :
  keys1 ≡ₚ keys2 -> appendWeighted n keys1 aliases = appendWeighted n keys2 aliases.
Proof.
  unfold appendWeighted. intros Hp. revert aliases.
  induction Hp as [|k l1 l2 _ IH|k1 k2 l|l1 l2 l3 _ IH1 _ IH2]; intros aliases; cbn.
  - reflexivity.
  - apply IH.
  - rewrite appendAlias_comm. reflexivity.
  - rewrite IH1. apply IH2.
Qed.

Lemma appendWeighted_mono (n : string) (keys : list string)
    (aliases : gmap string (list string)) (v m : string) :
  m ∈ namesOf aliases v -> m ∈ namesOf (appendWeighted n keys aliases) v.
Proof.
  unfold appendWeighted. revert aliases.
  induction keys as [|k keys IH]; intros aliases Hm; cbn; [exact Hm|].
  apply IH. rewrite namesOf_appendAlias.
  destruct (decide (k = v)) as [->|_]; [apply elem_of_app; left|]; exact Hm.
Qed.

Lemma appendWeighted_key (n : string) (keys : list string)
    (aliases : gmap string (list string)) (v : string) :
  v ∈ keys -> n ∈ namesOf (appendWeighted n keys aliases) v.
Proof.
  unfold appendWeighted. revert aliases.
  induction keys as [|k keys IH]; intros aliases Hv; cbn.
  - apply elem_of_nil in Hv. contradiction.
  - apply elem_of_cons in Hv as [<-|Hv]; [|apply IH, Hv].
    apply (appendWeighted_mono n keys). rewrite namesOf_appendAlias.
    rewrite decide_True by reflexivity. apply elem_of_app. right. apply list_elem_of_singleton.
    reflexivity.
Qed.

Lemma elem_of_rangeKeys (weights : gmap string Q) (v : string) :
  v ∈ rangeKeys weights <-> is_Some (weights !! v).
Proof.
  unfold rangeKeys. rewrite list_elem_of_fmap. split.
  - intros [[k q] [-> Hin]]. apply elem_of_map_to_list in Hin. cbn. eauto.
  - intros [q Hq]. exists (v, q). split; [reflexivity|]. apply elem_of_map_to_list. exact Hq.
Qed.

Lemma addAlias_mono (alias : AliasConfiguration) (aliases out : gmap string (list string))
    (v m : string) :
  addAlias alias aliases = Ok out -> m ∈ namesOf aliases v -> m ∈ namesOf out v.
Proof.
  unfold addAlias.
  destruct (FunctionVersion alias) as [version|]; cbn; [|discriminate].
  destruct (Name alias) as [name|]; cbn; [|discriminate].
  intros Hout Hm.
  assert (m ∈ namesOf (appendAlias version name aliases) v) as Hm'.
  { rewrite namesOf_appendAlias.
    destruct (decide (version = v)) as [->|_]; [apply elem_of_app; left|]; exact Hm. }
  destruct (RoutingConfig alias) as [[[weights|]]|]; injection Hout as <-;
    [apply appendWeighted_mono|..]; exact Hm'.
Qed.

Lemma addAlias_attribution (alias : AliasConfiguration)
    (aliases out : gmap string (list string)) (n v : string) :
  addAlias alias aliases = Ok out -> Name alias = Some n -> refersTo alias v ->
  n ∈ namesOf out v.
Proof.
  unfold addAlias, refersTo. intros Hout Hn Hv. rewrite Hn in Hout.
  destruct (FunctionVersion alias) as [version|]; cbn in Hout; [|discriminate].
  assert (version = v -> n ∈ namesOf (appendAlias version n aliases) v) as Hprimary.
  { intros ->. rewrite namesOf_appendAlias, decide_True by reflexivity.
    apply elem_of_app. right. apply list_elem_of_singleton. reflexivity. }
  destruct Hv as [[= <-]|(rc & weights & Hrc & Hw & Hv)].
  - destruct (RoutingConfig alias) as [[[weights|]]|]; injection Hout as <-;
      [apply appendWeighted_mono|..]; auto.
  - rewrite Hrc, Hw in Hout. injection Hout as <-.
    apply appendWeighted_key, elem_of_rangeKeys, Hv.
Qed.

Lemma addAliases_mono (l : list AliasConfiguration) (aliases out : gmap string (list string))
    (v m : string) :
  addAliases l aliases = Ok out -> m ∈ namesOf aliases v -> m ∈ namesOf out v.
Proof.
  revert aliases. induction l as [|alias l IH]; intros aliases; cbn.
  - intros [= <-]. auto.
  - destruct (addAlias alias aliases) as [mid| |] eqn:Hmid; cbn; try discriminate.
    intros Hout Hm. eapply IH; [exact Hout|]. eapply addAlias_mono; eauto.
Qed.

Lemma addAliases_attribution (l : list AliasConfiguration)
    (aliases out : gmap string (list string)) (alias : AliasConfiguration) (n v : string) :
  addAliases l aliases = Ok out -> alias ∈ l -> Name alias = Some n -> refersTo alias v ->
  n ∈ namesOf out v.
Proof.
  revert aliases. induction l as [|a l IH]; intros aliases; cbn.
  - intros _ Hin. apply elem_of_nil in Hin. contradiction.
  - destruct (addAlias a aliases) as [mid| |] eqn:Hmid; cbn; try discriminate.
    intros Hout Hin Hn Hv. apply elem_of_cons in Hin as [->|Hin].
    + eapply addAliases_mono; [exact Hout|]. eapply addAlias_attribution; eauto.
    + eapply IH; eauto.
Qed.

Lemma addAliases_app (l1 l2 : list AliasConfiguration) (aliases : gmap string (list string)) :
  addAliases (l1 ++ l2) aliases = res_bind (addAliases l1 aliases) (addAliases l2).
Proof.
  revert aliases. induction l1 as [|a l1 IH]; intros aliases; cbn; [reflexivity|].
  destruct (addAlias a aliases); cbn; auto.
Qed.

(** The alias loop folds [addAlias] over the aliases of the pages it reads. *)
Lemma waitFor_Ok_inv {A} (request : Event) (rest : option (M A)) (tr : list Event) (a : A) :
  waitFor request rest = Some (tr, Ok a) ->
  exists tr', rest = Some (tr', Ok a) /\ tr = request :: tr'.
Proof.
  destruct rest as [[tr' r]|]; cbn; [|discriminate]. intros [= <- ->]. eauto.
Qed.

Lemma andThen_Ok_inv {A B} (m : option (M A)) (k : A -> option (M B))
    (tr : list Event) (b : B) :
  andThen m k = Some (tr, Ok b) ->
  exists tr1 a tr2, m = Some (tr1, Ok a) /\ k a = Some (tr2, Ok b) /\ tr = tr1 ++ tr2.
Proof.
  destruct m as [[tr1 [a| |]]|]; cbn; try discriminate.
  destruct (k a) as [[tr2 r]|] eqn:Hk; [|discriminate]. intros [= <- ->]. eauto 10.
Qed.

Lemma listAliasesLoop_Ok (name : string) (resps : list (Res ListAliasesOutput))
    (marker : option string) (aliases out : gmap string (list string)) (tr : list Event) :
  listAliasesLoop name resps marker aliases = Some (tr, Ok out) ->
  addAliases (aliasesRead resps) aliases = Ok out.
Proof.
  revert marker aliases tr.
  induction resps as [|[res|e|] resps IH]; intros marker aliases tr; cbn;
    try discriminate.
  rewrite addAliases_app.
  destruct (addAliases (default [] (la_Aliases res)) aliases) as [mid| |]; cbn;
    try discriminate.
  destruct (la_NextMarker res) as [next|].
  - intros H. apply waitFor_Ok_inv in H as (tr' & H & _). eapply IH, H.
  - cbn. congruence.
Qed.

(** The version loop collects the versions of the pages it reads. *)
Lemma listVersionsLoop_Ok (name : string) (resps : list (Res ListVersionsByFunctionOutput))
    (marker : option string) (acc versions : list types.FunctionConfiguration)
    (tr : list Event) :
  listVersionsLoop name resps marker acc = Some (tr, Ok versions) ->
  versions = acc ++ versionsRead resps.
Proof.
  revert marker acc tr.
  induction resps as [|[res|e|] resps IH]; intros marker acc tr; cbn; try discriminate.
  destruct (lv_NextMarker res) as [next|].
  - intros H. apply waitFor_Ok_inv in H as (tr' & H & _).
    apply IH in H. rewrite H, app_assoc. reflexivity.
  - rewrite app_nil_r. congruence.
Qed.

(** The calls of the two loops are reads of the listings. *)
Lemma listAliasesLoop_calls (name : string) (resps : list (Res ListAliasesOutput))
    (marker : option string) (aliases : gmap string (list string))
    (tr : list Event) (r : Res (gmap string (list string))) :
  listAliasesLoop name resps marker aliases = Some (tr, r) ->
  Forall (fun c => isRead c = true) (remoteCalls tr).
Proof.
  revert marker aliases tr r.
  induction resps as [|resp resps IH]; intros marker aliases tr r; cbn; [discriminate|].
  assert (Forall (fun c => isRead c = true)
            (remoteCalls [Remote (ListAliases name marker)])) as Hone
    by (repeat constructor).
  destruct resp as [res|e|]; try (intros [= <- _]; exact Hone).
  destruct (addAliases _ _); try (intros [= <- _]; exact Hone).
  destruct (la_NextMarker res) as [next|]; [|intros [= <- _]; exact Hone].
  destruct (listAliasesLoop name resps (Some next) a) as [[tr' r']|] eqn:Hrest; cbn;
    [|discriminate].
  intros [= <- _]. cbn. constructor; [reflexivity|]. eapply IH, Hrest.
Qed.

Lemma listVersionsLoop_calls (name : string) (resps : list (Res ListVersionsByFunctionOutput))
    (marker : option string) (acc : list types.FunctionConfiguration)
    (tr : list Event) (r : Res (list types.FunctionConfiguration)) :
  listVersionsLoop name resps marker acc = Some (tr, r) ->
  Forall (fun c => isRead c = true) (remoteCalls tr).
Proof.
  revert marker acc tr r.
  induction resps as [|resp resps IH]; intros marker acc tr r; cbn; [discriminate|].
  assert (Forall (fun c => isRead c = true)
            (remoteCalls [Remote (ListVersionsByFunction name marker)])) as Hone
    by (repeat constructor).
  destruct resp as [res|e|]; try (intros [= <- _]; exact Hone).
  destruct (lv_NextMarker res) as [next|]; [|intros [= <- _]; exact Hone].
  destruct (listVersionsLoop name resps (Some next) _) as [[tr' r']|] eqn:Hrest; cbn;
    [|discriminate].
  intros [= <- _]. cbn. constructor; [reflexivity|]. eapply IH, Hrest.
Qed.

(** The records keep the order of the versions, the mutable head dropped,
    and each carries the alias names recorded for its version. *)
Lemma buildOutputs_Ok (X : Collaborators) (aliases : gmap string (list string))
    (versions : list types.FunctionConfiguration) (vo out : versionsOutputs) :
  buildOutputs X aliases versions vo = Ok out ->
  map vo_Version out = map vo_Version vo ++ List.filter isPublished (map versionOf versions)
  /\ forall r, r ∈ out -> r ∈ vo \/ vo_Aliases r = aliases !! vo_Version r.
Proof.
  revert vo. induction versions as [|c versions IH]; intros vo; cbn.
  - intros [= <-]. rewrite app_nil_r. auto.
  - unfold isPublished at 1.
    change (versionOf c) with (aws_ToString (types.c_Version c)).
    destruct (String.eqb (aws_ToString (types.c_Version c)) versionLatest) eqn:Hlatest;
      cbn [negb].
    + apply IH.
    + destruct (types.c_LastModified c) as [lastModified|]; cbn; [|discriminate].
      destruct (time_Parse X lastModifiedLayout lastModified) as [lm| |]; cbn;
        try discriminate.
      destruct (types.c_Version c) as [version|]; cbn; [|discriminate].
      intros H. apply IH in H as [Hmap Hrec]. split.
      * rewrite Hmap, map_app, <- app_assoc. reflexivity.
      * intros r Hr. apply Hrec in Hr as [Hr|Hr]; [|auto].
        apply elem_of_app in Hr as [Hr|Hr]; [auto|].
        apply list_elem_of_singleton in Hr as ->. right. reflexivity.
Qed.

Lemma buildOutputs_total (X : Collaborators) (aliases : gmap string (list string))
    (versions : list types.FunctionConfiguration) (vo : versionsOutputs) :
  Forall (wellFormedVersion X) versions ->
  exists out, buildOutputs X aliases versions vo = Ok out.
Proof.
  intros Hwf. revert vo. induction Hwf as [|c versions Hc _ IH]; intros vo; cbn.
  - eauto.
  - unfold wellFormedVersion, isPublished, versionOf in Hc.
    destruct (String.eqb (aws_ToString (types.c_Version c)) versionLatest); [apply IH|].
    destruct Hc as [[version Hv] (lastModified & lm & Hl & Hp)]; [reflexivity|].
    rewrite Hl, Hv. cbn. rewrite Hp. cbn. apply IH.
Qed.

Lemma listVersions_Ok (X : Collaborators) (app : App) (name : string)
    (tr : list Event) (vo : versionsOutputs) :
  listVersions X app name = Some (tr, Ok vo) ->
  exists aliases,
    addAliases (aliasesRead (lambda_ListAliases app name)) ∅ = Ok aliases
    /\ buildOutputs X aliases (versionsRead (lambda_ListVersionsByFunction app name)) [] = Ok vo.
Proof.
  unfold listVersions. intros H.
  apply andThen_Ok_inv in H as (tr1 & aliases & tr2 & Ha & H & _).
  apply andThen_Ok_inv in H as (tr3 & versions & tr4 & Hv & H & _).
  injection H as _ H.
  apply listAliasesLoop_Ok in Ha. apply listVersionsLoop_Ok in Hv.
  cbn in Hv. subst versions. eauto.
Qed.

(** What [Versions] prints for a listing in the JSON format. *)
Lemma Versions_prints_json (X : Collaborators) (app : App) (opt : VersionsOption)
    (path name : string) (fn : Function) (tr : list Event) (vo : versionsOutputs) :
  vo_FunctionFilePath opt = Some path -> loadFunctionV2 app path = Ok fn ->
  FunctionName fn = Some name -> Delete opt = Some false -> Output opt = Some "json" ->
  listVersions X app name = Some (tr, Ok vo) ->
  Versions X app opt = Some (tr ++ [Stdout (vo_JSON X vo +:+ nl)], Ok tt).
Proof.
  intros Hpath Hload Hname Hdel Hout Hlist. unfold Versions.
  rewrite Hpath. cbn. rewrite Hload. cbn. rewrite Hname, Hdel. cbn.
  rewrite Hlist, Hout. reflexivity.
Qed.

(** C5. In the versions listing, the name of every alias that the alias
    loop reads is attributed to the record of its primary version and to
    the record of each of its weighted secondary versions: a record whose
    version the alias refers to lists the alias's name, and such a record
    exists for every listed version other than the mutable head. *)
Theorem alias_names_attributed (X : Collaborators) (app : App) (name : string)
    (tr : list Event) (vo : versionsOutputs) (alias : AliasConfiguration) (n v : string) :
  listVersions X app name = Some (tr, Ok vo) ->
  alias ∈ aliasesRead (lambda_ListAliases app name) ->
  Name alias = Some n ->
  refersTo alias v ->
  (forall r, r ∈ vo -> vo_Version r = v ->
     exists names, vo_Aliases r = Some names /\ n ∈ names)
  /\ (v ≠ versionLatest ->
      v ∈ map versionOf (versionsRead (lambda_ListVersionsByFunction app name)) ->
      exists r, r ∈ vo /\ vo_Version r = v).
Proof.
  intros Hlist Hin Hn Hv.
  destruct (listVersions_Ok _ _ _ _ _ Hlist) as (aliases & Ha & Hb).
  apply buildOutputs_Ok in Hb as [Hmap Hrec].
  pose proof (addAliases_attribution _ _ _ _ _ _ Ha Hin Hn Hv) as Hnames.
  split.
  - intros r Hr <-. apply Hrec in Hr as [Hr|Hr]; [apply elem_of_nil in Hr; contradiction|].
    unfold namesOf in Hnames. rewrite Hr.
    destruct (aliases !! vo_Version r) as [names|]; cbn in Hnames; [eauto|].
    apply elem_of_nil in Hnames. contradiction.
  - intros Hne Hlisted. cbn in Hmap.
    assert (v ∈ map vo_Version vo) as Hvo.
    { rewrite Hmap. apply list_elem_of_In, filter_In. split.
      - apply list_elem_of_In, Hlisted.
      - unfold isPublished. destruct (String.eqb_spec v versionLatest); [contradiction|].
        reflexivity. }
    apply list_elem_of_fmap in Hvo as (r & -> & Hr). eauto.
Qed.

Lemma alias_names_attributed_witness :
  exists tr vo,
    listVersions sampleCollaborators (sampleVersionsApp pagesAliases pagesAscending) "hello"
      = Some (tr, Ok vo)
    /\ map (fun r => (vo_Version r, vo_Aliases r)) vo
       = [ ("1", Some ["current"; "stable"]);
           ("2", Some ["current"]);
           ("3", Some ["current"]);
           ("10", None) ]
    /\ forall v, v ∈ ["3"; "1"; "2"] ->
         (forall r, r ∈ vo -> vo_Version r = v ->
            exists names, vo_Aliases r = Some names /\ "current" ∈ names)
         /\ exists r, r ∈ vo /\ vo_Version r = v.
Proof.
  do 2 eexists. split; [vm_compute; reflexivity|]. split; [vm_compute; reflexivity|].
  intros v Hv.
  assert (refersTo (aliasOf "current" "3"
                      (Some (<["1" := (1 # 10)%Q]> (<["2" := (2 # 10)%Q]> ∅)))) v) as Hrefers.
  { unfold refersTo. cbn.
    repeat (apply elem_of_cons in Hv as [->|Hv]); [left; reflexivity | right .. |].
    - do 2 eexists. split; [reflexivity|]. split; [reflexivity|].
      rewrite lookup_insert_eq. eauto.
    - do 2 eexists. split; [reflexivity|]. split; [reflexivity|].
      rewrite lookup_insert_ne, lookup_insert_eq by discriminate. eauto.
    - apply elem_of_nil in Hv. contradiction. }
  lazymatch goal with
  | |- (forall r, r ∈ ?vo -> _) /\ _ =>
      pose proof (fun tr =>
                    alias_names_attributed sampleCollaborators
                      (sampleVersionsApp pagesAliases pagesAscending) "hello" tr vo
                      (aliasOf "current" "3"
                         (Some (<["1" := (1 # 10)%Q]> (<["2" := (2 # 10)%Q]> ∅))))
                      "current" v) as Hattributed;
      edestruct Hattributed as [Hrecords Hexists];
      [vm_compute; reflexivity | cbn; apply elem_of_cons; left; reflexivity
      | reflexivity | exact Hrefers |]
  end.
  split; [exact Hrecords|]. apply Hexists.
  - repeat (apply elem_of_cons in Hv as [->|Hv]); try discriminate.
    apply elem_of_nil in Hv. contradiction.
  - cbn. repeat (apply elem_of_cons in Hv as [->|Hv]);
      [| | |apply elem_of_nil in Hv; contradiction];
      repeat (first [apply list_elem_of_here | apply list_elem_of_further]).
Defined.

(** C7. The versions listing has a record for exactly the published
    versions: when the listing succeeds, the version identifiers of its
    records are those of the versions read, in order, without the entries
    of the mutable head [$LATEST], which gets no record; and the listing
    succeeds when both loops end and every published version read is well
    formed. *)
Theorem listing_has_published_versions (X : Collaborators) (app : App) (name : string) :
  (forall tr vo,
     listVersions X app name = Some (tr, Ok vo) ->
     map vo_Version vo
       = List.filter isPublished
           (map versionOf (versionsRead (lambda_ListVersionsByFunction app name)))
     /\ versionLatest ∉ map vo_Version vo)
  /\ (forall tr1 aliases tr2 versions,
        listAliasesLoop name (lambda_ListAliases app name) None ∅
          = Some (tr1, Ok aliases) ->
        listVersionsLoop name (lambda_ListVersionsByFunction app name) None []
          = Some (tr2, Ok versions) ->
        Forall (wellFormedVersion X) versions ->
        exists vo, listVersions X app name = Some (tr1 ++ tr2, Ok vo)).
Proof.
  split.
  - intros tr vo Hlist.
    destruct (listVersions_Ok _ _ _ _ _ Hlist) as (aliases & _ & Hb).
    apply buildOutputs_Ok in Hb as [Hmap _]. cbn in Hmap. split; [exact Hmap|].
    rewrite Hmap. intros Hin. apply list_elem_of_In, filter_In in Hin as [_ Hin].
    discriminate Hin.
  - intros tr1 aliases tr2 versions Ha Hv Hwf. unfold listVersions. rewrite Ha. cbn.
    rewrite Hv. cbn.
    destruct (buildOutputs_total X aliases versions [] Hwf) as [vo Hvo].
    exists vo. rewrite Hvo, app_nil_r. reflexivity.
Qed.

Lemma listing_has_published_versions_witness :
  exists tr vo,
    listVersions sampleCollaborators (sampleVersionsApp pagesAliases pagesAscending) "hello"
      = Some (tr, Ok vo)
    /\ remoteCalls tr
       = [ ListAliases "hello" None;
           ListAliases "hello" (Some "m1");
           ListVersionsByFunction "hello" None;
           ListVersionsByFunction "hello" (Some "m1") ]
    /\ map vo_Version vo = ["1"; "2"; "3"; "10"]
    /\ versionLatest ∉ map vo_Version vo.
Proof.
  destruct (listing_has_published_versions sampleCollaborators
              (sampleVersionsApp pagesAliases pagesAscending) "hello") as [Hrecords Htotal].
  edestruct Htotal as [vo Hvo]; [vm_compute; reflexivity | vm_compute; reflexivity | |].
  - repeat (first
      [ apply Forall_nil_2
      | apply Forall_cons_2;
        [ intros _; split;
          [ eexists; reflexivity
          | do 2 eexists; split; [reflexivity | vm_compute; reflexivity] ] | ] ]).
  - do 2 eexists. split; [exact Hvo|]. split; [vm_compute; reflexivity|].
    destruct (Hrecords _ vo Hvo) as [Hmap Hlatest]. split; [|exact Hlatest].
    rewrite Hmap. vm_compute. reflexivity.
Defined.

(** A listing that the service returns in descending order is printed in
    that order: the records are not in ascending version order. *)
Lemma listing_not_sorted :
  exists tr vo,
    listVersions sampleCollaborators (sampleVersionsApp pagesAliases pagesDescending) "hello"
      = Some (tr, Ok vo)
    /\ map vo_Version vo = ["2"; "1"]
    /\ sortedVersions (map vo_Version vo) = false.
Proof. do 2 eexists. repeat split; vm_compute; reflexivity. Qed.

(** C6. The records of the versions listing keep the order in which the
    version listing returned the versions, page after page, with the
    entries of the mutable head dropped; no sorting is done, so the records
    are in ascending version order exactly when the published versions
    were returned in that order. *)
Theorem listing_keeps_service_order (X : Collaborators) (app : App) (name : string)
    (tr : list Event) (vo : versionsOutputs) :
  listVersions X app name = Some (tr, Ok vo) ->
  map vo_Version vo
    = List.filter isPublished
        (map versionOf (versionsRead (lambda_ListVersionsByFunction app name)))
  /\ sortedVersions (map vo_Version vo)
     = sortedVersions
         (List.filter isPublished
            (map versionOf (versionsRead (lambda_ListVersionsByFunction app name)))).
Proof.
  intros Hlist.
  destruct (listVersions_Ok _ _ _ _ _ Hlist) as (aliases & _ & Hb).
  apply buildOutputs_Ok in Hb as [Hmap _]. cbn in Hmap. rewrite Hmap. split; reflexivity.
Qed.

Lemma listing_keeps_service_order_witness :
  exists tr vo,
    listVersions sampleCollaborators (sampleVersionsApp pagesAliases pagesAscending) "hello"
      = Some (tr, Ok vo)
    /\ map vo_Version vo = ["1"; "2"; "3"; "10"]
    /\ sortedVersions (map vo_Version vo) = true.
Proof.
  do 2 eexists. split; [vm_compute; reflexivity|].
  edestruct (listing_keeps_service_order sampleCollaborators
               (sampleVersionsApp pagesAliases pagesAscending) "hello") as [Hmap Hsorted];
    [vm_compute; reflexivity|].
  split; [rewrite Hmap | rewrite Hsorted]; vm_compute; reflexivity.
Defined.

(** A run of [Versions] on the sample listing, in the JSON format. *)
Example Versions_sample_run :
  Versions sampleCollaborators (sampleVersionsApp pagesAliases pagesAscending)
    (sampleVersionsOption "json")
  = Some ([ Remote (ListAliases "hello" None);
            Remote (ListAliases "hello" (Some "m1"));
            Remote (ListVersionsByFunction "hello" None);
            Remote (ListVersionsByFunction "hello" (Some "m1"));
            Stdout ("1,2,3,10" +:+ nl) ], Ok tt).
Proof. vm_compute. reflexivity. Qed.


(** * Further properties *)

(** ** Normalization *)

Lemma defaultLoggingConfig_normalized (r : Function -> string) (fn : Function) :
  loggingNormalized (defaultLoggingConfig r fn) = true.
Proof.
  unfold defaultLoggingConfig, loggingNormalized.
  destruct (LoggingConfig fn) as [[app fmt grp sys]|]; [|reflexivity].
  unfold types.LogFormatText, types.LogFormatJson, types.ApplicationLogLevelInfo,
    types.SystemLogLevelInfo.
  cbn -[withLeadingDefaults String.eqb].
  destruct (String.eqb fmt "") eqn:Hf;
    destruct (String.eqb app "") eqn:Ha; destruct (String.eqb sys "") eqn:Hs;
    destruct (String.eqb fmt "JSON") eqn:Hj;
    cbn -[withLeadingDefaults]; rewrite ?Hf, ?Ha, ?Hs, ?Hj; reflexivity.
Qed.

Lemma isNormalized_fillDefaults (r : Function -> string) (fn : Function) :
  isNormalized (fillDefaults r fn) = true.
Proof.
  rewrite fillDefaults_fields. unfold isNormalized.
  cbn -[defaultLoggingConfig defaultArchitectures].
  rewrite defaultLoggingConfig_normalized.
  destruct (Architectures fn) as [[|a ar]|]; reflexivity.
Qed.

Lemma fillDefaults_of_normalized (r : Function -> string) (fn : Function) :
  isNormalized fn = true -> fillDefaults r fn = fn.
Proof.
  intros Hn. rewrite fillDefaults_fields.
  destruct fn as [ar co dl de en ep fs na ha ic km la lo me pt ro ru sn ta ti tr vp].
  unfold isNormalized in Hn. cbn in Hn.
  repeat match type of Hn with
         | _ && _ = true => let H := fresh "H" in apply andb_prop in Hn as [Hn H]
         end.
  destruct ar as [[|a ar]|]; try discriminate.
  destruct de, me, la, lo as [[app fmt grp sys]|], tr, ep, ti, sn; try discriminate.
  cbn -[withLeadingDefaults]. f_equal. f_equal.
  unfold defaultLoggingConfig. cbn -[withLeadingDefaults].
  unfold loggingNormalized in *. cbn in *.
  repeat match goal with
         | H : _ && _ = true |- _ =>
             let H1 := fresh "H" in apply andb_prop in H as [H H1]
         end.
  destruct (String.eqb fmt "") eqn:Hf; [discriminate|].
  destruct grp as [g|]; [|discriminate].
  destruct (String.eqb fmt types.LogFormatJson) eqn:Hj;
    destruct (String.eqb app "") eqn:Ha; destruct (String.eqb sys "") eqn:Hs;
    try discriminate; reflexivity.
Qed.

(** X1. The result of normalization is normalized (every optional field
    that the normalizer tests is present, the log format is not empty, and
    no log level is left empty under the JSON format), and the normalized
    definitions are exactly the definitions that normalization leaves
    unchanged. *)
Theorem normalized_iff_fixed_point (r : Function -> string) (fn : Function) :
  isNormalized (fillDefaults r fn) = true
  /\ (fillDefaults r fn = fn <-> isNormalized fn = true).
Proof.
  split; [apply isNormalized_fillDefaults|]. split.
  - intros H. rewrite <- H. apply isNormalized_fillDefaults.
  - apply fillDefaults_of_normalized.
Qed.

(** X2. A log group given in the definition is kept and the default log
    group is not computed: the normalization of a definition whose logging
    configuration names a log group is the same whatever [resolveLogGroup]
    would answer. *)
Theorem explicit_log_group_needs_no_resolver (r1 r2 : Function -> string) (fn : Function)
    (lc : types.LoggingConfig) (group : string) :
  LoggingConfig fn = Some lc ->
  types.LogGroup lc = Some group ->
  fillDefaults r1 fn = fillDefaults r2 fn
  /\ exists lc', LoggingConfig (fillDefaults r1 fn) = Some lc'
                 /\ types.LogGroup lc' = Some group.
Proof.
  intros Hlc Hgroup. rewrite !fillDefaults_fields.
  unfold defaultLoggingConfig. rewrite Hlc, Hgroup. cbn. split; [reflexivity|].
  eexists. split; reflexivity.
Qed.

Lemma explicit_log_group_needs_no_resolver_witness :
  fillDefaults (fun _ => "/aws/lambda/hello") (definitionWithLogGroup "/custom/hello")
    = fillDefaults (fun _ => "another") (definitionWithLogGroup "/custom/hello")
  /\ (LoggingConfig (fillDefaults (fun _ => "another")
                       (definitionWithLogGroup "/custom/hello")))
     = Some {| types.ApplicationLogLevel := "";
               types.LogFormat := "Text";
               types.LogGroup := Some "/custom/hello";
               types.SystemLogLevel := "" |}.
Proof.
  split.
  - eapply (explicit_log_group_needs_no_resolver _ _ (definitionWithLogGroup "/custom/hello"));
      reflexivity.
  - reflexivity.
Defined.


(** ** Reconstruction *)

Lemma appendLayerArns_mapM (layers : list types.Layer) (acc : slice string) :
  appendLayerArns layers acc =
  match mapM types.Arn layers with
  | Some arns => Ok (if arns is [] then acc else Some (default [] acc ++ arns))
  | None => Panic
  end.
Proof.
  revert acc. induction layers as [|layer rest IH]; intros acc; cbn; [reflexivity|].
  destruct (types.Arn layer) as [arn|]; cbn; [|reflexivity].
  rewrite IH. destruct (mapM types.Arn rest) as [arns|]; cbn; [|reflexivity].
  destruct arns as [|a arns], acc as [acc|]; cbn; rewrite <- ?app_assoc; reflexivity.
Qed.

(** [newFunctionFrom] on a present configuration: a panic when a
    dereference fails, the closed form otherwise. *)
Lemma newFunctionFrom_closed_form (c : types.FunctionConfiguration)
    (code : option types.FunctionCodeLocation) (tags : Tags) :
  newFunctionFrom (Some c) code tags =
  match mapM types.Arn (default [] (types.c_Layers c)) with
  | None => Panic
  | Some arns =>
      if vpcIdMissing c || imageUriMissing code then Panic
      else Ok (Some (reconstruction c code tags arns))
  end.
Proof.
  unfold newFunctionFrom, vpcIdMissing, imageUriMissing, reconstruction.
  rewrite appendLayerArns_mapM.
  destruct (mapM types.Arn _) as [arns|]; cbn; [|reflexivity].
  destruct (types.c_Environment c), (types.c_ImageConfigResponse c) as [[? [?|]]|],
    (types.c_TracingConfig c), (types.c_SnapStart c),
    (types.c_VpcConfig c) as [[? ? ? [vpcId|]]|];
    cbn; try reflexivity;
    try (destruct (String.eqb vpcId ""); cbn);
    (destruct (codeIsECR code) eqn:Hecr; cbn;
     [ destruct code as [[[uri|] ? ? ?]|]; cbn in *; try discriminate;
       destruct arns; reflexivity
     | destruct arns; reflexivity ]).
Qed.

Lemma mapM_Arn_None (layers : list types.Layer) :
  mapM types.Arn layers = None <-> Exists (fun layer => types.Arn layer = None) layers.
Proof.
  induction layers as [|layer rest IH]; cbn.
  - split; [discriminate | intros H; inversion H].
  - destruct (types.Arn layer) as [arn|] eqn:Harn; cbn.
    + destruct (mapM types.Arn rest) as [arns|]; cbn; split.
      * discriminate.
      * intros H. inversion H as [? ? Hhd|? ? Htl]; subst; [congruence|].
        apply IH in Htl. discriminate.
      * intros _. apply Exists_cons_tl, IH. reflexivity.
      * reflexivity.
    + split; [|reflexivity]. intros _. apply Exists_cons_hd, Harn.
Qed.

(** X3. [newFunctionFrom] never returns an error; it panics exactly when
    the configuration is present and a layer has no ARN, or the VPC
    configuration is present without a VPC id, or the code location is in
    the image registry without an image URI. *)
Theorem newFunctionFrom_panics_iff (c : option types.FunctionConfiguration)
    (code : option types.FunctionCodeLocation) (tags : Tags) :
  (forall e, newFunctionFrom c code tags <> Err e)
  /\ (newFunctionFrom c code tags = Panic <->
      exists conf,
        c = Some conf
        /\ (Exists (fun layer => types.Arn layer = None) (default [] (types.c_Layers conf))
            \/ (exists v, types.c_VpcConfig conf = Some v /\ types.VpcId v = None)
            \/ (codeIsECR code = true /\ code ≫= types.cl_ImageUri = None))).
Proof.
  destruct c as [conf|]; cbn -[newFunctionFrom].
  2: { split; [discriminate|]. split; [discriminate|]. intros (? & ? & _). discriminate. }
  rewrite newFunctionFrom_closed_form.
  pose proof (mapM_Arn_None (default [] (types.c_Layers conf))) as Hlayers.
  assert (vpcIdMissing conf = true <->
          exists v, types.c_VpcConfig conf = Some v /\ types.VpcId v = None) as Hvpc.
  { unfold vpcIdMissing. destruct (types.c_VpcConfig conf) as [v|].
    - destruct (types.VpcId v) eqn:Hid; cbn; split; try discriminate; eauto.
      intros (v' & [= <-] & Hnone). congruence.
    - split; [discriminate|]. intros (v & Hv & _). discriminate. }
  assert (imageUriMissing code = true <->
          codeIsECR code = true /\ code ≫= types.cl_ImageUri = None) as Huri.
  { unfold imageUriMissing, locationHasImageUri.
    destruct (codeIsECR code) eqn:Hecr; cbn;
      [|split; [discriminate | intros [? _]; discriminate]].
    destruct code as [[[uri|] ? ? ?]|]; cbn; [| |discriminate Hecr].
    - split; [discriminate | intros [_ ?]; discriminate].
    - split; auto. }
  destruct (mapM types.Arn _) as [arns|].
  - destruct (vpcIdMissing conf) eqn:Hv; cbn.
    + split; [discriminate|]. split; [|reflexivity].
      intros _. exists conf. split; [reflexivity|]. right. left. apply Hvpc. reflexivity.
    + destruct (imageUriMissing code) eqn:Hi; cbn.
      * split; [discriminate|]. split; [|reflexivity].
        intros _. exists conf. split; [reflexivity|]. right. right. apply Huri. reflexivity.
      * split; [discriminate|]. split; [discriminate|].
        intros (conf' & [= <-] & [Hl|[Hvp|Hu]]).
        -- apply Hlayers in Hl. discriminate.
        -- apply Hvpc in Hvp. discriminate.
        -- apply Huri in Hu. discriminate.
  - split; [discriminate|]. split; [|reflexivity].
    intros _. exists conf. split; [reflexivity|]. left. apply Hlayers. reflexivity.
Qed.

Lemma newFunctionFrom_Ok_inv (c : types.FunctionConfiguration)
    (code : option types.FunctionCodeLocation) (tags : Tags) (fn : Function) :
  newFunctionFrom (Some c) code tags = Ok (Some fn) ->
  exists arns,
    mapM types.Arn (default [] (types.c_Layers c)) = Some arns
    /\ vpcIdMissing c = false
    /\ imageUriMissing code = false
    /\ fn = reconstruction c code tags arns.
Proof.
  rewrite newFunctionFrom_closed_form.
  destruct (mapM types.Arn _) as [arns|]; [|discriminate].
  destruct (vpcIdMissing c); [discriminate|].
  destruct (imageUriMissing code); [discriminate|].
  cbn. intros [= <-]. eauto.
Qed.

(** X4. A reconstruction carries the identity and the runtime parameters of
    the remote configuration unchanged, and the tags it is given; of the
    environment, the tracing configuration, the snapshot-start policy and
    the image configuration it keeps the settings and drops what only the
    response has (errors, optimization status); it is nil only for a nil
    configuration, whatever the code location and the tags. *)
Theorem newFunctionFrom_copies_configuration (c : types.FunctionConfiguration)
    (code : option types.FunctionCodeLocation) (tags : Tags) (fn : Function) :
  (forall conf code' tags', newFunctionFrom conf code' tags' = Ok None <-> conf = None)
  /\ (newFunctionFrom (Some c) code tags = Ok (Some fn) ->
      FunctionName fn = types.c_FunctionName c
      /\ Architectures fn = types.c_Architectures c
      /\ Description fn = types.c_Description c
      /\ Handler fn = types.c_Handler c
      /\ Role fn = types.c_Role c
      /\ Runtime fn = types.c_Runtime c
      /\ MemorySize fn = types.c_MemorySize c
      /\ Timeout fn = types.c_Timeout c
      /\ EphemeralStorage fn = types.c_EphemeralStorage c
      /\ LoggingConfig fn = types.c_LoggingConfig c
      /\ DeadLetterConfig fn = types.c_DeadLetterConfig c
      /\ FileSystemConfigs fn = types.c_FileSystemConfigs c
      /\ KMSKeyArn fn = types.c_KMSKeyArn c
      /\ Tags_ fn = tags
      /\ (types.Variables <$> Environment fn) = (types.er_Variables <$> types.c_Environment c)
      /\ (types.Mode <$> TracingConfig fn) = (types.tcr_Mode <$> types.c_TracingConfig c)
      /\ (types.ApplyOn <$> SnapStart fn) = (types.ssr_ApplyOn <$> types.c_SnapStart c)
      /\ ImageConfig fn = (types.c_ImageConfigResponse c ≫= types.icr_ImageConfig)).
Proof.
  split.
  { intros [c'|] code' tags'; [|split; reflexivity].
    rewrite newFunctionFrom_closed_form.
    destruct (mapM types.Arn _) as [arns|];
      [destruct (vpcIdMissing c' || imageUriMissing code')|]; split; discriminate. }
  intros H.
  apply newFunctionFrom_Ok_inv in H as (arns & _ & _ & _ & ->). cbn.
  repeat split.
  - destruct (types.c_Environment c); reflexivity.
  - destruct (types.c_TracingConfig c); reflexivity.
  - destruct (types.c_SnapStart c); reflexivity.
  - destruct (types.c_ImageConfigResponse c ≫= types.icr_ImageConfig) as [[? ? ?]|]; reflexivity.
Qed.

Lemma newFunctionFrom_copies_configuration_witness :
  exists fn,
    newFunctionFrom (Some (layeredConfiguration (Some "vpc-1"))) (Some archiveLocation)
      (Some {["owner" := "team"]}) = Ok (Some fn)
    /\ FunctionName fn = Some "hello"
    /\ MemorySize fn = Some 256%Z
    /\ Tags_ fn = Some {["owner" := "team"]}
    /\ (types.Variables <$> Environment fn) = Some (Some {["KEY" := "value"]}).
Proof.
  eexists. split; [reflexivity|].
  edestruct (newFunctionFrom_copies_configuration (layeredConfiguration (Some "vpc-1"))
               (Some archiveLocation) (Some {["owner" := "team"]}))
    as [_ Hfields].
  destruct (Hfields eq_refl)
    as (Hname & _ & _ & _ & _ & _ & Hmem & _ & _ & _ & _ & _ & _ & Htags & Henv & _).
  rewrite Hname, Hmem, Htags, Henv. repeat split.
Defined.

(** X5. The layer list of a reconstruction is the list of the ARNs of the
    remote layers, in order; it is the nil list when there is no layer, and
    the empty list after normalization. *)
Theorem newFunctionFrom_layers (r : Function -> string) (c : types.FunctionConfiguration)
    (code : option types.FunctionCodeLocation) (tags : Tags) (fn : Function) :
  newFunctionFrom (Some c) code tags = Ok (Some fn) ->
  exists arns,
    Some <$> arns = types.Arn <$> default [] (types.c_Layers c)
    /\ Layers fn = (if arns is [] then None else Some arns)
    /\ Layers (fillDefaults r fn) = Some arns.
Proof.
  intros H. apply newFunctionFrom_Ok_inv in H as (arns & Harns & _ & _ & ->).
  exists arns. split; [|split].
  - revert arns Harns. induction (default [] (types.c_Layers c)) as [|layer rest IH];
      intros arns; cbn.
    + intros [= <-]. reflexivity.
    + destruct (types.Arn layer) as [arn|]; cbn; [|discriminate].
      destruct (mapM types.Arn rest) as [arns'|]; cbn; [|discriminate].
      intros [= <-]. cbn. f_equal. apply IH. reflexivity.
  - reflexivity.
  - rewrite fillDefaults_fields. cbn. destruct arns; reflexivity.
Qed.

Lemma newFunctionFrom_layers_witness :
  exists fn,
    newFunctionFrom (Some (layeredConfiguration None)) None None = Panic
    /\ newFunctionFrom (Some (layeredConfiguration (Some ""))) (Some archiveLocation) None
       = Ok (Some fn)
    /\ Layers fn = Some [ "arn:aws:lambda:us-east-1:123456789012:layer:a:1";
                          "arn:aws:lambda:us-east-1:123456789012:layer:b:2" ].
Proof.
  eexists. split; [reflexivity|]. split; [reflexivity|].
  edestruct (newFunctionFrom_layers (fun _ => "") (layeredConfiguration (Some ""))
               (Some archiveLocation) None) as (arns & Harns & Hlayers & _);
    [reflexivity|].
  rewrite Hlayers. destruct arns as [|a [|b [|? ?]]]; try discriminate Harns.
  injection Harns as -> ->. reflexivity.
Defined.

(** X6. A remote function outside any VPC, which the service reports with
    an empty VPC id, is reconstructed without VPC configuration; with a VPC
    id that is not empty the subnets, the security groups and the dual-stack
    flag are carried over, and the VPC id itself is not. *)
Theorem newFunctionFrom_vpc (c : types.FunctionConfiguration)
    (code : option types.FunctionCodeLocation) (tags : Tags) (fn : Function) :
  newFunctionFrom (Some c) code tags = Ok (Some fn) ->
  match types.c_VpcConfig c with
  | None => VpcConfig fn = None
  | Some v =>
      exists vpcId,
        types.VpcId v = Some vpcId
        /\ VpcConfig fn =
           if String.eqb vpcId "" then None
           else Some {| types.Ipv6AllowedForDualStack := types.vr_Ipv6AllowedForDualStack v;
                        types.SecurityGroupIds := types.vr_SecurityGroupIds v;
                        types.SubnetIds := types.vr_SubnetIds v |}
  end.
Proof.
  intros H. apply newFunctionFrom_Ok_inv in H as (arns & _ & Hvpc & _ & ->).
  unfold vpcIdMissing in Hvpc. cbn.
  destruct (types.c_VpcConfig c) as [v|]; [|reflexivity]. cbn.
  destruct (types.VpcId v) as [vpcId|]; [|discriminate].
  exists vpcId. split; reflexivity.
Qed.

Lemma newFunctionFrom_vpc_witness :
  exists fn1 fn2,
    newFunctionFrom (Some (layeredConfiguration (Some ""))) (Some archiveLocation) None
      = Ok (Some fn1)
    /\ VpcConfig fn1 = None
    /\ newFunctionFrom (Some (layeredConfiguration (Some "vpc-1"))) (Some archiveLocation) None
       = Ok (Some fn2)
    /\ VpcConfig fn2 = Some {| types.Ipv6AllowedForDualStack := Some false;
                               types.SecurityGroupIds := Some ["sg-1"];
                               types.SubnetIds := Some ["subnet-1"; "subnet-2"] |}.
Proof.
  do 2 eexists. split; [reflexivity|]. split; [|split; [reflexivity|]].
  - edestruct (newFunctionFrom_vpc (layeredConfiguration (Some "")) (Some archiveLocation) None)
      as (vpcId & Hid & Hvpc); [reflexivity|].
    injection Hid as <-. exact Hvpc.
  - edestruct (newFunctionFrom_vpc (layeredConfiguration (Some "vpc-1"))
                 (Some archiveLocation) None) as (vpcId & Hid & Hvpc); [reflexivity|].
    injection Hid as <-. exact Hvpc.
Defined.

(** X7. Whether a reconstruction is an image definition depends on the
    repository type of the code location alone: with the repository type
    ECR it has the package type Image and the location's image URI as its
    code; with any other or no repository type it has the empty package
    type and no code, whatever package type the configuration declares. *)
Theorem newFunctionFrom_image_by_repository_type (c : types.FunctionConfiguration)
    (code : option types.FunctionCodeLocation) (tags : Tags) (fn : Function) :
  newFunctionFrom (Some c) code tags = Ok (Some fn) ->
  (codeIsECR code = true ->
   PackageType fn = types.PackageTypeImage
   /\ exists uri,
        code ≫= types.cl_ImageUri = Some uri
        /\ (types.ImageUri <$> Code fn) = Some (Some uri))
  /\ (codeIsECR code = false -> PackageType fn = "" /\ Code fn = None).
Proof.
  intros H. apply newFunctionFrom_Ok_inv in H as (arns & _ & _ & Huri & ->).
  unfold imageUriMissing, locationHasImageUri in Huri. cbn.
  destruct (codeIsECR code) eqn:Hecr; cbn in *; split; try discriminate; auto.
  intros _. split; [reflexivity|].
  destruct code as [[[uri|] ? ? ?]|]; cbn in *; try discriminate. eauto.
Qed.

Lemma newFunctionFrom_image_by_repository_type_witness :
  exists fn1 fn2,
    newFunctionFrom (Some (remoteConfiguration "hello" "Image" "digest"))
      (Some (imageLocation (Some "ECR"))) None = Ok (Some fn1)
    /\ PackageType fn1 = "Image"
    /\ (types.ImageUri <$> Code fn1) = Some (Some sampleImageUri)
    /\ newFunctionFrom (Some (remoteConfiguration "hello" "Zip" "digest"))
         (Some archiveLocation) None = Ok (Some fn2)
    /\ PackageType fn2 = ""
    /\ Code fn2 = None.
Proof.
  do 2 eexists. split; [vm_compute; reflexivity|].
  pose proof (newFunctionFrom_image_by_repository_type
                (remoteConfiguration "hello" "Image" "digest")
                (Some (imageLocation (Some "ECR"))) None _ eq_refl) as [Himage _].
  pose proof (newFunctionFrom_image_by_repository_type
                (remoteConfiguration "hello" "Zip" "digest")
                (Some archiveLocation) None _ eq_refl) as [_ Harchive].
  specialize (Himage eq_refl). specialize (Harchive eq_refl).
  destruct Himage as (Htype & uri & Huri & Hcode).
  split; [exact Htype|]. split; [vm_compute; reflexivity|].
  split; [vm_compute; reflexivity|]. exact Harchive.
Defined.

(** ** Update validation of reconstructed and of normalized definitions *)

Lemma validateUpdateFunction_fillDefaults (r : Function -> string)
    (conf : option types.FunctionConfiguration) (code : option types.FunctionCodeLocation)
    (fn : Function) :
  validateUpdateFunction conf code (Some (fillDefaults r fn))
  = validateUpdateFunction conf code (Some fn).
Proof.
  unfold validateUpdateFunction. rewrite fillDefaults_fields. reflexivity.
Qed.

(** X8. The reconstruction of a remote function, normalized, passes the
    update validation against the very state it was reconstructed from
    exactly when the code location is in the image registry, or it has no
    image URI and the configuration does not declare the package type
    Image. *)
Theorem reconstruction_validates_iff (r : Function -> string)
    (c : types.FunctionConfiguration) (code : option types.FunctionCodeLocation)
    (tags : Tags) (fn : Function) :
  newFunctionFrom (Some c) code tags = Ok (Some fn) ->
  validateUpdateFunction (Some c) code (Some (fillDefaults r fn)) = Ok tt
  <-> codeIsECR code = true
      \/ (locationHasImageUri code = false
          /\ types.c_PackageType c <> types.PackageTypeImage).
Proof.
  intros H. rewrite validateUpdateFunction_fillDefaults, validateUpdateFunction_cases.
  apply newFunctionFrom_Ok_inv in H as (arns & _ & _ & Huri & ->).
  unfold imageUriMissing in Huri.
  assert (codeHasImageUri (Code (reconstruction c code tags arns))
          = codeIsECR code && locationHasImageUri code) as ->.
  { cbn. destruct code as [[uri ? ? ?]|]; [|reflexivity]. cbn.
    destruct (String.eqb _ _); reflexivity. }
  assert (String.eqb (PackageType (reconstruction c code tags arns)) packageTypeImage
          = codeIsECR code) as ->.
  { cbn. destruct (codeIsECR code); reflexivity. }
  destruct (String.eqb_spec (types.c_PackageType c) types.PackageTypeImage) as [Hp|Hp];
    destruct (codeIsECR code), (locationHasImageUri code); cbn in *;
    try discriminate; split; intros Hgoal; try reflexivity; try discriminate; auto;
    destruct Hgoal as [?|[? ?]]; congruence.
Qed.

Lemma reconstruction_validates_iff_witness :
  validateUpdateFunction (Some (remoteConfiguration "hello" "Zip" "digest"))
    (Some archiveLocation)
    (Some (fillDefaults (fun _ => "/aws/lambda/hello")
             (reconstruction (remoteConfiguration "hello" "Zip" "digest")
                (Some archiveLocation) None []))) = Ok tt
  /\ validateUpdateFunction (Some (remoteConfiguration "hello" "Image" "digest"))
       (Some (imageLocation None))
       (Some (fillDefaults (fun _ => "/aws/lambda/hello")
                (reconstruction (remoteConfiguration "hello" "Image" "digest")
                   (Some (imageLocation None)) None []))) <> Ok tt.
Proof.
  split.
  - apply (reconstruction_validates_iff _ _ _ None); [reflexivity|].
    right. split; [reflexivity | discriminate].
  - intros Hok.
    apply (reconstruction_validates_iff _ _ _ None) in Hok; [|reflexivity].
    destruct Hok as [Hecr|[Huri _]]; discriminate.
Defined.

(** X9. Normalization never changes the outcome of the update validation:
    validating the normalized definition, as [Diff] does, is validating the
    definition as loaded. *)
Theorem validation_ignores_normalization (r : Function -> string)
    (conf : option types.FunctionConfiguration) (code : option types.FunctionCodeLocation)
    (fn : option Function) :
  validateUpdateFunction conf code (fillDefaultValues r fn)
  = validateUpdateFunction conf code fn.
Proof.
  destruct fn as [fn|]; [|reflexivity]. apply validateUpdateFunction_fillDefaults.
Qed.

(** X10. The update validation panics exactly when there is a current
    configuration and no definition; on a definition it returns nil or
    [errCannotUpdateImageAndZip] and nothing else; and against a present
    configuration it returns nil exactly when both sides carry an image
    URI, or neither side carries one and neither declares the package type
    Image. *)
Theorem validateUpdateFunction_outcomes (conf : option types.FunctionConfiguration)
    (code : option types.FunctionCodeLocation) :
  (validateUpdateFunction conf code None = Panic <-> conf <> None)
  /\ (forall fn,
        validateUpdateFunction conf code (Some fn) = Ok tt
        \/ validateUpdateFunction conf code (Some fn) = Err errCannotUpdateImageAndZip)
  /\ (forall c fn,
        validateUpdateFunction (Some c) code (Some fn) = Ok tt
        <-> (locationHasImageUri code = true /\ codeHasImageUri (Code fn) = true)
            \/ (locationHasImageUri code = false
                /\ codeHasImageUri (Code fn) = false
                /\ types.c_PackageType c <> types.PackageTypeImage
                /\ PackageType fn <> packageTypeImage)).
Proof.
  split; [|split].
  - destruct conf; cbn; split; congruence.
  - intros fn. destruct conf as [c|]; [|left; reflexivity].
    rewrite validateUpdateFunction_cases. destruct (_ || _); auto.
  - intros c fn. rewrite validateUpdateFunction_cases.
    destruct (String.eqb_spec (types.c_PackageType c) types.PackageTypeImage);
      destruct (String.eqb_spec (PackageType fn) packageTypeImage);
      destruct (locationHasImageUri code), (codeHasImageUri (Code fn)); cbn;
      split; intros Hgoal; try reflexivity; try discriminate; auto;
      try (right; repeat split; auto; discriminate);
      destruct Hgoal as [[? ?]|(? & ? & ? & ?)]; congruence.
Qed.


(** ** Failures and successes of [Diff] *)

Lemma FunctionName_fillDefaults (r : Function -> string) (fn : Function) :
  FunctionName (fillDefaults r fn) = FunctionName fn.
Proof. rewrite fillDefaults_fields. reflexivity. Qed.

Lemma bind_lift_Ok {A B} (a : A) (k : A -> M B) : bind (lift (Ok a)) k = k a.
Proof. cbn. destruct (k a). reflexivity. Qed.

Lemma bind_lift_Err {A B} (e : error) (k : A -> M B) : bind (lift (Err e)) k = ([], Err e).
Proof. reflexivity. Qed.

Lemma bind_lift_Panic {A B} (k : A -> M B) : bind (lift Panic) k = ([], Panic).
Proof. reflexivity. Qed.

Lemma bind_call_Ok {A B} (c : Call) (a : A) (k : A -> M B) :
  bind (call c (Ok a)) k = (Remote c :: (k a).1, (k a).2).
Proof. cbn. destruct (k a). reflexivity. Qed.

Lemma bind_print {B} (s : string) (k : unit -> M B) :
  bind (fmt_Print s) k = (Stdout s :: (k tt).1, (k tt).2).
Proof. cbn. destruct (k tt). reflexivity. Qed.

(** X11. [Diff] fails before any remote call and before printing anything
    when the exclude file cannot be read or the function definition cannot
    be loaded, with the error wrapped by the step that failed; on a loaded
    definition without a function name it panics, again before any call. *)
Theorem Diff_fails_before_fetch (X : Collaborators) (app : App) (opt : DiffOption)
    (excludeFile : string) :
  ExcludeFile opt = Some excludeFile ->
  (forall e,
     expandExcludeFile X excludeFile = Err e ->
     Diff X app opt = ([], Err (wrap "failed to parse exclude-file" e)))
  /\ (forall excludes path e,
        expandExcludeFile X excludeFile = Ok excludes ->
        do_FunctionFilePath opt = Some path ->
        loadFunction app path = Err e ->
        Diff X app opt = ([], Err (wrap "failed to load function" e)))
  /\ (forall excludes path fn,
        expandExcludeFile X excludeFile = Ok excludes ->
        do_FunctionFilePath opt = Some path ->
        loadFunction app path = Ok fn ->
        FunctionName fn = None ->
        Diff X app opt = ([], Panic)).
Proof.
  intros Hfile. unfold Diff, diffDefinitions. rewrite Hfile. cbn [deref].
  rewrite bind_lift_Ok. split; [|split].
  - intros e ->. reflexivity.
  - intros excludes path e Hexp Hpath Hload.
    rewrite Hexp. cbn [wrapErr deref]. rewrite bind_lift_Ok, Hpath. cbn [deref].
    rewrite bind_lift_Ok, Hload. reflexivity.
  - intros excludes path fn Hexp Hpath Hload Hname.
    rewrite Hexp. cbn [wrapErr deref]. rewrite bind_lift_Ok, Hpath. cbn [deref].
    rewrite bind_lift_Ok, Hload. cbn [wrapErr]. rewrite bind_lift_Ok.
    rewrite FunctionName_fillDefaults, Hname. reflexivity.
Qed.

Lemma Diff_fails_before_fetch_witness :
  Diff (collaboratorsWith (fun _ => Err "no such file") (fun q => Ok q) (Ok ""))
       (appWith (Ok (definitionOf "hello" None "Zip")) (Ok (archiveOutput "digest")))
       (sampleDiffOption false)
    = ([], Err "failed to parse exclude-file: no such file")
  /\ Diff sampleCollaborators
       (appWith (Err "invalid character") (Ok (archiveOutput "digest")))
       (sampleDiffOption false)
     = ([], Err "failed to load function: invalid character")
  /\ Diff sampleCollaborators
       (appWith (Ok namelessDefinition) (Ok (archiveOutput "digest")))
       (sampleDiffOption false)
     = ([], Panic).
Proof.
  split; [|split].
  - destruct (Diff_fails_before_fetch
                (collaboratorsWith (fun _ => Err "no such file") (fun q => Ok q) (Ok ""))
                (appWith (Ok (definitionOf "hello" None "Zip")) (Ok (archiveOutput "digest")))
                (sampleDiffOption false) ".lambdaignore" eq_refl) as (H & _ & _).
    apply (H "no such file"). reflexivity.
  - destruct (Diff_fails_before_fetch sampleCollaborators
                (appWith (Err "invalid character") (Ok (archiveOutput "digest")))
                (sampleDiffOption false) ".lambdaignore" eq_refl) as (_ & H & _).
    apply (H [] "function.json" "invalid character"); reflexivity.
  - destruct (Diff_fails_before_fetch sampleCollaborators
                (appWith (Ok namelessDefinition) (Ok (archiveOutput "digest")))
                (sampleDiffOption false) ".lambdaignore" eq_refl) as (_ & _ & H).
    apply (H [] "function.json" namelessDefinition); reflexivity.
Defined.

(** The run of [Diff] up to the answer of the service. *)
Lemma diffDefinitions_fetch (X : Collaborators) (app : App) (opt : DiffOption)
    (excludeFile path name : string) (excludes : list string) (fn : Function) :
  ExcludeFile opt = Some excludeFile ->
  expandExcludeFile X excludeFile = Ok excludes ->
  do_FunctionFilePath opt = Some path ->
  loadFunction app path = Ok fn ->
  FunctionName fn = Some name ->
  diffDefinitions X app opt =
  bind (call (GetFunction name)
          (wrapErr ("failed to GetFunction " +:+ name) (lambda_GetFunction app name)))
    (fun res =>
       conf <- lift (deref (gf_Configuration res)) ;;
       currentCodeSha256 <- lift (deref (types.c_CodeSha256 (fc_Configuration conf))) ;;
       packageType <- lift (deref (fc_PackageType conf)) ;;
       latestFunc <- lift (newFunctionFrom
                             (Some (withPackageType packageType (fc_Configuration conf)))
                             (gf_Code res) (gf_Tags res)) ;;
       opts <- lift (let ignore := aws_ToString (Ignore opt) in
                     if negb (String.eqb ignore "") then
                       res_bind (wrapErr ("failed to parse ignore query: " +:+ ignore)
                                   (gojq_Parse X ignore))
                                (fun p => Ok [p])
                     else Ok []) ;;
       diff <- lift (wrapErr "failed to make diff"
                       (jsondiff_Diff X
                          (functionArn app name,
                           marshalAny X (fillDefaultValues (resolveLogGroup X) latestFunc))
                          (path, marshalAny X (Some (fillDefaults (resolveLogGroup X) fn)))
                          opts)) ;;
       fmt_Print (coloredDiff X diff) ;;;
       ret {| dv_Excludes := Excludes opt ++ excludes;
              dv_path := path;
              dv_newFunc := fillDefaults (resolveLogGroup X) fn;
              dv_name := name;
              dv_latest := Some (withPackageType packageType (fc_Configuration conf));
              dv_code := gf_Code res;
              dv_currentCodeSha256 := currentCodeSha256;
              dv_packageType := packageType |}).
Proof.
  intros Hfile Hexp Hpath Hload Hname. unfold diffDefinitions.
  rewrite Hfile. cbn [deref]. rewrite bind_lift_Ok, Hexp. cbn [wrapErr].
  rewrite bind_lift_Ok, Hpath. cbn [deref]. rewrite bind_lift_Ok, Hload. cbn [wrapErr].
  rewrite bind_lift_Ok, FunctionName_fillDefaults, Hname. cbn [deref].
  rewrite bind_lift_Ok. reflexivity.
Qed.

(** X12. When [GetFunction] fails, [Diff] returns that error wrapped with
    the function name, after the one call and with nothing printed; a
    response without configuration, or with a configuration without code
    digest or without package type, makes [Diff] panic at that point. *)
Theorem Diff_fetch_failure (X : Collaborators) (app : App) (opt : DiffOption)
    (excludeFile path name : string) (excludes : list string) (fn : Function) :
  ExcludeFile opt = Some excludeFile ->
  expandExcludeFile X excludeFile = Ok excludes ->
  do_FunctionFilePath opt = Some path ->
  loadFunction app path = Ok fn ->
  FunctionName fn = Some name ->
  (forall e,
     lambda_GetFunction app name = Err e ->
     Diff X app opt
     = ([Remote (GetFunction name)], Err (wrap ("failed to GetFunction " +:+ name) e)))
  /\ (forall res,
        lambda_GetFunction app name = Ok res ->
        gf_Configuration res = None
        \/ (exists conf,
              gf_Configuration res = Some conf
              /\ (types.c_CodeSha256 (fc_Configuration conf) = None
                  \/ fc_PackageType conf = None)) ->
        Diff X app opt = ([Remote (GetFunction name)], Panic)).
Proof.
  intros Hfile Hexp Hpath Hload Hname. unfold Diff.
  rewrite (diffDefinitions_fetch _ _ _ _ _ _ _ _ Hfile Hexp Hpath Hload Hname).
  split.
  - intros e ->. reflexivity.
  - intros res -> [Hconf|(conf & Hconf & Hmissing)]; cbn [wrapErr];
      rewrite bind_call_Ok, Hconf; cbn [deref]; [reflexivity|].
    rewrite bind_lift_Ok.
    destruct (types.c_CodeSha256 (fc_Configuration conf)) as [sha|] eqn:Hsha;
      cbn [deref]; [|reflexivity].
    destruct Hmissing as [Hnone|Hnone]; [discriminate|].
    rewrite bind_lift_Ok, Hnone. reflexivity.
Qed.

Lemma Diff_fetch_failure_witness :
  Diff sampleCollaborators
    (appWith (Ok (definitionOf "hello" None "Zip")) (Err "ResourceNotFoundException"))
    (sampleDiffOption false)
  = ([Remote (GetFunction "hello")],
     Err "failed to GetFunction hello: ResourceNotFoundException")
  /\ Diff sampleCollaborators
       (appWith (Ok (definitionOf "hello" None "Zip"))
          (Ok {| gf_Code := None; gf_Configuration := None; gf_Tags := None |}))
       (sampleDiffOption false)
     = ([Remote (GetFunction "hello")], Panic)
  /\ Diff sampleCollaborators
       (appWith (Ok (definitionOf "hello" None "Zip")) (Ok untypedOutput))
       (sampleDiffOption false)
     = ([Remote (GetFunction "hello")], Panic).
Proof.
  split; [|split].
  - destruct (Diff_fetch_failure sampleCollaborators
                (appWith (Ok (definitionOf "hello" None "Zip"))
                   (Err "ResourceNotFoundException"))
                (sampleDiffOption false) ".lambdaignore" "function.json" "hello" []
                (definitionOf "hello" None "Zip") eq_refl eq_refl eq_refl eq_refl eq_refl)
      as [H _].
    apply (H "ResourceNotFoundException"). reflexivity.
  - destruct (Diff_fetch_failure sampleCollaborators
                (appWith (Ok (definitionOf "hello" None "Zip"))
                   (Ok {| gf_Code := None; gf_Configuration := None; gf_Tags := None |}))
                (sampleDiffOption false) ".lambdaignore" "function.json" "hello" []
                (definitionOf "hello" None "Zip") eq_refl eq_refl eq_refl eq_refl eq_refl)
      as [_ H].
    eapply H; [reflexivity|]. left. reflexivity.
  - destruct (Diff_fetch_failure sampleCollaborators
                (appWith (Ok (definitionOf "hello" None "Zip")) (Ok untypedOutput))
                (sampleDiffOption false) ".lambdaignore" "function.json" "hello" []
                (definitionOf "hello" None "Zip") eq_refl eq_refl eq_refl eq_refl eq_refl)
      as [_ H].
    eapply H; [reflexivity|]. right. eexists. split; [reflexivity|]. right. reflexivity.
Defined.



(** The events of [Diff] up to the printing of the structural diff. *)
Lemma diffDefinitions_trace (X : Collaborators) (app : App) (opt : DiffOption)
    (tr : list Event) (vars : DiffVars) :
  diffDefinitions X app opt = (tr, Ok vars) ->
  exists diff, tr = [Remote (GetFunction (dv_name vars)); Stdout (coloredDiff X diff)].
Proof.
  unfold diffDefinitions, fmt_Print. intros H.
  repeat match type of H with
         | bind _ _ = _ =>
             apply bind_Ok_inv in H;
             let e := fresh "E" in destruct H as (? & ? & ? & e & H & ->)
         end.
  injection H as <- <-. cbn [dv_name].
  repeat match goal with
         | E : lift _ = (_, Ok _) |- _ => injection E as <- E
         | E : call _ _ = (_, Ok _) |- _ => injection E as <- E
         | E : emit _ = (_, Ok _) |- _ => injection E as <- E
         end.
  eexists. reflexivity.
Qed.

(** X14. Without the digest comparison, a [Diff] whose structural diff is
    printed and whose update validation passes returns nil, having fetched
    the function once and printed the colored structural diff and nothing
    else; the response it fetched has a configuration with a code digest and
    a package type. *)
Theorem Diff_without_code_sha256 (X : Collaborators) (app : App) (opt : DiffOption)
    (tr : list Event) (vars : DiffVars) :
  diffDefinitions X app opt = (tr, Ok vars) ->
  validateUpdateFunction (dv_latest vars) (dv_code vars) (Some (dv_newFunc vars)) = Ok tt ->
  default false (CodeSha256 opt) = false ->
  Diff X app opt = (tr, Ok tt)
  /\ (exists diff, tr = [Remote (GetFunction (dv_name vars)); Stdout (coloredDiff X diff)])
  /\ exists res conf,
       lambda_GetFunction app (dv_name vars) = Ok res
       /\ gf_Configuration res = Some conf
       /\ is_Some (types.c_CodeSha256 (fc_Configuration conf))
       /\ is_Some (fc_PackageType conf).
Proof.
  intros Hdefs Hvalid Hreq. split; [|split; [eapply diffDefinitions_trace, Hdefs|]].
  - rewrite (Diff_after_definitions _ _ _ _ _ Hdefs), Hvalid.
    unfold diffCodeSha256. rewrite Hreq. cbn. rewrite app_nil_r. reflexivity.
  - destruct (diffDefinitions_vars _ _ _ _ _ Hdefs)
      as (path & fn0 & res & conf & _ & _ & _ & _ & Hres & Hconf & Hp & _ & _ & Hs).
    exists res, conf. rewrite Hp, Hs. eauto.
Qed.

Lemma Diff_without_code_sha256_witness :
  Diff (collaboratorsWith (fun _ => Ok []) (fun q => Ok q) (Ok "-old"))
       (appWith (Ok (definitionOf "hello" None "Zip")) (Ok (archiveOutput "digest")))
       (sampleDiffOption false)
  = ([Remote (GetFunction "hello"); Stdout ("<red>-old</red>" +:+ nl)], Ok tt).
Proof.
  edestruct (Diff_without_code_sha256
               (collaboratorsWith (fun _ => Ok []) (fun q => Ok q) (Ok "-old"))
               (appWith (Ok (definitionOf "hello" None "Zip")) (Ok (archiveOutput "digest")))
               (sampleDiffOption false)) as [Hrun _];
    [vm_compute; reflexivity | reflexivity | reflexivity |].
  exact Hrun.
Defined.

(** X15. [Diff] returns nil only when the structural diff was printed and
    the update validation passed, and, if the digest comparison was
    requested, only for a remote package type that lower-cases to [zip]. *)
Theorem Diff_Ok_only_if_valid (X : Collaborators) (app : App) (opt : DiffOption)
    (tr : list Event) :
  Diff X app opt = (tr, Ok tt) ->
  exists tr0 vars,
    diffDefinitions X app opt = (tr0, Ok vars)
    /\ validateUpdateFunction (dv_latest vars) (dv_code vars) (Some (dv_newFunc vars)) = Ok tt
    /\ (default false (CodeSha256 opt) = true ->
        strings_ToLower X (dv_packageType vars) = "zip").
Proof.
  unfold Diff. intros H.
  apply bind_Ok_inv in H as (tr0 & vars & tr1 & Hdefs & H & _).
  apply bind_Ok_inv in H as (tr2 & [] & tr3 & Hvalid & H & _).
  injection Hvalid as _ Hvalid.
  exists tr0, vars. split; [exact Hdefs|]. split; [exact Hvalid|].
  intros Hreq. unfold diffCodeSha256 in H. rewrite Hreq in H.
  destruct (String.eqb_spec (strings_ToLower X (dv_packageType vars)) "zip") as [Hzip|_];
    [exact Hzip | discriminate H].
Qed.

Lemma Diff_Ok_only_if_valid_witness :
  exists tr0 vars,
    diffDefinitions sampleCollaborators
      (sampleApp (definitionOf "hello" None "Zip") (archiveOutput "sha256-of-src") [] [])
      (sampleDiffOption true) = (tr0, Ok vars)
    /\ validateUpdateFunction (dv_latest vars) (dv_code vars) (Some (dv_newFunc vars)) = Ok tt
    /\ dv_packageType vars = "Zip".
Proof.
  edestruct (Diff_Ok_only_if_valid sampleCollaborators
               (sampleApp (definitionOf "hello" None "Zip") (archiveOutput "sha256-of-src") [] [])
               (sampleDiffOption true)) as (tr0 & vars & Hdefs & Hvalid & _);
    [vm_compute; reflexivity|].
  exists tr0, vars. split; [exact Hdefs|]. split; [exact Hvalid|].
  vm_compute in Hdefs. injection Hdefs as _ <-. reflexivity.
Defined.

Lemma remoteCalls_bind {A B} (m : M A) (k : A -> M B) :
  remoteCalls (bind m k).1
  = remoteCalls m.1 ++ match m.2 with
                       | Ok a => remoteCalls (k a).1
                       | _ => []
                       end.
Proof.
  destruct m as [tr [a| |]]; cbn; rewrite ?app_nil_r; try reflexivity.
  destruct (k a) as [tr' r]. cbn. unfold remoteCalls. apply omap_app.
Qed.

Lemma callsSatisfy_False_nil {A} (m : M A) :
  callsSatisfy (fun _ => False) m -> remoteCalls m.1 = [].
Proof.
  unfold callsSatisfy. destruct (remoteCalls m.1) as [|c l]; [reflexivity|].
  intros H. inversion H as [|? ? []].
Qed.

Lemma diffCodeSha256_no_calls (X : Collaborators) (app : App) (opt : DiffOption)
    (excludes : list string) (name packageType sha : string) :
  callsSatisfy (fun _ => False) (diffCodeSha256 X app opt excludes name packageType sha).
Proof.
  unfold diffCodeSha256.
  destruct (default false (CodeSha256 opt)); auto with runs.
  destruct (negb _); auto with runs.
  run_steps. destruct (negb _); auto with runs.
Qed.

(** X16. [Diff] issues at most one remote call, and that call fetches the
    function named in the loaded definition. *)
Theorem Diff_fetches_loaded_function_once (X : Collaborators) (app : App) (opt : DiffOption) :
  remoteCalls (Diff X app opt).1 = []
  \/ exists path fn name,
       do_FunctionFilePath opt = Some path
       /\ loadFunction app path = Ok fn
       /\ FunctionName fn = Some name
       /\ remoteCalls (Diff X app opt).1 = [GetFunction name].
Proof.
  unfold Diff. rewrite remoteCalls_bind.
  assert (forall vars : DiffVars,
            remoteCalls
              (lift (validateUpdateFunction (dv_latest vars) (dv_code vars)
                       (Some (dv_newFunc vars))) ;;;
               diffCodeSha256 X app opt (dv_Excludes vars) (dv_name vars)
                 (dv_packageType vars) (dv_currentCodeSha256 vars)).1 = []) as Hrest.
  { intros vars. apply callsSatisfy_False_nil.
    apply callsSatisfy_bind; [auto with runs | intros _]. apply diffCodeSha256_no_calls. }
  assert (remoteCalls (diffDefinitions X app opt).1
          ++ match (diffDefinitions X app opt).2 with
             | Ok vars =>
                 remoteCalls
                   (lift (validateUpdateFunction (dv_latest vars) (dv_code vars)
                            (Some (dv_newFunc vars))) ;;;
                    diffCodeSha256 X app opt (dv_Excludes vars) (dv_name vars)
                      (dv_packageType vars) (dv_currentCodeSha256 vars)).1
             | _ => []
             end
          = remoteCalls (diffDefinitions X app opt).1) as ->.
  { destruct (diffDefinitions X app opt).2; rewrite ?Hrest; apply app_nil_r. }
  destruct (ExcludeFile opt) as [excludeFile|] eqn:Hfile;
    [|left; unfold diffDefinitions; rewrite Hfile; reflexivity].
  destruct (expandExcludeFile X excludeFile) as [excludes| |] eqn:Hexp;
    [|left; unfold diffDefinitions; rewrite Hfile; cbn [deref];
      rewrite bind_lift_Ok, Hexp; reflexivity ..].
  destruct (do_FunctionFilePath opt) as [path|] eqn:Hpath;
    [|left; unfold diffDefinitions; rewrite Hfile; cbn [deref];
      rewrite bind_lift_Ok, Hexp; cbn [wrapErr]; rewrite bind_lift_Ok, Hpath; reflexivity].
  destruct (loadFunction app path) as [fn| |] eqn:Hload;
    [|left; unfold diffDefinitions; rewrite Hfile; cbn [deref];
      rewrite bind_lift_Ok, Hexp; cbn [wrapErr]; rewrite bind_lift_Ok, Hpath; cbn [deref];
      rewrite bind_lift_Ok, Hload; reflexivity ..].
  destruct (FunctionName fn) as [name|] eqn:Hname;
    [|left; unfold diffDefinitions; rewrite Hfile; cbn [deref];
      rewrite bind_lift_Ok, Hexp; cbn [wrapErr]; rewrite bind_lift_Ok, Hpath; cbn [deref];
      rewrite bind_lift_Ok, Hload; cbn [wrapErr];
      rewrite bind_lift_Ok, FunctionName_fillDefaults, Hname; reflexivity].
  right. exists path, fn, name. split; [reflexivity|]. split; [exact Hload|].
  split; [exact Hname|].
  rewrite (diffDefinitions_fetch _ _ _ _ _ _ _ _ Hfile Hexp Hpath Hload Hname).
  rewrite remoteCalls_bind. cbn [call fst snd remoteCalls omap].
  change [GetFunction name] with ([GetFunction name] ++ []). f_equal.
  destruct (wrapErr _ _) as [res| |]; try reflexivity.
  apply callsSatisfy_False_nil. unfold fmt_Print. run_steps.
Qed.

(** ** [coloredDiff] *)

Lemma append_assoc (s1 s2 s3 : string) : (s1 +:+ s2) +:+ s3 = s1 +:+ (s2 +:+ s3).
Proof.
  induction s1 as [|c s1 IH]; [reflexivity|].
  change (String c ((s1 +:+ s2) +:+ s3) = String c (s1 +:+ (s2 +:+ s3))).
  f_equal. exact IH.
Qed.

Lemma append_nil_r (s : string) : s +:+ "" = s.
Proof.
  induction s as [|c s IH]; [reflexivity|].
  change (String c (s +:+ "") = String c s). f_equal. exact IH.
Qed.

Lemma coloredDiff_foldr (X : Collaborators) (src : string) :
  coloredDiff X src
  = foldr (fun line rest => colorLine X line +:+ nl +:+ rest) "" (splitLines src).
Proof.
  unfold coloredDiff.
  assert (forall lines b,
            foldl (fun b line =>
                     if String.prefix "-" line then b +:+ color_RedString X line +:+ nl
                     else if String.prefix "+" line then b +:+ color_GreenString X line +:+ nl
                     else b +:+ line +:+ nl) b lines
            = b +:+ foldr (fun line rest => colorLine X line +:+ nl +:+ rest) "" lines) as H.
  { induction lines as [|line lines IH]; intros b; cbn [foldl foldr].
    - rewrite append_nil_r. reflexivity.
    - rewrite IH. unfold colorLine.
      destruct (String.prefix "-" line); [|destruct (String.prefix "+" line)];
        rewrite !append_assoc; reflexivity. }
  rewrite H. reflexivity.
Qed.

Lemma splitLines_unlines (s : string) :
  foldr (fun line rest => line +:+ nl +:+ rest) "" (splitLines s) = s +:+ nl.
Proof.
  induction s as [|c s IH]; cbn [splitLines]; [reflexivity|].
  destruct (Ascii.eqb_spec c (Ascii.ascii_of_nat 10)) as [->|Hc].
  - cbn [foldr]. rewrite IH. reflexivity.
  - destruct (splitLines s) as [|line lines]; cbn [foldr] in *.
    + destruct s; discriminate IH.
    + change (String c s +:+ nl) with (String c (s +:+ nl)). rewrite <- IH. reflexivity.
Qed.

(** X17. [coloredDiff] colors each line of its input by its first character
    alone (red after [-], green after [+]) and ends every line, the last
    one too, with a newline: the empty diff becomes a bare newline; and when
    the coloring changes no line of the input (colors disabled, or no line
    starting with [-] or [+]) the result is the input followed by a
    newline. *)
Theorem coloredDiff_lines (X : Collaborators) (src : string) :
  coloredDiff X src
    = foldr (fun line rest => colorLine X line +:+ nl +:+ rest) "" (splitLines src)
  /\ coloredDiff X "" = nl
  /\ ((forall line, line ∈ splitLines src -> colorLine X line = line) ->
      coloredDiff X src = src +:+ nl).
Proof.
  split; [apply coloredDiff_foldr|]. split; [reflexivity|].
  intros Hplain. rewrite coloredDiff_foldr, <- splitLines_unlines.
  induction (splitLines src) as [|line lines IH]; cbn [foldr]; [reflexivity|].
  rewrite Hplain by apply list_elem_of_here. rewrite IH; [reflexivity|].
  intros l Hl. apply Hplain, list_elem_of_further, Hl.
Qed.

Lemma coloredDiff_lines_witness :
  coloredDiff sampleCollaborators ("-old" +:+ nl +:+ "+new" +:+ nl +:+ " same")
    = "-old" +:+ nl +:+ "+new" +:+ nl +:+ " same" +:+ nl
  /\ coloredDiff (collaboratorsWith (fun _ => Ok []) (fun q => Ok q) (Ok ""))
       ("-old" +:+ nl +:+ "+new" +:+ nl +:+ " same")
     = "<red>-old</red>" +:+ nl +:+ "<green>+new</green>" +:+ nl +:+ " same" +:+ nl.
Proof.
  split; [|vm_compute; reflexivity].
  destruct (coloredDiff_lines sampleCollaborators
              ("-old" +:+ nl +:+ "+new" +:+ nl +:+ " same")) as (_ & _ & Hplain).
  rewrite Hplain; [vm_compute; reflexivity|].
  intros line _. unfold colorLine. cbn.
  destruct (String.prefix "-" line), (String.prefix "+" line); reflexivity.
Defined.


(** ** Pagination, failures and output of [Versions] *)

Lemma waitFor_inv {A} (request : Event) (rest : option (M A)) (tr : list Event) (r : Res A) :
  waitFor request rest = Some (tr, r) ->
  exists tr', rest = Some (tr', r) /\ tr = request :: tr'.
Proof.
  destruct rest as [[tr' r']|]; cbn; [|discriminate]. intros [= <- <-]. eauto.
Qed.

Lemma listAliasesLoop_trace (name : string) (resps : list (Res ListAliasesOutput))
    (marker : option string) (aliases out : gmap string (list string)) (tr : list Event) :
  listAliasesLoop name resps marker aliases = Some (tr, Ok out) ->
  tr = (fun m => Remote (ListAliases name m)) <$> (marker :: aliasMarkers resps).
Proof.
  revert marker aliases tr.
  induction resps as [|[res|e|] resps IH]; intros marker aliases tr; cbn;
    try discriminate.
  destruct (addAliases (default [] (la_Aliases res)) aliases) as [mid| |];
    try discriminate.
  destruct (la_NextMarker res) as [next|].
  - intros H. apply waitFor_inv in H as (tr' & H & ->). apply IH in H as ->. reflexivity.
  - intros [= <- _]. reflexivity.
Qed.

Lemma listVersionsLoop_trace (name : string) (resps : list (Res ListVersionsByFunctionOutput))
    (marker : option string) (acc versions : list types.FunctionConfiguration)
    (tr : list Event) :
  listVersionsLoop name resps marker acc = Some (tr, Ok versions) ->
  tr = (fun m => Remote (ListVersionsByFunction name m)) <$> (marker :: versionMarkers resps).
Proof.
  revert marker acc tr.
  induction resps as [|[res|e|] resps IH]; intros marker acc tr; cbn; try discriminate.
  destruct (lv_NextMarker res) as [next|].
  - intros H. apply waitFor_inv in H as (tr' & H & ->). apply IH in H as ->. reflexivity.
  - intros [= <- _]. reflexivity.
Qed.

(** X18. A successful listing first reads all alias pages, then all version
    pages; the first request of each listing carries no marker, and every
    later request carries the continuation marker of the page before it;
    a page without marker ends its listing, so later responses are never
    requested. *)
Theorem listing_follows_markers (X : Collaborators) (app : App) (name : string)
    (tr : list Event) (vo : versionsOutputs) :
  listVersions X app name = Some (tr, Ok vo) ->
  tr = ((fun m => Remote (ListAliases name m))
          <$> (None :: aliasMarkers (lambda_ListAliases app name)))
       ++ ((fun m => Remote (ListVersionsByFunction name m))
             <$> (None :: versionMarkers (lambda_ListVersionsByFunction app name))).
Proof.
  unfold listVersions. intros H.
  apply andThen_Ok_inv in H as (tr1 & aliases & tr2 & Ha & H & ->).
  apply andThen_Ok_inv in H as (tr3 & versions & tr4 & Hv & H & ->).
  injection H as <- _.
  apply listAliasesLoop_trace in Ha as ->. apply listVersionsLoop_trace in Hv as ->.
  rewrite app_nil_r. reflexivity.
Qed.

Lemma listing_follows_markers_witness :
  exists tr vo,
    listVersions sampleCollaborators
      (sampleVersionsApp (pagesAliases ++ [Err "never requested"])
                         (pagesAscending ++ [Err "never requested"])) "hello"
      = Some (tr, Ok vo)
    /\ tr = [ Remote (ListAliases "hello" None);
              Remote (ListAliases "hello" (Some "m1"));
              Remote (ListVersionsByFunction "hello" None);
              Remote (ListVersionsByFunction "hello" (Some "m1")) ].
Proof.
  do 2 eexists. split; [vm_compute; reflexivity|].
  erewrite (listing_follows_markers sampleCollaborators
              (sampleVersionsApp (pagesAliases ++ [Err "never requested"])
                                 (pagesAscending ++ [Err "never requested"])) "hello");
    [reflexivity | vm_compute; reflexivity].
Defined.

Lemma runsSatisfy_andThen {A B} (P : Call -> Prop) (m : option (M A))
    (k : A -> option (M B)) :
  runsSatisfy P m ->
  (forall tr a, m = Some (tr, Ok a) -> runsSatisfy P (k a)) ->
  runsSatisfy P (andThen m k).
Proof.
  unfold runsSatisfy. intros Hm Hk tr r.
  destruct m as [[tr1 [a| |]]|]; cbn; try discriminate.
  - destruct (k a) as [[tr2 r2]|] eqn:Hka; [|discriminate]. intros [= <- <-].
    unfold remoteCalls. rewrite omap_app. apply Forall_app. split.
    + eapply Hm. reflexivity.
    + eapply (Hk tr1 a); [reflexivity | exact Hka].
  - intros [= <- <-]. eapply Hm. reflexivity.
  - intros [= <- <-]. eapply Hm. reflexivity.
Qed.

Lemma runsSatisfy_lift {A} (P : Call -> Prop) (r : Res A) : runsSatisfy P (Some (lift r)).
Proof. intros tr r' [= <- _]. constructor. Qed.

Lemma runsSatisfy_run {A} (P : Call -> Prop) (m : M A) :
  callsSatisfy P m -> runsSatisfy P (Some m).
Proof. intros H tr r [= Hm]. unfold callsSatisfy in H. rewrite Hm in H. exact H. Qed.

Lemma listVersions_calls (X : Collaborators) (app : App) (name : string) :
  runsSatisfy (fun c => isRead c = true) (listVersions X app name).
Proof.
  unfold listVersions.
  apply runsSatisfy_andThen; [intros tr r; apply listAliasesLoop_calls | intros _ aliases _].
  apply runsSatisfy_andThen; [intros tr r; apply listVersionsLoop_calls | intros _ versions _].
  apply runsSatisfy_lift.
Qed.

Lemma printOutputs_calls (P : Call -> Prop) (X : Collaborators) (output : string)
    (vo : versionsOutputs) :
  callsSatisfy P (printOutputs X output vo).
Proof.
  unfold printOutputs, fmt_Println, fmt_Print.
  repeat match goal with |- context [if ?b then _ else _] => destruct b end;
    auto with runs.
Qed.

(** X19. When deletion is not requested, every remote call of [Versions] is
    a read: it lists aliases and versions and changes nothing, however the
    run ends. *)
Theorem Versions_listing_only_reads (X : Collaborators) (app : App) (opt : VersionsOption)
    (tr : list Event) (r : Res unit) :
  Delete opt = Some false ->
  Versions X app opt = Some (tr, r) ->
  Forall (fun c => isRead c = true) (remoteCalls tr).
Proof.
  intros Hdelete Hrun. revert tr r Hrun.
  change (runsSatisfy (fun c => isRead c = true) (Versions X app opt)).
  unfold Versions.
  apply runsSatisfy_andThen; [apply runsSatisfy_lift | intros _ path _].
  apply runsSatisfy_andThen; [apply runsSatisfy_lift | intros _ newFunc _].
  apply runsSatisfy_andThen; [apply runsSatisfy_lift | intros _ name _].
  apply runsSatisfy_andThen; [apply runsSatisfy_lift | intros tr0 delete Hd].
  rewrite Hdelete in Hd. injection Hd as _ <-.
  apply runsSatisfy_andThen; [apply listVersions_calls | intros _ vo _].
  apply runsSatisfy_run. apply callsSatisfy_bind; [auto with runs | intros output].
  apply printOutputs_calls.
Qed.

Lemma Versions_listing_only_reads_witness :
  exists tr r,
    Versions sampleCollaborators (sampleVersionsApp pagesAliasesFailing pagesAscending)
      (sampleVersionsOption "json") = Some (tr, r)
    /\ Forall (fun c => isRead c = true) (remoteCalls tr).
Proof.
  do 2 eexists. split; [vm_compute; reflexivity|].
  eapply (Versions_listing_only_reads sampleCollaborators
            (sampleVersionsApp pagesAliasesFailing pagesAscending)
            (sampleVersionsOption "json")); [reflexivity | vm_compute; reflexivity].
Defined.

(** The start of [Versions] when deletion is not requested. *)
Lemma Versions_listing (X : Collaborators) (app : App) (opt : VersionsOption)
    (path name : string) (fn : Function) :
  vo_FunctionFilePath opt = Some path ->
  loadFunctionV2 app path = Ok fn ->
  FunctionName fn = Some name ->
  Delete opt = Some false ->
  Versions X app opt
  = andThen (listVersions X app name) (fun vo =>
      Some (output <- lift (deref (Output opt)) ;; printOutputs X output vo)).
Proof.
  intros Hpath Hload Hname Hdelete. unfold Versions.
  rewrite Hpath. cbn [deref lift andThen]. rewrite Hload. cbn [wrapErr andThen].
  rewrite Hname. cbn [deref andThen]. rewrite Hdelete. cbn [deref andThen].
  destruct (andThen _ _) as [[tr r]|]; reflexivity.
Qed.

Lemma listAliasesLoop_Err (name : string) (resps : list (Res ListAliasesOutput))
    (marker : option string) (aliases : gmap string (list string))
    (tr : list Event) (e : error) :
  listAliasesLoop name resps marker aliases = Some (tr, Err e) ->
  (exists cause, e = wrap "failed to list aliases" cause)
  /\ Forall (fun ev => exists m, ev = Remote (ListAliases name m)) tr.
Proof.
  revert marker aliases tr.
  induction resps as [|[res|cause|] resps IH]; intros marker aliases tr; cbn;
    try discriminate.
  - destruct (addAliases (default [] (la_Aliases res)) aliases) as [mid|e'|] eqn:Hadd;
      try discriminate.
    + destruct (la_NextMarker res) as [next|]; [|discriminate].
      intros H. apply waitFor_inv in H as (tr' & H & ->). apply IH in H as [He Htr].
      split; [exact He|]. constructor; eauto.
    + exfalso. clear IH. revert aliases Hadd.
      induction (default [] (la_Aliases res)) as [|alias l IHl]; intros aliases; cbn;
        [discriminate|].
      unfold addAlias at 1.
      destruct (FunctionVersion alias); cbn; [|discriminate].
      destruct (Name alias); cbn; [|discriminate].
      destruct (RoutingConfig alias) as [[[w|]]|]; cbn; apply IHl.
  - intros [= <- <-]. split; [eauto|]. repeat constructor. eauto.
Qed.

Lemma listVersionsLoop_Err (name : string) (resps : list (Res ListVersionsByFunctionOutput))
    (marker : option string) (acc : list types.FunctionConfiguration)
    (tr : list Event) (e : error) :
  listVersionsLoop name resps marker acc = Some (tr, Err e) ->
  (exists cause, e = wrap "failed to list versions" cause)
  /\ Forall (fun ev => exists m, ev = Remote (ListVersionsByFunction name m)) tr.
Proof.
  revert marker acc tr.
  induction resps as [|[res|cause|] resps IH]; intros marker acc tr; cbn; try discriminate.
  - destruct (lv_NextMarker res) as [next|]; [|discriminate].
    intros H. apply waitFor_inv in H as (tr' & H & ->). apply IH in H as [He Htr].
    split; [exact He|]. constructor; eauto.
  - intros [= <- <-]. split; [eauto|]. repeat constructor. eauto.
Qed.

(** X20. A failure of the alias listing ends [Versions] with that error,
    wrapped as a failure to list aliases: no version is listed and nothing
    is printed. A failure of the version listing, after the aliases were
    listed, ends it the same way, wrapped as a failure to list versions. *)
Theorem Versions_listing_failure (X : Collaborators) (app : App) (opt : VersionsOption)
    (path name : string) (fn : Function) :
  vo_FunctionFilePath opt = Some path ->
  loadFunctionV2 app path = Ok fn ->
  FunctionName fn = Some name ->
  Delete opt = Some false ->
  (forall tr e,
     listAliasesLoop name (lambda_ListAliases app name) None ∅ = Some (tr, Err e) ->
     Versions X app opt = Some (tr, Err e)
     /\ (exists cause, e = wrap "failed to list aliases" cause)
     /\ Forall (fun ev => exists m, ev = Remote (ListAliases name m)) tr)
  /\ (forall tr1 aliases tr2 e,
        listAliasesLoop name (lambda_ListAliases app name) None ∅ = Some (tr1, Ok aliases) ->
        listVersionsLoop name (lambda_ListVersionsByFunction app name) None []
          = Some (tr2, Err e) ->
        Versions X app opt = Some (tr1 ++ tr2, Err e)
        /\ (exists cause, e = wrap "failed to list versions" cause)
        /\ printed (tr1 ++ tr2) = []).
Proof.
  intros Hpath Hload Hname Hdelete.
  rewrite (Versions_listing _ _ _ _ _ _ Hpath Hload Hname Hdelete). unfold listVersions.
  split.
  - intros tr e Ha. rewrite Ha. split; [reflexivity|]. eapply listAliasesLoop_Err, Ha.
  - intros tr1 aliases tr2 e Ha Hv. rewrite Ha. cbn [andThen]. rewrite Hv.
    split; [reflexivity|].
    apply listVersionsLoop_Err in Hv as [He Htr2]. split; [exact He|].
    apply listAliasesLoop_trace in Ha as ->.
    unfold printed. rewrite omap_app.
    assert (omap (fun ev => match ev with Stdout s => Some s | Remote _ => None end) tr2
            = []) as ->.
    { induction Htr2 as [|ev tr2 [m ->] _ IH]; [reflexivity|]. exact IH. }
    rewrite app_nil_r. clear.
    induction (None :: aliasMarkers (lambda_ListAliases app name)) as [|m l IH];
      [reflexivity | exact IH].
Qed.

Lemma Versions_listing_failure_witness :
  Versions sampleCollaborators (sampleVersionsApp pagesAliasesFailing pagesAscending)
    (sampleVersionsOption "json")
  = Some ([ Remote (ListAliases "hello" None); Remote (ListAliases "hello" (Some "m1")) ],
          Err "failed to list aliases: TooManyRequestsException")
  /\ Versions sampleCollaborators
       (sampleVersionsApp pagesAliases [Err "ResourceNotFoundException"])
       (sampleVersionsOption "json")
     = Some ([ Remote (ListAliases "hello" None); Remote (ListAliases "hello" (Some "m1"));
               Remote (ListVersionsByFunction "hello" None) ],
             Err "failed to list versions: ResourceNotFoundException").
Proof.
  split.
  - destruct (Versions_listing_failure sampleCollaborators
                (sampleVersionsApp pagesAliasesFailing pagesAscending)
                (sampleVersionsOption "json") "function.json" "hello"
                (definitionOf "hello" None "Zip") eq_refl eq_refl eq_refl eq_refl) as [H _].
    edestruct H as (Hrun & _); [vm_compute; reflexivity|]. exact Hrun.
  - destruct (Versions_listing_failure sampleCollaborators
                (sampleVersionsApp pagesAliases [Err "ResourceNotFoundException"])
                (sampleVersionsOption "json") "function.json" "hello"
                (definitionOf "hello" None "Zip") eq_refl eq_refl eq_refl eq_refl) as [_ H].
    edestruct H as (Hrun & _); [vm_compute; reflexivity | vm_compute; reflexivity |].
    exact Hrun.
Defined.

Lemma buildOutputs_app (X : Collaborators) (aliases : gmap string (list string))
    (pre post : list types.FunctionConfiguration) (vo : versionsOutputs) :
  buildOutputs X aliases (pre ++ post) vo
  = res_bind (buildOutputs X aliases pre vo) (buildOutputs X aliases post).
Proof.
  revert vo. induction pre as [|c pre IH]; intros vo; cbn; [reflexivity|].
  destruct (String.eqb _ _); [apply IH|].
  destruct (types.c_LastModified c) as [t|]; cbn; [|reflexivity].
  destruct (time_Parse X lastModifiedLayout t); cbn; try reflexivity.
  destruct (types.c_Version c); cbn; [apply IH | reflexivity].
Qed.

(** X21. One published version whose timestamp does not parse fails the
    whole listing with that error, wrapped as a failure to parse the last
    modification time: the records of the versions before it are not
    returned, and the versions after it are not looked at. *)
Theorem listing_fails_on_bad_timestamp (X : Collaborators) (app : App) (name : string)
    (tr1 tr2 : list Event) (aliases : gmap string (list string))
    (pre post : list types.FunctionConfiguration) (c : types.FunctionConfiguration)
    (lastModified : string) (e : error) :
  listAliasesLoop name (lambda_ListAliases app name) None ∅ = Some (tr1, Ok aliases) ->
  listVersionsLoop name (lambda_ListVersionsByFunction app name) None []
    = Some (tr2, Ok (pre ++ c :: post)) ->
  Forall (wellFormedVersion X) pre ->
  isPublished (versionOf c) = true ->
  types.c_LastModified c = Some lastModified ->
  time_Parse X lastModifiedLayout lastModified = Err e ->
  listVersions X app name
  = Some (tr1 ++ tr2, Err (wrap "failed to parse last modified" e)).
Proof.
  intros Ha Hv Hpre Hpub Hlm Hparse. unfold listVersions.
  rewrite Ha. cbn [andThen]. rewrite Hv. cbn [andThen lift].
  rewrite app_nil_r, buildOutputs_app.
  destruct (buildOutputs_total X aliases pre [] Hpre) as [vo ->]. cbn [res_bind buildOutputs].
  unfold isPublished, versionOf in Hpub.
  destruct (String.eqb _ _); [discriminate Hpub|].
  rewrite Hlm. cbn. rewrite Hparse. reflexivity.
Qed.

Lemma listing_fails_on_bad_timestamp_witness :
  listVersions sampleCollaborators (sampleVersionsApp pagesAliases pagesBadTimestamp) "hello"
  = Some ([ Remote (ListAliases "hello" None); Remote (ListAliases "hello" (Some "m1"));
            Remote (ListVersionsByFunction "hello" None) ],
          Err "failed to parse last modified: cannot parse").
Proof.
  eapply eq_trans;
    [ eapply (listing_fails_on_bad_timestamp sampleCollaborators
                (sampleVersionsApp pagesAliases pagesBadTimestamp) "hello" _ _ _
                [listedVersion "1" "2024-01-01T10:00:00.000+0000"]
                [listedVersion "3" "2024-01-03T10:00:00.000+0000"]
                (listedVersion "2" "") "" "cannot parse");
      [ vm_compute; reflexivity | vm_compute; reflexivity | | reflexivity .. ]
    | reflexivity ].
  apply Forall_cons_2; [|apply Forall_nil_2].
  intros _. split; [eexists; reflexivity|].
  do 2 eexists. split; [reflexivity | vm_compute; reflexivity].
Defined.

Lemma listAliasesLoop_remote (name : string) (resps : list (Res ListAliasesOutput))
    (marker : option string) (aliases : gmap string (list string))
    (tr : list Event) (r : Res (gmap string (list string))) :
  listAliasesLoop name resps marker aliases = Some (tr, r) -> printed tr = [].
Proof.
  revert marker aliases tr r.
  induction resps as [|resp resps IH]; intros marker aliases tr r; cbn; [discriminate|].
  destruct resp as [res|e|]; try (intros [= <- _]; reflexivity).
  destruct (addAliases _ _) as [mid| |]; try (intros [= <- _]; reflexivity).
  destruct (la_NextMarker res) as [next|]; [|intros [= <- _]; reflexivity].
  intros H. apply waitFor_inv in H as (tr' & H & ->). apply IH in H. exact H.
Qed.

Lemma listVersionsLoop_remote (name : string) (resps : list (Res ListVersionsByFunctionOutput))
    (marker : option string) (acc : list types.FunctionConfiguration)
    (tr : list Event) (r : Res (list types.FunctionConfiguration)) :
  listVersionsLoop name resps marker acc = Some (tr, r) -> printed tr = [].
Proof.
  revert marker acc tr r.
  induction resps as [|resp resps IH]; intros marker acc tr r; cbn; [discriminate|].
  destruct resp as [res|e|]; try (intros [= <- _]; reflexivity).
  destruct (lv_NextMarker res) as [next|]; [|intros [= <- _]; reflexivity].
  intros H. apply waitFor_inv in H as (tr' & H & ->). apply IH in H. exact H.
Qed.

Lemma printed_app (tr1 tr2 : list Event) : printed (tr1 ++ tr2) = printed tr1 ++ printed tr2.
Proof. unfold printed. apply omap_app. Qed.

Lemma listVersions_remote (X : Collaborators) (app : App) (name : string)
    (tr : list Event) (r : Res versionsOutputs) :
  listVersions X app name = Some (tr, r) -> printed tr = [].
Proof.
  unfold listVersions.
  destruct (listAliasesLoop _ _ _ _) as [[tr1 [aliases| |]]|] eqn:Ha; cbn [andThen];
    try discriminate; try (intros [= <- _]; eapply listAliasesLoop_remote, Ha).
  destruct (listVersionsLoop _ _ _ _) as [[tr2 [versions| |]]|] eqn:Hv; cbn [andThen lift];
    try discriminate; intros [= <- _]; rewrite ?printed_app;
    rewrite (listAliasesLoop_remote _ _ _ _ _ _ Ha), (listVersionsLoop_remote _ _ _ _ _ _ Hv);
    reflexivity.
Qed.

Lemma printOutputs_rendered (X : Collaborators) (output : string) (vo : versionsOutputs) :
  printOutputs X output vo
  = (match rendered X output vo with
     | Some text => [Stdout text]
     | None => []
     end, Ok tt).
Proof.
  unfold printOutputs, rendered.
  destruct (String.eqb output "json"); [reflexivity|].
  destruct (String.eqb output "tsv"); [reflexivity|].
  destruct (String.eqb output "table"); reflexivity.
Qed.

(** X22. When deletion is not requested, [Versions] prints all or nothing:
    either nothing is printed, or the listing succeeded, the run returns
    nil, and exactly one text is printed, the rendering of all records in
    the requested format (JSON with a newline, TSV or table); in any other
    format nothing is printed. *)
Theorem Versions_prints_all_or_nothing (X : Collaborators) (app : App)
    (opt : VersionsOption) (tr : list Event) (r : Res unit) :
  Delete opt = Some false ->
  Versions X app opt = Some (tr, r) ->
  printed tr = []
  \/ (r = Ok tt
      /\ exists name tr0 vo output text,
           listVersions X app name = Some (tr0, Ok vo)
           /\ Output opt = Some output
           /\ rendered X output vo = Some text
           /\ printed tr = [text]).
Proof.
  intros Hdelete Hrun.
  destruct (vo_FunctionFilePath opt) as [path|] eqn:Hpath;
    [|left; unfold Versions in Hrun; rewrite Hpath in Hrun; injection Hrun as <- _;
      reflexivity].
  destruct (loadFunctionV2 app path) as [fn| |] eqn:Hload;
    [|left; unfold Versions in Hrun; rewrite Hpath in Hrun; cbn [deref lift andThen] in Hrun;
      rewrite Hload in Hrun; injection Hrun as <- _; reflexivity ..].
  destruct (FunctionName fn) as [name|] eqn:Hname;
    [|left; unfold Versions in Hrun; rewrite Hpath in Hrun; cbn [deref lift andThen] in Hrun;
      rewrite Hload in Hrun; cbn [wrapErr andThen] in Hrun; rewrite Hname in Hrun;
      injection Hrun as <- _; reflexivity].
  rewrite (Versions_listing _ _ _ _ _ _ Hpath Hload Hname Hdelete) in Hrun.
  destruct (listVersions X app name) as [[tr0 [vo| |]]|] eqn:Hlist; cbn [andThen] in Hrun;
    try discriminate.
  2, 3: injection Hrun as <- _; left; eapply listVersions_remote, Hlist.
  pose proof (listVersions_remote _ _ _ _ _ Hlist) as Hremote.
  destruct (Output opt) as [output|] eqn:Houtput; cbn [deref] in Hrun.
  - rewrite bind_lift_Ok, printOutputs_rendered in Hrun. injection Hrun as <- <-.
    rewrite printed_app, Hremote.
    destruct (rendered X output vo) as [text|] eqn:Htext; [|left; reflexivity].
    right. split; [reflexivity|]. exists name, tr0, vo, output, text. auto.
  - rewrite bind_lift_Panic in Hrun. injection Hrun as <- _.
    left. rewrite app_nil_r. exact Hremote.
Qed.

Lemma Versions_prints_all_or_nothing_witness :
  exists tr,
    Versions sampleCollaborators (sampleVersionsApp pagesAliases pagesAscending)
      (sampleVersionsOption "tsv") = Some (tr, Ok tt)
    /\ printed tr = ["1" +:+ nl +:+ "2" +:+ nl +:+ "3" +:+ nl +:+ "10"]
    /\ exists tr' r,
         Versions sampleCollaborators (sampleVersionsApp pagesAliases pagesBadTimestamp)
           (sampleVersionsOption "tsv") = Some (tr', r)
         /\ printed tr' = [].
Proof.
  eexists. split; [vm_compute; reflexivity|]. split; [vm_compute; reflexivity|].
  do 2 eexists. split; [vm_compute; reflexivity|].
  edestruct (Versions_prints_all_or_nothing sampleCollaborators
               (sampleVersionsApp pagesAliases pagesBadTimestamp)
               (sampleVersionsOption "tsv")) as [Hnothing|[Hok _]];
    [reflexivity | vm_compute; reflexivity | exact Hnothing | discriminate Hok].
Defined.

Lemma appendWeighted_names (n : string) (keys : list string)
    (aliases : gmap string (list string)) (v m : string) :
  m ∈ namesOf (appendWeighted n keys aliases) v ->
  m ∈ namesOf aliases v \/ (m = n /\ v ∈ keys).
Proof.
  unfold appendWeighted. revert aliases.
  induction keys as [|k keys IH]; intros aliases; cbn; [auto|].
  intros Hm. apply IH in Hm as [Hm|[-> Hv]].
  - rewrite namesOf_appendAlias in Hm. destruct (decide (k = v)) as [->|_]; [|auto].
    apply elem_of_app in Hm as [Hm|Hm]; [auto|].
    apply list_elem_of_singleton in Hm as ->. right. split; [reflexivity|]. left.
  - right. split; [reflexivity|]. right. exact Hv.
Qed.

Lemma addAlias_names (alias : AliasConfiguration) (aliases out : gmap string (list string))
    (v m : string) :
  addAlias alias aliases = Ok out ->
  m ∈ namesOf out v ->
  m ∈ namesOf aliases v \/ (Name alias = Some m /\ refersTo alias v).
Proof.
  unfold addAlias, refersTo.
  destruct (FunctionVersion alias) as [version|]; cbn; [|discriminate].
  destruct (Name alias) as [name|]; cbn; [|discriminate].
  assert (m ∈ namesOf (appendAlias version name aliases) v ->
          m ∈ namesOf aliases v \/ (Some name = Some m /\ Some version = Some v)) as Hprimary.
  { rewrite namesOf_appendAlias. destruct (decide (version = v)) as [->|_]; [|auto].
    intros Hm. apply elem_of_app in Hm as [Hm|Hm]; [auto|].
    apply list_elem_of_singleton in Hm as ->. auto. }
  destruct (RoutingConfig alias) as [[[weights|]]|]; intros [= <-] Hm.
  - apply appendWeighted_names in Hm as [Hm|[-> Hv]].
    + apply Hprimary in Hm as [Hm|[Hn Hv]]; auto.
    + right. split; [reflexivity|]. right. do 2 eexists. split; [reflexivity|].
      split; [reflexivity|]. apply elem_of_rangeKeys, Hv.
  - apply Hprimary in Hm as [Hm|[Hn Hv]]; auto.
  - apply Hprimary in Hm as [Hm|[Hn Hv]]; auto.
Qed.

Lemma addAliases_names (l : list AliasConfiguration) (aliases out : gmap string (list string))
    (v m : string) :
  addAliases l aliases = Ok out ->
  m ∈ namesOf out v ->
  m ∈ namesOf aliases v
  \/ exists alias, alias ∈ l /\ Name alias = Some m /\ refersTo alias v.
Proof.
  revert aliases. induction l as [|a l IH]; intros aliases; cbn.
  - intros [= <-]. auto.
  - destruct (addAlias a aliases) as [mid| |] eqn:Hmid; cbn; try discriminate.
    intros Hout Hm.
    destruct (IH _ Hout Hm) as [Hmid'|(alias & Hin & Hn & Hv)].
    + destruct (addAlias_names _ _ _ _ _ Hmid Hmid') as [Hold|[Hn Hv]]; [auto|].
      right. exists a. split; [left|]. auto.
    + right. exists alias. split; [right|]; auto.
Qed.

Lemma addAliases_named (l : list AliasConfiguration) (aliases out : gmap string (list string))
    (alias : AliasConfiguration) :
  addAliases l aliases = Ok out -> alias ∈ l -> is_Some (Name alias).
Proof.
  revert aliases. induction l as [|a l IH]; intros aliases; cbn.
  - intros _ Hin. apply elem_of_nil in Hin. contradiction.
  - destruct (addAlias a aliases) as [mid| |] eqn:Hmid; cbn; try discriminate.
    intros Hout Hin. apply elem_of_cons in Hin as [->|Hin]; [|eapply IH; eauto].
    unfold addAlias in Hmid.
    destruct (FunctionVersion a); cbn in Hmid; [|discriminate].
    destruct (Name a); cbn in Hmid; [eauto | discriminate].
Qed.

Lemma appendAlias_noEmptyEntry (v n : string) (aliases : gmap string (list string)) :
  noEmptyEntry aliases -> noEmptyEntry (appendAlias v n aliases).
Proof.
  intros H v'. unfold appendAlias. rewrite lookup_insert.
  destruct (decide (v = v')); [|apply H].
  intros [= Hnil]. apply app_eq_nil in Hnil as [_ Hnil]. discriminate.
Qed.

Lemma addAliases_noEmptyEntry (l : list AliasConfiguration)
    (aliases out : gmap string (list string)) :
  addAliases l aliases = Ok out -> noEmptyEntry aliases -> noEmptyEntry out.
Proof.
  revert aliases. induction l as [|a l IH]; intros aliases; cbn.
  - intros [= <-]. auto.
  - destruct (addAlias a aliases) as [mid| |] eqn:Hmid; cbn; try discriminate.
    intros Hout Hne. eapply IH; [exact Hout|].
    unfold addAlias in Hmid.
    destruct (FunctionVersion a) as [version|]; cbn in Hmid; [|discriminate].
    destruct (Name a) as [name|]; cbn in Hmid; [|discriminate].
    assert (forall keys m, noEmptyEntry m -> noEmptyEntry (appendWeighted name keys m))
      as Hweighted.
    { unfold appendWeighted. induction keys as [|k keys IHk]; intros m Hm; cbn; [exact Hm|].
      apply IHk, appendAlias_noEmptyEntry, Hm. }
    destruct (RoutingConfig a) as [[[weights|]]|]; injection Hmid as <-;
      [apply Hweighted|..]; apply appendAlias_noEmptyEntry, Hne.
Qed.

Lemma appendWeighted_names_exact (n : string) (keys : list string)
    (aliases : gmap string (list string)) (v : string) :
  NoDup keys ->
  namesOf (appendWeighted n keys aliases) v
  = namesOf aliases v ++ (if decide (v ∈ keys) then [n] else []).
Proof.
  unfold appendWeighted. intros Hnd. revert aliases.
  induction Hnd as [|k keys Hk _ IH]; intros aliases; cbn.
  - rewrite decide_False by apply not_elem_of_nil. rewrite app_nil_r. reflexivity.
  - rewrite IH, namesOf_appendAlias. destruct (decide (k = v)) as [->|Hne].
    + rewrite (decide_False (P := v ∈ keys)) by exact Hk.
      rewrite decide_True by left. rewrite app_nil_r. reflexivity.
    + destruct (decide (v ∈ keys)) as [Hin|Hnin].
      * rewrite decide_True by (right; exact Hin). reflexivity.
      * rewrite decide_False; [reflexivity|].
        intros Hin. apply elem_of_cons in Hin as [->|Hin]; contradiction.
Qed.

Lemma addAlias_names_exact (alias : AliasConfiguration)
    (aliases out : gmap string (list string)) (v : string) :
  addAlias alias aliases = Ok out ->
  namesOf out v = namesOf aliases v ++ namesFor alias v.
Proof.
  unfold addAlias, namesFor, weightsOf.
  destruct (FunctionVersion alias) as [version|]; cbn; [|discriminate].
  destruct (Name alias) as [name|]; cbn; [|discriminate].
  destruct (RoutingConfig alias) as [[[weights|]]|]; cbn; intros [= <-].
  - rewrite appendWeighted_names_exact by apply NoDup_fst_map_to_list.
    rewrite namesOf_appendAlias.
    assert ((if decide (v ∈ rangeKeys weights) then [name] else [])
            = (if decide (is_Some (weights !! v)) then [name] else [])) as ->.
    { destruct (decide (v ∈ rangeKeys weights)) as [Hin|Hnin].
      - rewrite decide_True by (apply elem_of_rangeKeys, Hin). reflexivity.
      - rewrite decide_False; [reflexivity|].
        intros Hin. apply Hnin, elem_of_rangeKeys, Hin. }
    destruct (decide (version = v)) as [->|_]; [rewrite <- app_assoc|]; reflexivity.
  - rewrite namesOf_appendAlias, lookup_empty.
    rewrite (decide_False (P := is_Some None)) by (intros [? [=]]).
    rewrite app_nil_r. destruct (decide (version = v)) as [->|_];
      [|rewrite app_nil_r]; reflexivity.
  - rewrite namesOf_appendAlias, lookup_empty.
    rewrite (decide_False (P := is_Some None)) by (intros [? [=]]).
    rewrite app_nil_r. destruct (decide (version = v)) as [->|_];
      [|rewrite app_nil_r]; reflexivity.
Qed.

Lemma addAliases_names_exact (l : list AliasConfiguration)
    (aliases out : gmap string (list string)) (v : string) :
  addAliases l aliases = Ok out ->
  namesOf out v = namesOf aliases v ++ flat_map (fun alias => namesFor alias v) l.
Proof.
  revert aliases. induction l as [|a l IH]; intros aliases; cbn.
  - intros [= <-]. rewrite app_nil_r. reflexivity.
  - destruct (addAlias a aliases) as [mid| |] eqn:Hmid; cbn; try discriminate.
    intros Hout. rewrite (IH _ Hout), (addAlias_names_exact _ _ _ v Hmid), <- app_assoc.
    reflexivity.
Qed.

(** X23. The alias names of a record of the versions listing are exactly
    these, in the order in which the aliases are read: for each alias, its
    name once when the record's version is the alias's primary version, and
    once more when it is one of the alias's weighted versions. An alias that
    is primary on a version and also weights it is listed twice. *)
Theorem listed_alias_names_exact (X : Collaborators) (app : App) (name : string)
    (tr : list Event) (vo : versionsOutputs) (r : versionsOutput) :
  listVersions X app name = Some (tr, Ok vo) ->
  r ∈ vo ->
  default [] (vo_Aliases r)
  = flat_map (fun alias => namesFor alias (vo_Version r))
      (aliasesRead (lambda_ListAliases app name)).
Proof.
  intros Hlist Hr.
  destruct (listVersions_Ok _ _ _ _ _ Hlist) as (aliases & Ha & Hb).
  apply buildOutputs_Ok in Hb as [_ Hrec].
  destruct (Hrec r Hr) as [Hnil|Hlookup]; [apply elem_of_nil in Hnil; contradiction|].
  rewrite Hlookup. exact (addAliases_names_exact _ _ _ (vo_Version r) Ha).
Qed.

Lemma listed_alias_names_exact_witness :
  exists tr vo,
    listVersions sampleCollaborators (sampleVersionsApp pagesAliasTwice pagesAscending) "hello"
      = Some (tr, Ok vo)
    /\ map (fun r => (vo_Version r, vo_Aliases r)) vo
       = [ ("1", None); ("2", None); ("3", Some ["current"; "current"]); ("10", None) ]
    /\ forall r, r ∈ vo ->
         default [] (vo_Aliases r)
         = flat_map (fun alias => namesFor alias (vo_Version r))
             (aliasesRead pagesAliasTwice).
Proof.
  do 2 eexists. split; [vm_compute; reflexivity|]. split; [vm_compute; reflexivity|].
  intros r Hr.
  eapply (listed_alias_names_exact sampleCollaborators
            (sampleVersionsApp pagesAliasTwice pagesAscending) "hello");
    [vm_compute; reflexivity | exact Hr].
Defined.

(** X24. A record of the versions listing has alias names only from
    aliases that were read and that refer to the record's version, as
    primary or as weighted version; and the record has no alias list at
    all exactly when no alias read refers to its version. *)
Theorem listed_alias_names_sound (X : Collaborators) (app : App) (name : string)
    (tr : list Event) (vo : versionsOutputs) (r : versionsOutput) :
  listVersions X app name = Some (tr, Ok vo) ->
  r ∈ vo ->
  (forall n, n ∈ default [] (vo_Aliases r) ->
     exists alias,
       alias ∈ aliasesRead (lambda_ListAliases app name)
       /\ Name alias = Some n /\ refersTo alias (vo_Version r))
  /\ (vo_Aliases r = None <->
      forall alias, alias ∈ aliasesRead (lambda_ListAliases app name) ->
                    ~ refersTo alias (vo_Version r)).
Proof.
  intros Hlist Hr.
  destruct (listVersions_Ok _ _ _ _ _ Hlist) as (aliases & Ha & Hb).
  apply buildOutputs_Ok in Hb as [_ Hrec].
  destruct (Hrec r Hr) as [Hnil|Hlookup]; [apply elem_of_nil in Hnil; contradiction|].
  rewrite Hlookup.
  assert (forall n, n ∈ namesOf aliases (vo_Version r) ->
            exists alias,
              alias ∈ aliasesRead (lambda_ListAliases app name)
              /\ Name alias = Some n /\ refersTo alias (vo_Version r)) as Hsound.
  { intros n Hn. destruct (addAliases_names _ _ _ _ _ Ha Hn) as [Hempty|Halias].
    - unfold namesOf in Hempty. rewrite lookup_empty in Hempty.
      apply elem_of_nil in Hempty. contradiction.
    - exact Halias. }
  split; [exact Hsound|]. split.
  - intros Hnone alias Hin Hrefers.
    destruct (addAliases_named _ _ _ _ Ha Hin) as [n Hn].
    pose proof (addAliases_attribution _ _ _ _ _ _ Ha Hin Hn Hrefers) as Hnames.
    unfold namesOf in Hnames. rewrite Hnone in Hnames.
    apply elem_of_nil in Hnames. contradiction.
  - intros Hnone. destruct (aliases !! vo_Version r) as [[|n names]|] eqn:Hstored;
      [| |reflexivity].
    + exfalso. eapply (addAliases_noEmptyEntry _ _ _ Ha); [|exact Hstored].
      intros v. rewrite lookup_empty. discriminate.
    + exfalso. destruct (Hsound n) as (alias & Hin & _ & Hrefers).
      * unfold namesOf. rewrite Hstored. left.
      * exact (Hnone alias Hin Hrefers).
Qed.

Lemma listed_alias_names_sound_witness :
  exists tr vo,
    listVersions sampleCollaborators (sampleVersionsApp pagesAliases pagesAscending) "hello"
      = Some (tr, Ok vo)
    /\ map (fun r => (vo_Version r, vo_Aliases r)) vo
       = [ ("1", Some ["current"; "stable"]);
           ("2", Some ["current"]);
           ("3", Some ["current"]);
           ("10", None) ]
    /\ forall r, r ∈ vo ->
         vo_Aliases r = None <->
         forall alias, alias ∈ aliasesRead pagesAliases -> ~ refersTo alias (vo_Version r).
Proof.
  do 2 eexists. split; [vm_compute; reflexivity|]. split; [vm_compute; reflexivity|].
  intros r Hr.
  eapply (listed_alias_names_sound sampleCollaborators
            (sampleVersionsApp pagesAliases pagesAscending) "hello");
    [vm_compute; reflexivity | exact Hr].
Defined.

Lemma buildOutputs_records (X : Collaborators) (aliases : gmap string (list string))
    (versions : list types.FunctionConfiguration) (vo out : versionsOutputs) :
  buildOutputs X aliases versions vo = Ok out ->
  exists new,
    out = vo ++ new
    /\ Forall2 (recordOf X) new
         (List.filter (fun c => isPublished (versionOf c)) versions).
Proof.
  revert vo. induction versions as [|c versions IH]; intros vo; cbn.
  - intros [= <-]. exists []. rewrite app_nil_r. split; [reflexivity|constructor].
  - unfold isPublished at 1.
    change (versionOf c) with (aws_ToString (types.c_Version c)).
    destruct (String.eqb (aws_ToString (types.c_Version c)) versionLatest) eqn:Hlatest;
      cbn [negb].
    + apply IH.
    + destruct (types.c_LastModified c) as [lastModified|] eqn:Hl; cbn; [|discriminate].
      destruct (time_Parse X lastModifiedLayout lastModified) as [lm| |] eqn:Hp; cbn;
        try discriminate.
      destruct (types.c_Version c) as [version|] eqn:Hv; cbn; [|discriminate].
      intros H. apply IH in H as (new & -> & Hnew).
      eexists (_ :: new). rewrite <- app_assoc. split; [reflexivity|].
      constructor; [|exact Hnew].
      unfold recordOf. cbn. rewrite Hv, Hl. split; [reflexivity|].
      split; [reflexivity|]. eauto.
Qed.

(** X25. The records of the versions listing pair off, in order, with the
    published versions read: a record carries the identifier and the
    runtime of its version unchanged, and as time of last modification the
    version's timestamp as parsed in the layout of the listing. *)
Theorem listing_records (X : Collaborators) (app : App) (name : string)
    (tr : list Event) (vo : versionsOutputs) :
  listVersions X app name = Some (tr, Ok vo) ->
  Forall2 (recordOf X) vo
    (List.filter (fun c => isPublished (versionOf c))
       (versionsRead (lambda_ListVersionsByFunction app name))).
Proof.
  intros Hlist.
  destruct (listVersions_Ok _ _ _ _ _ Hlist) as (aliases & _ & Hb).
  apply buildOutputs_records in Hb as (new & -> & Hnew). exact Hnew.
Qed.

Lemma listing_records_witness :
  exists tr vo,
    listVersions sampleCollaborators (sampleVersionsApp pagesAliases pagesDescending) "hello"
      = Some (tr, Ok vo)
    /\ Forall2 (recordOf sampleCollaborators) vo
         (List.filter (fun c => isPublished (versionOf c)) (versionsRead pagesDescending)).
Proof.
  do 2 eexists. split; [vm_compute; reflexivity|].
  eapply (listing_records sampleCollaborators
            (sampleVersionsApp pagesAliases pagesDescending) "hello").
  vm_compute. reflexivity.
Defined.


(** ** Environment files *)

Lemma setenv_list_lookup (L : EnvLibrary) (l : list (string * string)) (env : Environ)
    (key : string) :
  NoDup l.*1 ->
  foldl (fun acc kv => os_Setenv L kv.1 kv.2 acc) env l !! key
  = match (list_to_map l : gmap string string) !! key with
    | Some value => if os_Setenv_accepts L key value then Some value else env !! key
    | None => env !! key
    end.
Proof.
  revert env. induction l as [|[k v] l IH]; intros env Hnd; cbn.
  - rewrite lookup_empty. reflexivity.
  - apply NoDup_cons in Hnd as [Hk Hnd]. rewrite (IH _ Hnd).
    destruct (decide (k = key)) as [->|Hne].
    + rewrite lookup_insert_eq.
      rewrite (not_elem_of_list_to_map_1 (M := gmap string) _ _ Hk).
      unfold os_Setenv. destruct (os_Setenv_accepts L key v); [|reflexivity].
      apply lookup_insert_eq.
    + rewrite lookup_insert_ne by exact Hne.
      assert (os_Setenv L k v env !! key = env !! key) as ->; [|reflexivity].
      unfold os_Setenv. destruct (os_Setenv_accepts L k v); [|reflexivity].
      apply lookup_insert_ne, Hne.
Qed.

Lemma setenvAll_lookup (L : EnvLibrary) (envs : gmap string string) (env : Environ)
    (key : string) :
  setenvAll L envs env !! key
  = match envs !! key with
    | Some value => if os_Setenv_accepts L key value then Some value else env !! key
    | None => env !! key
    end.
Proof.
  unfold setenvAll. rewrite setenv_list_lookup by apply NoDup_fst_map_to_list.
  rewrite list_to_map_to_list. reflexivity.
Qed.

Lemma exportEnvFile_definedIn (L : EnvLibrary) (file : string) (env env' : Environ)
    (key : string) :
  exportEnvFile L file env = (env', Ok tt) ->
  env' !! key = match definedIn L file key with
                | Some value => Some value
                | None => env !! key
                end.
Proof.
  unfold exportEnvFile, definedIn. destruct (String.eqb file ""); [intros [= <-]; reflexivity|].
  destruct (os_Open L file) as [f| |]; try discriminate.
  destruct (envparse_Parse L f) as [envs| |]; try discriminate.
  intros [= <-]. rewrite setenvAll_lookup.
  destruct (envs !! key) as [value|]; [|reflexivity].
  destruct (os_Setenv_accepts L key value); reflexivity.
Qed.

Lemma exportEnvFiles_app (L : EnvLibrary) (pre post : list string) (env : Environ) :
  exportEnvFiles L (pre ++ post) env
  = match exportEnvFiles L pre env with
    | (env', Ok _) => exportEnvFiles L post env'
    | (env', Err e) => (env', Err e)
    | (env', Panic) => (env', Panic)
    end.
Proof.
  revert env. induction pre as [|file pre IH]; intros env; cbn; [reflexivity|].
  destruct (exportEnvFile L file env) as [env' [[]| |]]; [apply IH|reflexivity..].
Qed.

(** X26. A successful [exportEnvFile] of a file changes the environment
    variable by variable: a variable of the file that [os.Setenv] accepts
    gets the file's value, whatever it was before; every other variable,
    a variable of the file that [os.Setenv] refuses too, stays as it
    was. *)
Theorem exportEnvFile_variables (L : EnvLibrary) (file f : string)
    (envs : gmap string string) (env : Environ) :
  file <> "" ->
  os_Open L file = Ok f ->
  envparse_Parse L f = Ok envs ->
  exists env',
    exportEnvFile L file env = (env', Ok tt)
    /\ forall key,
         env' !! key
         = match envs !! key with
           | Some value => if os_Setenv_accepts L key value then Some value else env !! key
           | None => env !! key
           end.
Proof.
  intros Hfile Hopen Hparse. unfold exportEnvFile.
  destruct (String.eqb_spec file ""); [contradiction|].
  rewrite Hopen, Hparse. eexists. split; [reflexivity|].
  intros key. apply setenvAll_lookup.
Qed.

Lemma exportEnvFile_variables_witness :
  exists env',
    exportEnvFile sampleEnvLibrary "base.env" sampleEnviron = (env', Ok tt)
    /\ env' !! "STAGE" = Some "dev"
    /\ env' !! "REGION" = Some "us-east-1"
    /\ env' !! "HOME" = Some "/root"
    /\ env' !! "" = None.
Proof.
  destruct (exportEnvFile_variables sampleEnvLibrary "base.env" "base"
              (<["STAGE" := "dev"]> (<["REGION" := "us-east-1"]> (<["" := "x"]> ∅)))
              sampleEnviron) as (env' & Hrun & Hvars);
    [discriminate | reflexivity | reflexivity |].
  exists env'. split; [exact Hrun|].
  split; [|split; [|split]]; rewrite Hvars; vm_compute; reflexivity.
Defined.

(** X27. The loop over the environment files at the start of [New] stops
    at the first file that does not open or does not parse: the error is
    returned as it is, the files after it are not used, and the variables
    exported from the files before it stay in the environment. *)
Theorem exportEnvFiles_first_failure (L : EnvLibrary) (pre post : list string)
    (bad : string) (e : error) (env env1 : Environ) :
  exportEnvFiles L pre env = (env1, Ok tt) ->
  failsWith L bad e ->
  exportEnvFiles L (pre ++ bad :: post) env = (env1, Err e).
Proof.
  intros Hpre [Hbad Hfail]. rewrite exportEnvFiles_app, Hpre. cbn.
  unfold exportEnvFile. destruct (String.eqb_spec bad ""); [contradiction|].
  destruct Hfail as [Hopen|(f & Hopen & Hparse)]; rewrite Hopen; [reflexivity|].
  rewrite Hparse. reflexivity.
Qed.

Lemma exportEnvFiles_first_failure_witness :
  (exportEnvFiles sampleEnvLibrary ["base.env"] sampleEnviron).1 !! "STAGE" = Some "dev"
  /\ exportEnvFiles sampleEnvLibrary ["base.env"; "broken.env"; "local.env"] sampleEnviron
     = ((exportEnvFiles sampleEnvLibrary ["base.env"] sampleEnviron).1, Err "parse error").
Proof.
  split; [vm_compute; reflexivity|].
  apply (exportEnvFiles_first_failure sampleEnvLibrary ["base.env"] ["local.env"]
           "broken.env" "parse error" sampleEnviron).
  - vm_compute. reflexivity.
  - split; [discriminate|]. right. exists "broken". split; reflexivity.
Defined.

(** X28. When the loop over the environment files succeeds, a variable has
    the value of the last file in the list that defines it with a value
    that [os.Setenv] accepts, and its value from before when no file does:
    later files override earlier ones, and all of them override the
    environment that the process started with. *)
Theorem exportEnvFiles_last_file_wins (L : EnvLibrary) (files : list string)
    (env env' : Environ) (key : string) :
  exportEnvFiles L files env = (env', Ok tt) ->
  env' !! key
  = foldl (fun value file => match definedIn L file key with
                             | Some v => Some v
                             | None => value
                             end)
      (env !! key) files.
Proof.
  revert env. induction files as [|file files IH]; intros env; cbn.
  - intros [= <-]. reflexivity.
  - destruct (exportEnvFile L file env) as [env1 [[]| |]] eqn:Hfile; try discriminate.
    intros Hrest. rewrite (IH _ Hrest), (exportEnvFile_definedIn _ _ _ _ key Hfile).
    reflexivity.
Qed.

Lemma exportEnvFiles_last_file_wins_witness :
  (exportEnvFiles sampleEnvLibrary ["base.env"; ""; "local.env"] sampleEnviron).2 = Ok tt
  /\ (exportEnvFiles sampleEnvLibrary ["base.env"; ""; "local.env"] sampleEnviron).1
       !! "STAGE" = Some "local"
  /\ (exportEnvFiles sampleEnvLibrary ["base.env"; ""; "local.env"] sampleEnviron).1
       !! "REGION" = Some "us-east-1"
  /\ (exportEnvFiles sampleEnvLibrary ["base.env"; ""; "local.env"] sampleEnviron).1
       !! "HOME" = Some "/root".
Proof.
  split; [vm_compute; reflexivity|].
  assert (exportEnvFiles sampleEnvLibrary ["base.env"; ""; "local.env"] sampleEnviron
          = ((exportEnvFiles sampleEnvLibrary ["base.env"; ""; "local.env"] sampleEnviron).1,
             Ok tt)) as Hrun by (vm_compute; reflexivity).
  split; [|split];
    rewrite (exportEnvFiles_last_file_wins _ _ _ _ _ Hrun); vm_compute; reflexivity.
Defined.
